(** * Halligan runtime: parser, schema validators, safety gate, Stage-2 applier,
    Stage-3 interpreter and stage orchestrators.

    A shallow embedding of [halligan/runtime/*.py] and [halligan/stages/*.py],
    of the agent of [halligan/agents/agent.py] and of the tools [ask], [rank]
    and [compare] of [halligan/utils/vision_tools.py], followed by the
    properties proved about it.

    Conventions of the embedding.
    - Python [int] is [Z]; [bool] is a subclass of [int] and is kept apart
      where the code keeps the object itself ([pyint]).
    - Text is [string]; a character stands for one code point below 256.
    - A raised exception is a value of [exn]; code that can raise returns
      [result]; code that also mutates threads its state explicitly and
      returns the state reached when the exception left it.
    - A [dict] whose iteration order is observable is an association list
      with unique keys, in insertion order. *)

From Stdlib Require Import ZArith String Ascii List Lia Bool.
From stdpp Require Import base gmap strings list pretty sorting.
From Equations Require Import Equations.

Set Warnings "-register-all,-clear-no-such-hyp".
Set Default Proof Using "Type".
Open Scope string_scope.
Open Scope Z_scope.

(** ** Exceptions ([halligan/runtime/errors.py], [executor._Break]) *)

(** [PyError cls msg] is an exception of a builtin Python class [cls]
    ([IndexError], [KeyError], [TypeError], [AttributeError], ...). *)
Inductive exn :=
| ConfigError (msg : string)
| ParseError (msg : string)
| ValidationError (msg : string)
| UnsafeTargetError (msg : string)
| ToolError (msg : string)
| Break
| PyError (cls msg : string).

(** [issubclass(type(e), HalliganError)]. *)
Definition is_HalliganError (e : exn) : bool :=
  match e with
  | ConfigError _ | ParseError _ | ValidationError _
  | UnsafeTargetError _ | ToolError _ => true
  | Break | PyError _ _ => false
  end.

Definition is_ParseError (e : exn) : bool :=
  match e with ParseError _ => true | _ => false end.

Definition is_ValidationError (e : exn) : bool :=
  match e with ValidationError _ => true | _ => false end.

Definition is_ToolError (e : exn) : bool :=
  match e with ToolError _ => true | _ => false end.

Definition is_UnsafeTargetError (e : exn) : bool :=
  match e with UnsafeTargetError _ => true | _ => false end.

Definition is_Break (e : exn) : bool :=
  match e with Break => true | _ => false end.

(** [issubclass(type(e), Exception)]: everything here derives from
    [Exception] except the interpreter-level classes that derive from
    [BaseException] only. *)
Definition is_Exception (e : exn) : bool :=
  match e with
  | PyError cls _ =>
      negb (String.eqb cls "KeyboardInterrupt" || String.eqb cls "SystemExit"
            || String.eqb cls "GeneratorExit")
  | _ => true
  end.

(** [str(exc)]. *)
Definition exn_str (e : exn) : string :=
  match e with
  | ConfigError m | ParseError m | ValidationError m
  | UnsafeTargetError m | ToolError m | PyError _ m => m
  | Break => ""
  end.

Inductive result (A : Type) :=
| Ok (a : A)
| Raise (e : exn).
Arguments Ok {A} a.
Arguments Raise {A} e.

Definition bind {A B} (r : result A) (k : A -> result B) : result B :=
  match r with
  | Ok a => k a
  | Raise e => Raise e
  end.

Declare Scope result_scope.
Delimit Scope result_scope with result.
Notation "x <- c1 ;; c2" := (bind c1 (fun x => c2))
  (at level 100, c1 at next level, right associativity) : result_scope.
Notation "c1 ;;; c2" := (bind c1 (fun _ => c2))
  (at level 100, right associativity) : result_scope.

(** ** JSON values and Python helpers *)

(** What [json.loads] produces. [JFloat] keeps the literal's text: no
    arithmetic is done on floats by the code modelled here. *)
Inductive json :=
| JNull
| JBool (b : bool)
| JInt (z : Z)
| JFloat (repr : string)
| JStr (s : string)
| JList (l : list json)
| JObj (fields : list (string * json)).

(** [type(value).__name__] *)
Definition type_name (v : json) : string :=
  match v with
  | JNull => "NoneType"
  | JBool _ => "bool"
  | JInt _ => "int"
  | JFloat _ => "float"
  | JStr _ => "str"
  | JList _ => "list"
  | JObj _ => "dict"
  end.

(** [d.get(key)] on a dict kept as an association list. *)
Fixpoint dict_get {A} (key : string) (d : list (string * A)) : option A :=
  match d with
  | [] => None
  | (k, v) :: d' => if String.eqb k key then Some v else dict_get key d'
  end.

(** [d[key] = v]: a present key keeps its position, a new one goes last. *)
Fixpoint dict_set {A} (key : string) (v : A) (d : list (string * A))
  : list (string * A) :=
  match d with
  | [] => [(key, v)]
  | (k, w) :: d' =>
      if String.eqb k key then (k, v) :: d' else (k, w) :: dict_set key v d'
  end.

(** [obj.get(key)], with [None] for a missing key, and [obj.get(key, dflt)]. *)
Definition get (obj : list (string * json)) (key : string) : json :=
  default JNull (dict_get key obj).

Definition get_or (obj : list (string * json)) (key : string) (dflt : json) : json :=
  default dflt (dict_get key obj).

(** [str.isspace] on one character (code points below 256). *)
Definition is_space (a : ascii) : bool :=
  let n := nat_of_ascii a in
  ((9 <=? n) && (n <=? 13) || (28 <=? n) && (n <=? 32)
   || (n =? 133) || (n =? 160))%nat.

Fixpoint lstrip (s : string) : string :=
  match s with
  | EmptyString => EmptyString
  | String a s' => if is_space a then lstrip s' else s
  end.

Definition rstrip (s : string) : string := String.rev (lstrip (String.rev s)).

(** [s.strip()] *)
Definition strip (s : string) : string := rstrip (lstrip s).

(** An instance of [int]: a proper integer or, [bool] being a subclass of
    [int], a boolean. The validators return the object they were given. *)
Inductive pyint :=
| PInt (z : Z)
| PBool (b : bool).

(** The numeric value Python computes with ([True == 1], [False == 0]). *)
Definition int_val (n : pyint) : Z :=
  match n with
  | PInt z => z
  | PBool b => if b then 1 else 0
  end.

Definition pyint_json (n : pyint) : json :=
  match n with
  | PInt z => JInt z
  | PBool b => JBool b
  end.

(** [str(n)] *)
Definition pyint_str (n : pyint) : string :=
  match n with
  | PInt z => pretty z
  | PBool true => "True"
  | PBool false => "False"
  end.

(** ** Response parser ([halligan/runtime/parser.py]) *)

Definition starts_with (p s : string) : bool := String.prefix p s.

(** ASCII lower-casing, as [re.IGNORECASE] needs it for the word [json]. *)
Definition lower (a : ascii) : ascii :=
  let n := nat_of_ascii a in
  if ((65 <=? n) && (n <=? 90))%nat then ascii_of_nat (n + 32) else a.

(** [s] without the prefix [p], compared case-insensitively. *)
Fixpoint drop_prefix_ci (p s : string) : option string :=
  match p, s with
  | EmptyString, _ => Some s
  | String a p', String b s' =>
      if Ascii.eqb (lower a) (lower b) then drop_prefix_ci p' s' else None
  | String _ _, EmptyString => None
  end.

(** The tail [.*?\}\s*```] of [_JSON_FENCE_RE], after the opening brace: the
    text up to and including the first closing brace that is followed by
    optional white space and a fence. *)
Fixpoint fence_close (s : string) : option string :=
  match s with
  | EmptyString => None
  | String c r =>
      if Ascii.eqb c "}" && starts_with "```" (lstrip r)
      then Some (String c EmptyString)
      else option_map (String c) (fence_close r)
  end.

(** [_JSON_FENCE_RE.match] anchored at the start of [s]:
    [```(?:json)?\s*(\{.*?\})\s*```] with DOTALL and IGNORECASE; the result
    is group 1. Every quantifier has one way to succeed at a given start
    (the character after [json], after the white space and after the brace
    is fixed by the next literal), so backtracking is not observable. *)
Definition fence_match_at (s : string) : option string :=
  match drop_prefix_ci "```" s with
  | None => None
  | Some s1 =>
      let s2 := default s1 (drop_prefix_ci "json" s1) in
      match lstrip s2 with
      | String "{" s4 => option_map (String "{") (fence_close s4)
      | _ => None
      end
  end.

(** [_JSON_FENCE_RE.search(raw)]: the leftmost match; [group(1)]. *)
Fixpoint fence_search (s : string) : option string :=
  match fence_match_at s with
  | Some g => Some g
  | None =>
      match s with
      | EmptyString => None
      | String _ s' => fence_search s'
      end
  end.

Fixpoint find_from (c : ascii) (s : string) (i : Z) : Z :=
  match s with
  | EmptyString => -1
  | String a s' => if Ascii.eqb a c then i else find_from c s' (i + 1)
  end.

(** [s.find(c)] *)
Definition find (c : ascii) (s : string) : Z := find_from c s 0.

Fixpoint rfind_from (c : ascii) (s : string) (i last : Z) : Z :=
  match s with
  | EmptyString => last
  | String a s' => rfind_from c s' (i + 1) (if Ascii.eqb a c then i else last)
  end.

(** [s.rfind(c)] *)
Definition rfind (c : ascii) (s : string) : Z := rfind_from c s 0 (-1).

(** [s[start:stop]] for [0 <= start <= stop <= len(s)]. *)
Definition slice (s : string) (start stop : Z) : string :=
  substring (Z.to_nat start) (Z.to_nat (stop - start)) s.

Section Parser.

(** [json.loads] belongs to Python's standard library: it is a parameter
    here. [Raise e] stands for the exception it raised ([JSONDecodeError],
    [RecursionError]), all of them instances of [Exception]. *)
Variable json_loads : string -> result json.

Definition parse_json_from_response (text : option string) : result json :=
  match text with
  | None => Raise (ParseError "Empty response (None)")
  | Some text =>
      let raw := strip text in
      if String.eqb raw "" then Raise (ParseError "Empty response") else
      (* 1) Direct JSON *)
      match json_loads raw with
      | Ok v => Ok v
      | Raise _ =>
          (* 2) ```json ... ``` *)
          match fence_search raw with
          | Some g =>
              let candidate := strip g in
              match json_loads candidate with
              | Ok v => Ok v
              | Raise exc =>
                  Raise (ParseError ("Failed to parse fenced JSON: " +:+ exn_str exc))
              end
          | None =>
              (* 3) Best-effort: first '{' to last '}' *)
              let start := find "{" raw in
              let end_ := rfind "}" raw in
              if negb (Z.eqb start (-1)) && negb (Z.eqb end_ (-1)) && Z.ltb start end_
              then
                let candidate := slice raw start (end_ + 1) in
                match json_loads candidate with
                | Ok v => Ok v
                | Raise exc =>
                    Raise (ParseError ("Failed to parse extracted JSON: " +:+ exn_str exc))
                end
              else Raise (ParseError "No JSON object found in response")
          end
      end
  end.

End Parser.

(** ** A JSON decoder

    [json_decode] follows the grammar that [json.loads] accepts (objects,
    arrays, strings with their escapes, numbers, [true], [false], [null],
    [NaN] and the infinities, white space, nothing after the value). It is
    used to run the parser on concrete texts; the theorems on the parser
    hold for any decoder. Model boundaries: messages carry no position, and
    a [\u] escape above U+00FF, which the text model cannot hold, is
    answered like an invalid escape. *)

Definition DecodeError (msg : string) : exn := PyError "JSONDecodeError" msg.

Definition dquote : ascii := "034"%char.

Definition is_json_ws (a : ascii) : bool :=
  let n := nat_of_ascii a in
  ((n =? 32) || (n =? 9) || (n =? 10) || (n =? 13))%nat.

Fixpoint skip_ws (s : string) : string :=
  match s with
  | EmptyString => EmptyString
  | String a s' => if is_json_ws a then skip_ws s' else s
  end.

Definition is_digit (a : ascii) : bool :=
  let n := nat_of_ascii a in ((48 <=? n) && (n <=? 57))%nat.

(** The longest prefix of digits, and the rest. *)
Fixpoint take_digits (s : string) : string * string :=
  match s with
  | EmptyString => (EmptyString, EmptyString)
  | String a s' =>
      if is_digit a
      then let '(ds, r) := take_digits s' in (String a ds, r)
      else (EmptyString, s)
  end.

Fixpoint digits_val (acc : Z) (ds : string) : Z :=
  match ds with
  | EmptyString => acc
  | String a ds' => digits_val (10 * acc + (Z.of_nat (nat_of_ascii a) - 48)) ds'
  end.

Definition hex_val (a : ascii) : option Z :=
  let n := Z.of_nat (nat_of_ascii a) in
  if (48 <=? n) && (n <=? 57) then Some (n - 48)
  else if (65 <=? n) && (n <=? 70) then Some (n - 55)
  else if (97 <=? n) && (n <=? 102) then Some (n - 87)
  else None.

(** The integer part of [NUMBER_RE], an optional minus sign and then a
    zero or a digit string without leading zero: the matched text and the
    rest. *)
Definition match_integer (s : string) : option (string * string) :=
  let '(sign, s1) :=
    match s with
    | String "-" r => ("-", r)
    | _ => ("", s)
    end in
  match s1 with
  | String "0" r => Some (sign +:+ "0", r)
  | String a _ =>
      if is_digit a
      then let '(ds, r) := take_digits s1 in Some (sign +:+ ds, r)
      else None
  | EmptyString => None
  end.

(** [(\.[0-9]+)?] *)
Definition match_frac (s : string) : string * string :=
  match s with
  | String "." r =>
      match take_digits r with
      | (EmptyString, _) => ("", s)
      | (ds, r') => ("." +:+ ds, r')
      end
  | _ => ("", s)
  end.

(** [([eE][-+]?[0-9]+)?] *)
Definition match_exp (s : string) : string * string :=
  match s with
  | String e r =>
      if Ascii.eqb e "e" || Ascii.eqb e "E" then
        let '(sign, r1) :=
          match r with
          | String "-" r1 => ("-", r1)
          | String "+" r1 => ("+", r1)
          | _ => ("", r)
          end in
        match take_digits r1 with
        | (EmptyString, _) => ("", s)
        | (ds, r') => (String e sign +:+ ds, r')
        end
      else ("", s)
  | EmptyString => ("", s)
  end.

Definition int_of_text (t : string) : Z :=
  match t with
  | String "-" ds => - digits_val 0 ds
  | _ => digits_val 0 t
  end.

(** [match_number] of the scanner: an integer literal is an [int], one with
    a fraction or an exponent a [float]. *)
Definition scan_number (s : string) : option (json * string) :=
  match match_integer s with
  | None => None
  | Some (integer, r) =>
      let '(frac, r1) := match_frac r in
      let '(exp, r2) := match_exp r1 in
      if String.eqb frac "" && String.eqb exp ""
      then Some (JInt (int_of_text integer), r2)
      else Some (JFloat (integer +:+ frac +:+ exp), r2)
  end.

(** [scanstring], strict: the text after the opening quote up to the closing
    one, with escapes resolved, and the rest. *)
Fixpoint scanstring (s : string) : result (string * string) :=
  match s with
  | EmptyString => Raise (DecodeError "Unterminated string starting at")
  | String "\" (String "u" (String h1 (String h2 (String h3 (String h4 r))))) =>
      match hex_val h1, hex_val h2, hex_val h3, hex_val h4 with
      | Some 0, Some 0, Some c, Some d =>
          match scanstring r with
          | Ok (t, r') => Ok (String (ascii_of_nat (Z.to_nat (16 * c + d))) t, r')
          | Raise e => Raise e
          end
      | _, _, _, _ => Raise (DecodeError "Invalid \uXXXX escape")
      end
  | String "\" (String c r) =>
      let esc (a : ascii) :=
        match scanstring r with
        | Ok (t, r') => Ok (String a t, r')
        | Raise e => Raise e
        end in
      if Ascii.eqb c dquote then esc dquote
      else if Ascii.eqb c "\" then esc "\"%char
      else if Ascii.eqb c "/" then esc "/"%char
      else if Ascii.eqb c "b" then esc "008"%char
      else if Ascii.eqb c "f" then esc "012"%char
      else if Ascii.eqb c "n" then esc "010"%char
      else if Ascii.eqb c "r" then esc "013"%char
      else if Ascii.eqb c "t" then esc "009"%char
      else Raise (DecodeError "Invalid \escape")
  | String c r =>
      if Ascii.eqb c dquote then Ok (EmptyString, r)
      else if Ascii.eqb c "\" then Raise (DecodeError "Unterminated string starting at")
      else if (nat_of_ascii c <? 32)%nat
      then Raise (DecodeError "Invalid control character at")
      else
        match scanstring r with
        | Ok (t, r') => Ok (String c t, r')
        | Raise e => Raise e
        end
  end.

(** [scan_once] with the object and array loops of the decoder. [fuel]
    bounds the number of nested calls; [json_decode] gives more than a text
    of its length can use. *)
Fixpoint scan_once (fuel : nat) (s : string) : result (json * string) :=
  match fuel with
  | O => Raise (PyError "RecursionError" "maximum recursion depth exceeded")
  | S fuel' =>
      match s with
      | String "{" r =>
          match skip_ws r with
          | String "}" r' => Ok (JObj [], r')
          | String c r' =>
              if Ascii.eqb c dquote then scan_pairs fuel' r' []
              else Raise (DecodeError "Expecting property name enclosed in double quotes")
          | EmptyString =>
              Raise (DecodeError "Expecting property name enclosed in double quotes")
          end
      | String "[" r =>
          match skip_ws r with
          | String "]" r' => Ok (JList [], r')
          | r' => scan_items fuel' r' []
          end
      | String c r =>
          if Ascii.eqb c dquote then
            match scanstring r with
            | Ok (t, r') => Ok (JStr t, r')
            | Raise e => Raise e
            end
          else if starts_with "null" s then Ok (JNull, slice s 4 (Z.of_nat (String.length s)))
          else if starts_with "true" s then Ok (JBool true, slice s 4 (Z.of_nat (String.length s)))
          else if starts_with "false" s then Ok (JBool false, slice s 5 (Z.of_nat (String.length s)))
          else
            match scan_number s with
            | Some vr => Ok vr
            | None =>
                if starts_with "NaN" s
                then Ok (JFloat "NaN", slice s 3 (Z.of_nat (String.length s)))
                else if starts_with "Infinity" s
                then Ok (JFloat "Infinity", slice s 8 (Z.of_nat (String.length s)))
                else if starts_with "-Infinity" s
                then Ok (JFloat "-Infinity", slice s 9 (Z.of_nat (String.length s)))
                else Raise (DecodeError "Expecting value")
            end
      | EmptyString => Raise (DecodeError "Expecting value")
      end
  end

(** The members of an object, from the first character of a key. *)
with scan_pairs (fuel : nat) (s : string) (pairs : list (string * json))
  : result (json * string) :=
  match fuel with
  | O => Raise (PyError "RecursionError" "maximum recursion depth exceeded")
  | S fuel' =>
      match scanstring s with
      | Raise e => Raise e
      | Ok (key, r1) =>
          match skip_ws r1 with
          | String ":" r2 =>
              match scan_once fuel' (skip_ws r2) with
              | Raise e => Raise e
              | Ok (value, r3) =>
                  let pairs' := dict_set key value pairs in
                  match skip_ws r3 with
                  | String "}" r4 => Ok (JObj pairs', r4)
                  | String "," r4 =>
                      match skip_ws r4 with
                      | String c r5 =>
                          if Ascii.eqb c dquote then scan_pairs fuel' r5 pairs'
                          else Raise (DecodeError "Expecting property name enclosed in double quotes")
                      | EmptyString =>
                          Raise (DecodeError "Expecting property name enclosed in double quotes")
                      end
                  | _ => Raise (DecodeError "Expecting ',' delimiter")
                  end
              end
          | _ => Raise (DecodeError "Expecting ':' delimiter")
          end
      end
  end

(** The items of an array, from the first character of an item. *)
with scan_items (fuel : nat) (s : string) (items : list json)
  : result (json * string) :=
  match fuel with
  | O => Raise (PyError "RecursionError" "maximum recursion depth exceeded")
  | S fuel' =>
      match scan_once fuel' s with
      | Raise e => Raise e
      | Ok (value, r1) =>
          let items' := (items ++ [value])%list in
          match skip_ws r1 with
          | String "]" r2 => Ok (JList items', r2)
          | String "," r2 => scan_items fuel' (skip_ws r2) items'
          | _ => Raise (DecodeError "Expecting ',' delimiter")
          end
      end
  end.

(** [json.loads(s)]: one value, white space around it, nothing else. *)
Definition json_decode (s : string) : result json :=
  match scan_once (2 * String.length s + 2) (skip_ws s) with
  | Raise e => Raise e
  | Ok (v, r) =>
      if String.eqb (skip_ws r) "" then Ok v
      else Raise (DecodeError "Extra data")
  end.

(** Writes a text with single quotes standing for double quotes. *)
Fixpoint dq (s : string) : string :=
  match s with
  | EmptyString => EmptyString
  | String c r => String (if Ascii.eqb c "'" then dquote else c) (dq r)
  end.

(** ** Schema validators ([halligan/runtime/schemas.py]) *)

(** [repr(s)] for a string of printable characters without quotes or
    backslashes, and [repr] of a list of such strings. *)
Definition repr_str (s : string) : string := "'" +:+ s +:+ "'".

Fixpoint join (sep : string) (l : list string) : string :=
  match l with
  | [] => ""
  | [x] => x
  | x :: l' => x +:+ sep +:+ join sep l'
  end.

Definition repr_list (l : list string) : string :=
  "[" +:+ join ", " (map repr_str l) +:+ "]".

(** [sorted(allowed)] *)
Definition sorted (allowed : gset string) : list string :=
  merge_sort (fun a b => Is_true (String.leb a b)) (elements allowed).

Definition _require_dict (value : json) (path : string)
  : result (list (string * json)) :=
  match value with
  | JObj obj => Ok obj
  | _ => Raise (ValidationError
                  ("Expected object at " +:+ path +:+ ", got " +:+ type_name value))
  end.

Definition _require_list (value : json) (path : string) : result (list json) :=
  match value with
  | JList l => Ok l
  | _ => Raise (ValidationError
                  ("Expected array at " +:+ path +:+ ", got " +:+ type_name value))
  end.

Definition _require_str (value : json) (path : string) : result string :=
  match value with
  | JStr s => Ok s
  | _ => Raise (ValidationError
                  ("Expected string at " +:+ path +:+ ", got " +:+ type_name value))
  end.

(** [isinstance(value, int)] holds for [int] and for [bool]. *)
Definition _require_int (value : json) (path : string) : result pyint :=
  match value with
  | JInt z => Ok (PInt z)
  | JBool b => Ok (PBool b)
  | _ => Raise (ValidationError
                  ("Expected integer at " +:+ path +:+ ", got " +:+ type_name value))
  end.

Definition _require_bool (value : json) (path : string) : result bool :=
  match value with
  | JBool b => Ok b
  | _ => Raise (ValidationError
                  ("Expected boolean at " +:+ path +:+ ", got " +:+ type_name value))
  end.

Definition _require_one_of (value : string) (allowed : gset string) (path : string)
  : result string :=
  if bool_decide (value ∈ allowed) then Ok value
  else Raise (ValidationError
                ("Invalid value at " +:+ path +:+ ": " +:+ repr_str value
                 +:+ ". Allowed: " +:+ repr_list (sorted allowed))).

Definition _require_optional_int (value : json) (path : string)
  : result (option pyint) :=
  match value with
  | JNull => Ok None
  | _ => bind (_require_int value path) (fun n => Ok (Some n))
  end.

Record Stage1Relation := {
  src : pyint;
  dst : option pyint;
  relationship : string;
}.

Record Stage1Result := {
  descriptions : list string;
  relations : list Stage1Relation;
  objective : string;
}.

(** [0 <= n < frames] *)
Definition in_range (n : pyint) (frames : Z) : bool :=
  (0 <=? int_val n) && (int_val n <? frames).

Definition idx (prefix : string) (i : nat) : string :=
  prefix +:+ "[" +:+ pretty i +:+ "]".

(** The loop over [enumerate(descriptions)], from index [i]. *)
Fixpoint stage1_descriptions (i : nat) (ds : list json) : result (list string) :=
  match ds with
  | [] => Ok []
  | d :: ds' =>
      (s <- _require_str d (idx "$.descriptions" i) ;;
       rest <- stage1_descriptions (S i) ds' ;;
       Ok (strip s :: rest))%result
  end.

(** The loop over [enumerate(relations_raw)], from index [i]. *)
Fixpoint stage1_relations (frames : Z) (i : nat) (rels : list json)
  : result (list Stage1Relation) :=
  match rels with
  | [] => Ok []
  | rel :: rels' =>
      let at_ := idx "$.relations" i in
      (rel_obj <- _require_dict rel at_ ;;
       src <- _require_int (get rel_obj "from") (at_ +:+ ".from") ;;
       dst <- _require_optional_int (get rel_obj "to") (at_ +:+ ".to") ;;
       rs <- _require_str (get_or rel_obj "relationship" (JStr ""))
                          (at_ +:+ ".relationship") ;;
       let relationship := strip rs in
       if negb (in_range src frames)
       then Raise (ValidationError (at_ +:+ ".from out of range: " +:+ pyint_str src))
       else
         match dst with
         | Some d =>
             if negb (in_range d frames)
             then Raise (ValidationError (at_ +:+ ".to out of range: " +:+ pyint_str d))
             else
               rest <- stage1_relations frames (S i) rels' ;;
               Ok ({| src := src; dst := dst; relationship := relationship |} :: rest)
         | None =>
             rest <- stage1_relations frames (S i) rels' ;;
             Ok ({| src := src; dst := dst; relationship := relationship |} :: rest)
         end)%result
  end.

Definition validate_stage1 (data : json) (frames : Z) : result Stage1Result :=
  (obj <- _require_dict data "$" ;;
   descriptions <- _require_list (get obj "descriptions") "$.descriptions" ;;
   if negb (Z.of_nat (length descriptions) =? frames)
   then Raise (ValidationError
                 ("$.descriptions length mismatch: expected " +:+ pretty frames
                  +:+ ", got " +:+ pretty (length descriptions)))
   else
     desc_out <- stage1_descriptions 0 descriptions ;;
     relations_raw <- _require_list (get_or obj "relations" (JList [])) "$.relations" ;;
     rel_out <- stage1_relations frames 0 relations_raw ;;
     o <- _require_str (get obj "objective") "$.objective" ;;
     let objective := strip o in
     if String.eqb objective ""
     then Raise (ValidationError "$.objective must be non-empty")
     else Ok {| descriptions := desc_out; relations := rel_out;
                objective := objective |})%result.

Record Stage2Action := {
  type : string;
  payload : list (string * json);
}.

Record Stage2Plan := {
  actions : list Stage2Action;
}.

Definition _POSITIONS : gset string :=
  {[ "up"; "down"; "left"; "right"; "all" ]}.

Definition stage2_types : gset string :=
  {[ "set_frame"; "split_frame"; "grid_frame"; "get_element" ]}.

Section Stage2Schema.

(** The member names of the enumerations [InteractableFrame] and
    [InteractableElement] of [halligan.utils.constants], a module that is
    not among the sources: parameters of the validator. *)
Variable _FRAME_INTERACTABLES : gset string.
Variable _ELEMENT_INTERACTABLES : gset string.

(** The body of the loop of [validate_stage2] for item [i]. *)
Definition stage2_action (frames : Z) (i : nat) (item : json) : result Stage2Action :=
  let at_ := idx "$.actions" i in
  (action_obj <- _require_dict item at_ ;;
   t <- _require_str (get action_obj "type") (at_ +:+ ".type") ;;
   action_type <- _require_one_of t stage2_types (at_ +:+ ".type") ;;
   frame_id <- _require_int (get action_obj "frame") (at_ +:+ ".frame") ;;
   if negb (in_range frame_id frames)
   then Raise (ValidationError (at_ +:+ ".frame out of range: " +:+ pyint_str frame_id))
   else if String.eqb action_type "set_frame" then
     interactable <- _require_str (get action_obj "interactable") (at_ +:+ ".interactable") ;;
     _require_one_of interactable _FRAME_INTERACTABLES (at_ +:+ ".interactable") ;;;
     Ok {| type := "set_frame";
           payload := [("frame", pyint_json frame_id);
                       ("interactable", JStr interactable)] |}
   else if String.eqb action_type "split_frame" then
     rows <- _require_int (get action_obj "rows") (at_ +:+ ".rows") ;;
     columns <- _require_int (get action_obj "columns") (at_ +:+ ".columns") ;;
     mark_as <- _require_str (get action_obj "mark_as") (at_ +:+ ".mark_as") ;;
     _require_one_of mark_as _FRAME_INTERACTABLES (at_ +:+ ".mark_as") ;;;
     if (int_val rows <=? 0) || (int_val columns <=? 0)
     then Raise (ValidationError (at_ +:+ " rows/columns must be positive"))
     else Ok {| type := "split_frame";
                payload := [("frame", pyint_json frame_id);
                            ("rows", pyint_json rows);
                            ("columns", pyint_json columns);
                            ("mark_as", JStr mark_as)] |}
   else if String.eqb action_type "grid_frame" then
     tiles <- _require_int (get action_obj "tiles") (at_ +:+ ".tiles") ;;
     mark_as <- _require_str (get action_obj "mark_as") (at_ +:+ ".mark_as") ;;
     _require_one_of mark_as _ELEMENT_INTERACTABLES (at_ +:+ ".mark_as") ;;;
     if int_val tiles <=? 0
     then Raise (ValidationError (at_ +:+ ".tiles must be positive"))
     else Ok {| type := "grid_frame";
                payload := [("frame", pyint_json frame_id);
                            ("tiles", pyint_json tiles);
                            ("mark_as", JStr mark_as)] |}
   else if String.eqb action_type "get_element" then
     position <- _require_str (get action_obj "position") (at_ +:+ ".position") ;;
     _require_one_of position _POSITIONS (at_ +:+ ".position") ;;;
     d <- _require_str (get action_obj "details") (at_ +:+ ".details") ;;
     let details := strip d in
     if String.eqb details ""
     then Raise (ValidationError (at_ +:+ ".details must be non-empty"))
     else
       mark_as <- _require_str (get action_obj "mark_as") (at_ +:+ ".mark_as") ;;
       _require_one_of mark_as _ELEMENT_INTERACTABLES (at_ +:+ ".mark_as") ;;;
       Ok {| type := "get_element";
             payload := [("frame", pyint_json frame_id);
                         ("position", JStr position);
                         ("details", JStr details);
                         ("mark_as", JStr mark_as)] |}
   else Raise (ValidationError
                 ("Unknown action type at " +:+ at_ +:+ ".type: " +:+ action_type)))%result.

(** The loop over [enumerate(actions_raw)], from index [i]. *)
Fixpoint stage2_actions (frames : Z) (i : nat) (items : list json)
  : result (list Stage2Action) :=
  match items with
  | [] => Ok []
  | item :: items' =>
      (a <- stage2_action frames i item ;;
       rest <- stage2_actions frames (S i) items' ;;
       Ok (a :: rest))%result
  end.

Definition validate_stage2 (data : json) (frames : Z) : result Stage2Plan :=
  (obj <- _require_dict data "$" ;;
   actions_raw <- _require_list (get obj "actions") "$.actions" ;;
   actions <- stage2_actions frames 0 actions_raw ;;
   Ok {| actions := actions |})%result.

End Stage2Schema.

Record Stage3Program := {
  steps : list json;
}.

(** The loop over [enumerate(steps)], from index [i]. *)
Fixpoint stage3_steps (i : nat) (steps : list json) : result unit :=
  match steps with
  | [] => Ok tt
  | step :: steps' =>
      (o <- _require_dict step (idx "$.steps" i) ;;
       _require_str (get o "op") (idx "$.steps" i +:+ ".op") ;;;
       stage3_steps (S i) steps')%result
  end.

Definition validate_stage3 (data : json) : result Stage3Program :=
  (obj <- _require_dict data "$" ;;
   steps <- _require_list (get obj "steps") "$.steps" ;;
   stage3_steps 0 steps ;;;
   Ok {| steps := steps |})%result.

(** ** Runtime configuration ([halligan/runtime/config.py]) *)

(** [str.lower] on one character (code points below 256). *)
Definition py_lower_char (a : ascii) : ascii :=
  let n := nat_of_ascii a in
  if ((65 <=? n) && (n <=? 90) || (192 <=? n) && (n <=? 222) && negb (n =? 215))%nat
  then ascii_of_nat (n + 32) else a.

Fixpoint py_lower (s : string) : string :=
  match s with
  | EmptyString => EmptyString
  | String a s' => String (py_lower_char a) (py_lower s')
  end.

(** Truthiness of an optional string: [None] and [""] are false. *)
Definition truthy_str (s : option string) : bool :=
  match s with
  | None => false
  | Some s => negb (String.eqb s "")
  end.

Definition _DEFAULT_ALLOWED_BENCHMARK_HOSTS : gset string :=
  {[ "localhost"; "127.0.0.1"; "0.0.0.0"; "host.docker.internal" ]}.

Definition http_schemes : gset string := {[ "http"; "https" ]}.

Record RuntimeConfig := {
  openai_api_key : option string;
  browser_url : option string;
  benchmark_url : option string;
  benchmark_http_url : option string;
  allow_nonlocal_benchmark : bool;
}.

Definition allow_words : gset string := {[ "1"; "true"; "True"; "yes"; "YES" ]}.

(** [RuntimeConfig.from_env], the environment being a finite map. *)
Definition from_env (environ : gmap string string) : RuntimeConfig :=
  let allow_nonlocal := strip (default "" (environ !! "HALLIGAN_ALLOW_NONLOCAL_BENCHMARK")) in
  let allow_nonlocal :=
    if String.eqb allow_nonlocal ""
    then strip (default "" (environ !! "ALLOW_NONLOCAL_BENCHMARK"))
    else allow_nonlocal in
  let benchmark_url := environ !! "BENCHMARK_URL" in
  let benchmark_http_url :=
    match environ !! "BENCHMARK_HTTP_URL" with
    | Some u => Some u
    | None => benchmark_url
    end in
  {| openai_api_key := environ !! "OPENAI_API_KEY";
     browser_url := environ !! "BROWSER_URL";
     benchmark_url := benchmark_url;
     benchmark_http_url := benchmark_http_url;
     allow_nonlocal_benchmark := bool_decide (allow_nonlocal ∈ allow_words) |}.

Definition nl : string := String "010"%char EmptyString.

(** The text of the [UnsafeTargetError] of [validate], for the variable
    [name] holding [url]. *)
Definition nonlocal_message (name url : string) : string :=
  "Detected non-local `" +:+ name
  +:+ "`. For safety, Halligan only allows local benchmark endpoints by default."
  +:+ nl +:+ "- Current: " +:+ repr_str url +:+ nl
  +:+ "- To override intentionally, set `HALLIGAN_ALLOW_NONLOCAL_BENCHMARK=1`.".

Section Config.

(** [urllib.parse.urlparse] belongs to Python's standard library: a
    parameter. The result holds what the gate reads, [parsed.scheme] and
    [parsed.hostname]; [Raise] is the [ValueError] of a malformed URL. *)
Variable urlparse : string -> result (string * option string).

Definition _is_local_http_url (url : string) : bool :=
  match urlparse url with
  | Raise _ => false
  | Ok (scheme, hostname) =>
      if negb (bool_decide (scheme ∈ http_schemes)) then false
      else
        let host := py_lower (strip (default "" hostname)) in
        bool_decide (host ∈ _DEFAULT_ALLOWED_BENCHMARK_HOSTS)
  end.

Definition validate (self : RuntimeConfig) : result unit :=
  ((if truthy_str (benchmark_url self) && negb (allow_nonlocal_benchmark self)
    then
      if negb (_is_local_http_url (default "" (benchmark_url self)))
      then Raise (UnsafeTargetError
                    (nonlocal_message "BENCHMARK_URL"
                       (default "" (benchmark_url self))))
      else Ok tt
    else Ok tt) ;;;
   (if truthy_str (benchmark_http_url self) && negb (allow_nonlocal_benchmark self)
    then
      if negb (_is_local_http_url (default "" (benchmark_http_url self)))
      then Raise (UnsafeTargetError
                    (nonlocal_message "BENCHMARK_HTTP_URL"
                       (default "" (benchmark_http_url self))))
      else Ok tt
    else Ok tt))%result.

(** [RuntimeConfig.require(browser=, benchmark=, openai=)] *)
Definition require (self : RuntimeConfig) (browser benchmark openai : bool)
  : result unit :=
  let missing :=
    ((if browser && negb (truthy_str (browser_url self)) then ["BROWSER_URL"] else [])
     ++ (if benchmark && negb (truthy_str (benchmark_url self)) then ["BENCHMARK_URL"] else [])
     ++ (if openai && negb (truthy_str (openai_api_key self)) then ["OPENAI_API_KEY"] else []))%list in
  match missing with
  | [] => Ok tt
  | _ => Raise (ConfigError
                  ("Missing required environment variables: " +:+ join ", " missing))
  end.

End Config.

(** A reading of [urlparse] for URLs of the shape
    [scheme://userinfo@host:port/path] without bracketed hosts, used to run
    the gate on concrete URLs; the theorems hold for any [urlparse]. *)
Definition is_scheme_char (a : ascii) : bool :=
  let n := nat_of_ascii a in
  ((65 <=? n) && (n <=? 90) || (97 <=? n) && (n <=? 122) || (48 <=? n) && (n <=? 57)
   || (n =? 43) || (n =? 45) || (n =? 46))%nat.

Definition is_alpha (a : ascii) : bool :=
  let n := nat_of_ascii a in
  ((65 <=? n) && (n <=? 90) || (97 <=? n) && (n <=? 122))%nat.

Fixpoint all_chars (p : ascii -> bool) (s : string) : bool :=
  match s with
  | EmptyString => true
  | String a s' => p a && all_chars p s'
  end.

(** The text before the first character satisfying [p], and the text from it. *)
Fixpoint span_until (p : ascii -> bool) (s : string) : string * string :=
  match s with
  | EmptyString => (EmptyString, EmptyString)
  | String a s' =>
      if p a then (EmptyString, s)
      else let '(l, r) := span_until p s' in (String a l, r)
  end.

Definition urlparse_plain (url : string) : result (string * option string) :=
  let i := find ":" url in
  let '(scheme, rest) :=
    if (0 <? i) && all_chars is_scheme_char (slice url 0 i)
       && match url with String a _ => is_alpha a | EmptyString => false end
    then (py_lower (slice url 0 i), slice url (i + 1) (Z.of_nat (String.length url)))
    else (""%string, url) in
  if starts_with "//" rest then
    let after := slice rest 2 (Z.of_nat (String.length rest)) in
    let '(netloc, _) :=
      span_until (fun a => Ascii.eqb a "/" || Ascii.eqb a "?" || Ascii.eqb a "#") after in
    if negb (Z.eqb (find "[" netloc) (-1)) || negb (Z.eqb (find "]" netloc) (-1))
    then Raise (PyError "ValueError" "Invalid IPv6 URL")
    else
      let at_ := rfind "@" netloc in
      let hostinfo := slice netloc (at_ + 1) (Z.of_nat (String.length netloc)) in
      let '(hostname, _) := span_until (fun a => Ascii.eqb a ":") hostinfo in
      Ok (scheme, if String.eqb hostname "" then None else Some (py_lower hostname))
  else Ok (scheme, None).

(** ** Code that mutates: state passing with exceptions

    [M S A] is a computation on a mutable state [S] that returns an [A] or
    raises; the state it returns is the one reached at that point: Python
    does not undo mutations when an exception propagates. *)

Definition M (S A : Type) : Type := S -> result A * S.

Definition ret {S A} (a : A) : M S A := fun s => (Ok a, s).

Definition raise {S A} (e : exn) : M S A := fun s => (Raise e, s).

Definition mbind {S A B} (c : M S A) (k : A -> M S B) : M S B :=
  fun s =>
    match c s with
    | (Ok a, s') => k a s'
    | (Raise e, s') => (Raise e, s')
    end.

(** A pure computation that may raise. *)
Definition lift {S A} (r : result A) : M S A := fun s => (r, s).

Definition get_state {S} : M S S := fun s => (Ok s, s).

Definition modify {S} (f : S -> S) : M S unit := fun s => (Ok tt, f s).

(** [try: c except <handles> as exc: h exc]; other exceptions propagate. *)
Definition try_except {S A} (c : M S A) (handles : exn -> bool) (h : exn -> M S A)
  : M S A :=
  fun s =>
    match c s with
    | (Ok a, s') => (Ok a, s')
    | (Raise e, s') => if handles e then h e s' else (Raise e, s')
    end.

Declare Scope M_scope.
Delimit Scope M_scope with M.
Notation "x <- c1 ;; c2" := (mbind c1 (fun x => c2))
  (at level 100, c1 at next level, right associativity) : M_scope.
Notation "c1 ;;; c2" := (mbind c1 (fun _ => c2))
  (at level 100, right associativity) : M_scope.

(** [for x in l: body x], stopping at the first exception. *)
Fixpoint for_each {S A} (l : list A) (body : A -> M S unit) : M S unit :=
  match l with
  | [] => ret tt
  | x :: l' => (body x ;;; for_each l' body)%M
  end.

(** [l[i]] on a list: a negative index counts from the end; [None] is
    Python's [IndexError]. *)
Definition py_index (len : nat) (i : Z) : option nat :=
  if (0 <=? i) && (i <? Z.of_nat len) then Some (Z.to_nat i)
  else if (- Z.of_nat len <=? i) && (i <? 0) then Some (Z.to_nat (Z.of_nat len + i))
  else None.

(** [d[key]] on a dict: [KeyError] for a missing key. *)
Definition dict_item {A} (d : list (string * A)) (key : string) : result A :=
  match dict_get key d with
  | Some v => Ok v
  | None => Raise (PyError "KeyError" (repr_str key))
  end.

(** ** Frames (interface of [halligan.utils.layout]) *)

Module Element.
Record t := mk {
  interactable : option string;
}.
End Element.

Module Frame.
Inductive t := mk {
  description : option string;
  relations : list (option Z * string);
  interactable : option string;
  interactables : list Element.t;
  subframes : list t;
}.
End Frame.

(** A frame as the session creates it: no tag, no elements, no subframes. *)
Definition blank_frame : Frame.t :=
  Frame.mk None [] None [] [].

Fixpoint frame_size (f : Frame.t) : nat :=
  S (list_sum (map frame_size (Frame.subframes f))).

Definition forest_size (q : list Frame.t) : nat := list_sum (map frame_size q).

(** Modelled from the spec: the methods of the classes [Frame] and
    [Element] of [halligan.utils.layout], a module that is not among the
    sources. They follow sections 3 and 4.4 of the specification and the
    stand-ins [DummyFrame] and [DummyElement] of [tests/test_executor.py]:
    [set_frame_as] stores the tag, [split] replaces the subframes by
    [rows * columns] fresh frames and returns them, [grid] and [get_element]
    return fresh elements of the frame, and [set_element_as] stores the tag
    and appends the element to its parent's [interactables]. A returned
    subframe is the object held in [subframes], so it is named by its
    position there; a returned element is not held by the frame until it is
    tagged. *)
Definition set_frame_as (self : Frame.t) (interactable : string) : Frame.t :=
  Frame.mk (Frame.description self) (Frame.relations self) (Some interactable)
           (Frame.interactables self) (Frame.subframes self).

Definition split (self : Frame.t) (rows columns : Z) : Frame.t * list nat :=
  let n := Z.to_nat (rows * columns) in
  (Frame.mk (Frame.description self) (Frame.relations self) (Frame.interactable self)
            (Frame.interactables self) (replicate n blank_frame),
   seq 0 n).

Definition grid (self : Frame.t) (tiles : Z) : list (list Element.t) :=
  [replicate (Z.to_nat tiles) (Element.mk None)].

Definition get_element (self : Frame.t) (position details : string) : Element.t :=
  Element.mk None.

(** [element.set_element_as(interactable)], on the parent of [element]. *)
Definition set_element_as (element : Element.t) (interactable : string)
    (parent : Frame.t) : Frame.t :=
  Frame.mk (Frame.description parent) (Frame.relations parent)
           (Frame.interactable parent)
           (Frame.interactables parent ++ [Element.mk (Some interactable)])
           (Frame.subframes parent).

(** [subframes[j].set_frame_as(interactable)], on the frame holding them. *)
Definition set_subframe_as (j : nat) (interactable : string) (self : Frame.t)
  : Frame.t :=
  Frame.mk (Frame.description self) (Frame.relations self) (Frame.interactable self)
           (Frame.interactables self)
           (alter (fun sub => set_frame_as sub interactable) j (Frame.subframes self)).

(** ** Stage-2 applier ([halligan/runtime/executor.py]) *)

(** One tag seen by the walk: a falsy tag ([None] or the empty string) is
    skipped. *)
Definition note_tag (tag : option string) (acc : gset string * Z) : gset string * Z :=
  match tag with
  | Some t =>
      if String.eqb t "" then acc
      else ({[ t ]} ∪ acc.1, if String.eqb t "NEXT" then acc.2 + 1 else acc.2)
  | None => acc
  end.

(** The body of the [while] loop for one frame, up to the elements. *)
Definition visit_frame (frame : Frame.t) (acc : gset string * Z) : gset string * Z :=
  fold_left (fun acc el => note_tag (Element.interactable el) acc)
            (Frame.interactables frame)
            (note_tag (Frame.interactable frame) acc).

(** The [while queue:] loop of [_collect_interactables]. *)
Equations collect_loop (queue : list Frame.t) (acc : gset string * Z)
  : gset string * Z by wf (forest_size queue) lt :=
  collect_loop [] acc := acc;
  collect_loop (frame :: queue) acc :=
    collect_loop (queue ++ Frame.subframes frame) (visit_frame frame acc).
Next Obligation.
  unfold forest_size. rewrite map_app, list_sum_app.
  destruct frame; simpl. lia.
Qed.

Definition _collect_interactables (frames : list Frame.t) : gset string * Z :=
  collect_loop frames (∅, 0).

(** A value of the payload passed where a method takes a tag or a text:
    the modelled methods take strings, anything else is a [TypeError]. *)
Definition str_arg (v : json) : result string :=
  match v with
  | JStr s => Ok s
  | _ => Raise (PyError "TypeError" ("expected str, got " +:+ type_name v))
  end.

(** A value of the payload passed where a method takes a count. *)
Definition int_arg (v : json) : result Z :=
  match v with
  | JInt z => Ok z
  | JBool b => Ok (int_val (PBool b))
  | _ => Raise (PyError "TypeError" ("expected int, got " +:+ type_name v))
  end.

(** [payload[key]] as the one argument of a call: the lookup, then the
    method's own reading of the value. *)
Definition payload_str (payload : list (string * json)) (key : string) : result string :=
  bind (dict_item payload key) str_arg.

Definition payload_int (payload : list (string * json)) (key : string) : result Z :=
  bind (dict_item payload key) int_arg.

(** [frames[frame_id]]: the position of the frame object in [frames]. *)
Definition frame_at (frame_id : json) : M (list Frame.t) nat :=
  fun frames =>
    match frame_id with
    | JInt _ | JBool _ =>
        let i := match frame_id with
                 | JInt z => z
                 | JBool b => int_val (PBool b)
                 | _ => 0
                 end in
        match py_index (length frames) i with
        | Some k => (Ok k, frames)
        | None => (Raise (PyError "IndexError" "list index out of range"), frames)
        end
    | _ => (Raise (PyError "TypeError"
                     ("list indices must be integers or slices, not "
                      +:+ type_name frame_id)), frames)
    end.

(** The frame object at position [k], as it is now. *)
Definition frame_object (k : nat) : M (list Frame.t) Frame.t :=
  fun frames => (Ok (default blank_frame (frames !! k)), frames).

(** A method call that mutates the frame at position [k]. *)
Definition on_frame (k : nat) (f : Frame.t -> Frame.t) : M (list Frame.t) unit :=
  modify (alter f k).

(** The body of the loop of [apply_stage2_plan] for one action. *)
Definition apply_action (action : Stage2Action) : M (list Frame.t) unit :=
  let payload := payload action in
  (frame_id <- lift (dict_item payload "frame") ;;
   k <- frame_at frame_id ;;
   if String.eqb (type action) "set_frame" then
     tag <- lift (payload_str payload "interactable") ;;
     on_frame k (fun frame => set_frame_as frame tag)
   else if String.eqb (type action) "split_frame" then
     rows <- lift (dict_item payload "rows") ;;
     columns <- lift (dict_item payload "columns") ;;
     rows <- lift (int_arg rows) ;;
     columns <- lift (int_arg columns) ;;
     on_frame k (fun frame => (split frame rows columns).1) ;;;
     for_each (seq 0 (Z.to_nat (rows * columns))) (fun j =>
       tag <- lift (payload_str payload "mark_as") ;;
       on_frame k (set_subframe_as j tag))
   else if String.eqb (type action) "grid_frame" then
     tiles <- lift (payload_int payload "tiles") ;;
     frame <- frame_object k ;;
     for_each (grid frame tiles) (fun row =>
       for_each row (fun element =>
         tag <- lift (payload_str payload "mark_as") ;;
         on_frame k (set_element_as element tag)))
   else if String.eqb (type action) "get_element" then
     position <- lift (dict_item payload "position") ;;
     details <- lift (dict_item payload "details") ;;
     position <- lift (str_arg position) ;;
     details <- lift (str_arg details) ;;
     frame <- frame_object k ;;
     let element := get_element frame position details in
     tag <- lift (payload_str payload "mark_as") ;;
     on_frame k (set_element_as element tag)
   else raise (ValidationError ("Unknown Stage 2 action: " +:+ type action)))%M.

(** The check that ends [apply_stage2_plan]. *)
Definition post_validate : M (list Frame.t) unit :=
  (frames <- get_state ;;
   let '(types, next_count) := _collect_interactables frames in
   let non_next : gset string := filter (fun t => t <> "NEXT") types in
   if negb (Nat.eqb (size non_next) 1) then
     raise (ValidationError
              ("Stage 2 must result in exactly one non-NEXT interactable type (found: "
               +:+ repr_list (sorted non_next) +:+ ")"))
   else if 1 <? next_count then
     raise (ValidationError "Stage 2 must have at most one NEXT interactable")
   else ret tt)%M.

Definition apply_stage2_plan (frames : list Frame.t) (plan : Stage2Plan)
  : result unit * list Frame.t :=
  (for_each (actions plan) apply_action ;;;
   post_validate)%M frames.

(** ** Stage-3 interpreter ([halligan/runtime/executor.py],
    [halligan/runtime/registry.py]) *)

(** A Python object at run time: the JSON atoms and lists the program
    writes and computes, and any other object ([Frame], [Point], the choice
    classes, a function, whatever a tool returns) as its class name and
    identity. *)
Inductive value :=
| VNone
| VBool (b : bool)
| VInt (z : Z)
| VFloat (repr : string)
| VStr (s : string)
| VList (l : list value)
| VObj (cls : string) (oid : N).

Definition _class_name (obj : value) : string :=
  match obj with
  | VNone => "NoneType"
  | VBool _ => "bool"
  | VInt _ => "int"
  | VFloat _ => "float"
  | VStr _ => "str"
  | VList _ => "list"
  | VObj cls _ => cls
  end.

Definition _ALLOWED_METHODS : gmap string (gset string) :=
  {[ "Frame" := {[ "show_keypoints"; "get_keypoint"; "get_interactable" ]};
     "Point" := {[ "show_neighbours"; "get_neighbour" ]};
     "SelectChoice" := {[ "select" ]};
     "SlideChoice" := {[ "refine"; "release" ]};
     "SwapChoice" := {[ "swap" ]};
     "DragChoice" := {[ "drop" ]};
     "Choice" := {[ "release" ]} ]}.

Module ToolRegistry.
Record ToolSpec := {
  name : string;
  fn : value;
}.
Record t := mk {
  _tools : gmap string ToolSpec;
}.
Definition init : t := mk ∅.
Definition register (self : t) (name : string) (fn : value) : t :=
  mk (<[ name := {| name := name; fn := fn |} ]> (_tools self)).
Definition get (self : t) (name : string) : option ToolSpec :=
  _tools self !! name.
Definition names (self : t) : list string :=
  merge_sort (fun a b => Is_true (String.leb a b)) (elements (dom (_tools self))).
End ToolRegistry.

(** What the interpreter asks of the outside, in the order it asks. The
    theorems read the trace; the code does not. *)
Inductive event :=
| EvTool (tool_name : string)
| EvMethod (cls method : string)
| EvGetattr (name : string)
| EvSelector (cls method : string).

(** The nesting depth of a JSON value. *)
Fixpoint json_depth (j : json) : nat :=
  match j with
  | JList l => S (list_max (map json_depth l))
  | JObj o => S (list_max (map (fun kv => json_depth (snd kv)) o))
  | _ => O
  end.

Section Stage3.

(** The world outside the interpreter: the browser, the model behind the
    vision tools, the objects the tools hand out. The tools and the methods
    of those objects are opaque callables; their behaviour is a parameter. *)
Variable W : Type.

(** [getattr(obj, name)] *)
Variable getattr_ : value -> string -> W -> result value * W.

(** [f( *args, **kwargs)] for a callable object [f]. *)
Variable call_ : value -> list value -> list (string * value) -> W -> result value * W.

(** [list(obj)] for an object that is not a list or a string. *)
Variable iter_ : value -> W -> result (list value) * W.

(** [sum(l)] when [l] is not a list of integers (float addition, other
    objects), and [bool(obj)] for floats and other objects. *)
Variable sum_ : value -> result value.
Variable truth_ : value -> bool.

Record state := {
  env : list (string * value);
  world : W;
  trace : list event;
}.

Definition emit (ev : event) : M state unit :=
  modify (fun st => {| env := env st; world := world st; trace := trace st ++ [ev] |}).

(** Runs a request to the outside on the current world. *)
Definition ask {A} (f : W -> result A * W) : M state A :=
  fun st =>
    let '(r, w) := f (world st) in
    (r, {| env := env st; world := w; trace := trace st |}).

(** [env[name] = v] *)
Definition env_set (name : string) (v : value) : M state unit :=
  modify (fun st => {| env := dict_set name v (env st); world := world st;
                       trace := trace st |}).

(** [obj.method( *args)] *)
Definition invoke (obj : value) (method : string) (args : list value) : M state value :=
  (m <- ask (getattr_ obj method) ;;
   ask (call_ m args []))%M.

(** [hasattr(obj, name)]: only an [AttributeError] means no. *)
Definition hasattr (obj : value) (name : string) : M state bool :=
  try_except (mbind (ask (getattr_ obj name)) (fun _ => ret true))
    (fun e => match e with
              | PyError cls _ => String.eqb cls "AttributeError"
              | _ => false
              end)
    (fun _ => ret false).

(** A JSON atom as the object it is. *)
Definition atom (j : json) : value :=
  match j with
  | JBool b => VBool b
  | JInt z => VInt z
  | JFloat r => VFloat r
  | JStr s => VStr s
  | _ => VNone
  end.

(** [isinstance(j, int)] on a JSON value, with the integer it counts as. *)
Definition as_int (j : json) : option Z :=
  match j with
  | JInt z => Some z
  | JBool b => Some (int_val (PBool b))
  | _ => None
  end.

Definition value_as_int (v : value) : option Z :=
  match v with
  | VInt z => Some z
  | VBool b => Some (int_val (PBool b))
  | _ => None
  end.

(** [str(j)] where a message shows an id. *)
Definition show (j : json) : string :=
  match j with
  | JNull => "None"
  | JBool true => "True"
  | JBool false => "False"
  | JInt z => pretty z
  | JFloat r => r
  | JStr s => s
  | JList _ => "[...]"
  | JObj _ => "{...}"
  end.

(** [repr(j)] in a message: a string comes quoted. *)
Definition show_repr (j : json) : string :=
  match j with
  | JStr s => repr_str s
  | _ => show j
  end.

Fixpoint map_m {A B} (f : A -> M state B) (l : list A) : M state (list B) :=
  match l with
  | [] => ret []
  | x :: l' => (y <- f x ;; ys <- map_m f l' ;; ret (y :: ys))%M
  end.

(** [for item in items] materialised. *)
Definition iterate (items : value) : M state (list value) :=
  match items with
  | VList l => ret l
  | VStr s => ret (map (fun a => VStr (String a EmptyString)) (list_ascii_of_string s))
  | VObj _ _ => ask (iter_ items)
  | _ => raise (PyError "TypeError" ("'" +:+ _class_name items +:+ "' object is not iterable"))
  end.

(** [lst[idx]] *)
Definition subscript (lst : value) (i : Z) (idx : value) : M state value :=
  match lst with
  | VList l =>
      match py_index (length l) i with
      | Some k => ret (default VNone (l !! k))
      | None => raise (PyError "IndexError" "list index out of range")
      end
  | VStr s =>
      match py_index (String.length s) i with
      | Some k => ret (VStr (substring k 1 s))
      | None => raise (PyError "IndexError" "string index out of range")
      end
  | VObj _ _ => invoke lst "__getitem__" [idx]
  | _ => raise (PyError "TypeError" ("'" +:+ _class_name lst +:+ "' object is not subscriptable"))
  end.

(** [len(value)] *)
Definition py_len (v : value) : M state value :=
  match v with
  | VList l => ret (VInt (Z.of_nat (length l)))
  | VStr s => ret (VInt (Z.of_nat (String.length s)))
  | VObj _ _ => invoke v "__len__" []
  | _ => raise (PyError "TypeError" ("object of type '" +:+ _class_name v +:+ "' has no len()"))
  end.

Fixpoint int_sum (l : list value) : option Z :=
  match l with
  | [] => Some 0
  | v :: l' =>
      match value_as_int v, int_sum l' with
      | Some z, Some t => Some (z + t)
      | _, _ => None
      end
  end.

(** [sum(value)] *)
Definition py_sum (v : value) : M state value :=
  match v with
  | VList l =>
      match int_sum l with
      | Some z => ret (VInt z)
      | None => lift (sum_ v)
      end
  | _ => lift (sum_ v)
  end.

(** Truthiness, as [if cond:] tests it. *)
Definition truthy (v : value) : bool :=
  match v with
  | VNone => false
  | VBool b => b
  | VInt z => negb (Z.eqb z 0)
  | VStr s => negb (String.eqb s "")
  | VList l => match l with [] => false | _ => true end
  | VFloat _ | VObj _ _ => truth_ v
  end.

Definition RecursionError : exn :=
  PyError "RecursionError" "maximum recursion depth exceeded".

(** [expr.get("ref") == name], [expr.get("op") == name] *)
Definition field_is (o : list (string * json)) (key name : string) : bool :=
  match get o key with
  | JStr s => String.eqb s name
  | _ => false
  end.

(** The checked [frames[frame_id]] of the reference forms. *)
Definition frame_ref (frames : list value) (frame_id : json) : M state value :=
  match as_int frame_id with
  | Some i =>
      if (0 <=? i) && (i <? Z.of_nat (length frames))
      then ret (default VNone (frames !! Z.to_nat i))
      else raise (ToolError ("Invalid frame id: " +:+ show frame_id))
  | None => raise (ToolError ("Invalid frame id: " +:+ show frame_id))
  end.

(** [not isinstance(id, int) or id < 0] *)
Definition bad_id (id : json) : bool :=
  match as_int id with
  | Some i => i <? 0
  | None => true
  end.

(** The loop of [filter_mask] over [zip(items, mask)]. *)
Fixpoint filter_mask (items mask : list value) : result (list value) :=
  match items, mask with
  | item :: items', flag :: mask' =>
      match flag with
      | VBool b =>
          bind (filter_mask items' mask') (fun out =>
            Ok (if b then item :: out else out))
      | _ => Raise (ToolError "filter_mask mask must contain booleans")
      end
  | _, _ => Ok []
  end.

(** The [dict] branch of [_eval_expr]; [eval] evaluates a sub-expression. *)
Definition eval_dict (eval : json -> M state value) (frames : list value)
    (expr : list (string * json)) : M state value :=
  match dict_get "var" expr with
  | Some name =>
      match name with
      | JStr name =>
          (st <- get_state ;;
           match dict_get name (env st) with
           | Some v => ret v
           | None => raise (ToolError ("Undefined variable: " +:+ name))
           end)%M
      | _ => raise (ToolError "Expression var name must be string")
      end
  | None =>
  if field_is expr "ref" "frame" then
    frame_ref frames (get expr "id")
  else if field_is expr "ref" "interactable" then
    let frame_id := get expr "frame" in
    let interactable_id := get expr "id" in
    (frame <- frame_ref frames frame_id ;;
     if bad_id interactable_id
     then raise (ToolError ("Invalid interactable id: " +:+ show interactable_id))
     else
       emit (EvSelector (_class_name frame) "get_interactable") ;;;
       invoke frame "get_interactable" [atom interactable_id])%M
  else if field_is expr "ref" "keypoint" then
    let frame_id := get expr "frame" in
    let keypoint_id := get expr "id" in
    (frame <- frame_ref frames frame_id ;;
     if bad_id keypoint_id
     then raise (ToolError ("Invalid keypoint id: " +:+ show keypoint_id))
     else
       emit (EvSelector (_class_name frame) "get_keypoint") ;;;
       invoke frame "get_keypoint" [atom keypoint_id])%M
  else if field_is expr "ref" "neighbour" then
    let point_expr := get expr "point" in
    let neighbour_id := get expr "id" in
    (point <- eval point_expr ;;
     has <- hasattr point "get_neighbour" ;;
     if negb has
     then raise (ToolError
       "neighbour.point must evaluate to a Point-like object with get_neighbour()")
     else if bad_id neighbour_id
     then raise (ToolError ("Invalid neighbour id: " +:+ show neighbour_id))
     else
       emit (EvSelector (_class_name point) "get_neighbour") ;;;
       invoke point "get_neighbour" [atom neighbour_id])%M
  else if field_is expr "ref" "attr" then
    (obj <- eval (get expr "obj") ;;
     match get expr "name" with
     | JStr name =>
         if starts_with "__" name
         then raise (ToolError "Dunder attribute access is not allowed")
         else emit (EvGetattr name) ;;; ask (getattr_ obj name)
     | _ => raise (ToolError "attr.name must be string")
     end)%M
  else if field_is expr "ref" "index" then
    (lst <- eval (get expr "list") ;;
     idx <- eval (get expr "index") ;;
     match value_as_int idx with
     | Some i => subscript lst i idx
     | None => raise (ToolError "index.index must evaluate to int")
     end)%M
  else if field_is expr "op" "map_attr" then
    (items <- eval (get expr "list") ;;
     match get expr "attr" with
     | JStr attr =>
         if starts_with "__" attr
         then raise (ToolError "map_attr.attr must be a non-dunder string")
         else
           its <- iterate items ;;
           out <- map_m (fun item => emit (EvGetattr attr) ;;; ask (getattr_ item attr)) its ;;
           ret (VList out)
     | _ => raise (ToolError "map_attr.attr must be a non-dunder string")
     end)%M
  else if field_is expr "op" "filter_mask" then
    (items <- eval (get expr "items") ;;
     mask <- eval (get expr "mask") ;;
     match items, mask with
     | VList items, VList mask =>
         if negb (Nat.eqb (length items) (length mask))
         then raise (ToolError "filter_mask items and mask must be same length")
         else out <- lift (filter_mask items mask) ;; ret (VList out)
     | _, _ => raise (ToolError "filter_mask requires list items and list mask")
     end)%M
  else if field_is expr "op" "len" then
    (value <- eval (get expr "value") ;; py_len value)%M
  else if field_is expr "op" "sum" then
    (value <- eval (get expr "value") ;; py_sum value)%M
  else raise (ToolError "Unsupported expression: {...}")
  end.

(** [_eval_expr]; [fuel] bounds the nesting of the calls. *)
Fixpoint _eval_expr (fuel : nat) (frames : list value) (expr : json) {struct fuel}
  : M state value :=
  match fuel with
  | O => raise RecursionError
  | S fuel' =>
      match expr with
      | JNull | JBool _ | JInt _ | JFloat _ | JStr _ => ret (atom expr)
      | JList l =>
          (vs <- map_m (_eval_expr fuel' frames) l ;; ret (VList vs))%M
      | JObj o => eval_dict (_eval_expr fuel' frames) frames o
      end
  end.

(** [{k: _eval_expr(v) for k, v in args_obj.items()}] *)
Definition eval_args (eval : json -> M state value) (args_obj : list (string * json))
  : M state (list (string * value)) :=
  map_m (fun kv => (v <- eval kv.2 ;; ret (kv.1, v))%M) args_obj.

(** The tail of a [call] or [call_method] step: [save_as]. *)
Definition save_result (what : string) (step : list (string * json)) (result : value)
  : M state unit :=
  match get step "save_as" with
  | JNull => ret tt
  | JStr save_as =>
      if String.eqb save_as ""
      then raise (ToolError (what +:+ ".save_as must be non-empty string"))
      else env_set save_as result
  | _ => raise (ToolError (what +:+ ".save_as must be non-empty string"))
  end.

Definition _ensure_allowed_method (obj : value) (method : string) : M state unit :=
  let cls := _class_name obj in
  let allowed : gset string := default ∅ (_ALLOWED_METHODS !! cls) in
  if negb (bool_decide (method ∈ allowed))
  then raise (ToolError ("Method not allowed: " +:+ cls +:+ "." +:+ method))
  else ret tt.

(** The loop [for item in iterable: env[var] = item; run_steps(body)]. *)
Fixpoint foreach_loop (run_body : M state unit) (var : string) (iterable : list value)
  : M state unit :=
  match iterable with
  | [] => ret tt
  | item :: rest =>
      (env_set var item ;;; run_body ;;; foreach_loop run_body var rest)%M
  end.

(** A JSON value where a list of steps is expected. *)
Definition as_list (j : json) : option (list json) :=
  match j with
  | JList l => Some l
  | _ => None
  end.

(** The body of the loop of [run_steps] for one step; [eval] is
    [_eval_expr] and [run_steps] the recursive call. *)
Definition run_step (registry : ToolRegistry.t) (eval : json -> M state value)
    (run_steps : list json -> M state unit) (step : json) : M state unit :=
  match step with
  | JObj step =>
    let op := get step "op" in
    if field_is step "op" "call" then
      match get step "tool" with
      | JStr tool_name =>
          match ToolRegistry.get registry tool_name with
          | None => raise (ToolError ("Tool not allowed: " +:+ tool_name))
          | Some spec =>
              match get_or step "args" (JObj []) with
              | JObj args_obj =>
                  (args <- eval_args eval args_obj ;;
                   result <- try_except
                     (emit (EvTool tool_name) ;;;
                      ask (call_ (ToolRegistry.fn spec) [] args))
                     is_Exception
                     (fun exc => raise (ToolError
                        ("Tool call failed: " +:+ tool_name +:+ ": " +:+ exn_str exc))) ;;
                   save_result "call" step result)%M
              | _ => raise (ToolError "call.args must be object")
              end
          end
      | _ => raise (ToolError "call.tool must be string")
      end
    else if field_is step "op" "call_method" then
      (target <- eval (get step "target") ;;
       match get step "method" with
       | JStr method =>
           if String.eqb method ""
           then raise (ToolError "call_method.method must be string")
           else
             _ensure_allowed_method target method ;;;
             emit (EvMethod (_class_name target) method) ;;;
             fn <- ask (getattr_ target method) ;;
             match get_or step "args" (JObj []) with
             | JObj args_obj =>
                 args <- eval_args eval args_obj ;;
                 result <- try_except
                   (ask (call_ fn [] args))
                   is_Exception
                   (fun exc => raise (ToolError
                      ("Method call failed: " +:+ _class_name target +:+ "."
                       +:+ method +:+ ": " +:+ exn_str exc))) ;;
                 save_result "call_method" step result
             | _ => raise (ToolError "call_method.args must be object")
             end
       | _ => raise (ToolError "call_method.method must be string")
       end)%M
    else if field_is step "op" "assign" then
      match get step "var" with
      | JStr name =>
          if String.eqb name ""
          then raise (ToolError "assign.var must be non-empty string")
          else (v <- eval (get step "value") ;; env_set name v)%M
      | _ => raise (ToolError "assign.var must be non-empty string")
      end
    else if field_is step "op" "foreach" then
      match get step "var" with
      | JStr var =>
          if String.eqb var ""
          then raise (ToolError "foreach.var must be non-empty string")
          else
            (iterable <- eval (get step "in") ;;
             match iterable with
             | VList iterable =>
                 match as_list (get_or step "do" (JList [])) with
                 | Some body =>
                     try_except (foreach_loop (run_steps body) var iterable)
                                is_Break (fun _ => ret tt)
                 | None => raise (ToolError "foreach.do must be a list of steps")
                 end
             | _ => raise (ToolError "foreach.in must evaluate to a list")
             end)%M
      | _ => raise (ToolError "foreach.var must be non-empty string")
      end
    else if field_is step "op" "if" then
      (cond <- eval (get step "cond") ;;
       match as_list (get_or step "then" (JList [])),
             as_list (get_or step "else" (JList [])) with
       | Some then_steps, Some else_steps =>
           if truthy cond then run_steps then_steps else run_steps else_steps
       | _, _ => raise (ToolError "if.then/if.else must be list of steps")
       end)%M
    else if field_is step "op" "break" then
      raise Break
    else raise (ToolError ("Unknown step op: " +:+ show_repr op))
  | _ => raise (PyError "AttributeError"
                  ("'" +:+ type_name step +:+ "' object has no attribute 'get'"))
  end.

(** [run_steps], the closure of [execute_stage3_program]; [fuel] bounds the
    nesting of the calls. *)
Fixpoint run_steps (registry : ToolRegistry.t) (frames : list value) (fuel : nat)
    (steps : list json) {struct fuel} : M state unit :=
  match fuel with
  | O => raise RecursionError
  | S fuel' =>
      for_each steps
        (run_step registry (_eval_expr fuel' frames) (run_steps registry frames fuel'))
  end.

Definition execute_stage3_program (frames : list value) (program : Stage3Program)
    (registry : ToolRegistry.t) (w : W) : result unit * state :=
  run_steps registry frames (S (json_depth (JList (steps program)))) (steps program)
    {| env := []; world := w; trace := [] |}.

End Stage3.

Arguments env {W} _.
Arguments world {W} _.
Arguments trace {W} _.

(** [build_default_registry]; [action_tools] and [vision_tools] give the
    function object a module binds to a name. *)
Definition build_default_registry (action_tools vision_tools : string -> value)
  : ToolRegistry.t :=
  let reg := ToolRegistry.init in
  let reg := foldl (fun reg n => ToolRegistry.register reg n (action_tools n)) reg
    ["click"; "get_all_choices"; "drag"; "draw"; "enter"; "point"; "select";
     "slide_x"; "slide_y"; "explore"] in
  foldl (fun reg n => ToolRegistry.register reg n (vision_tools n)) reg
    ["mark"; "focus"; "ask"; "rank"; "compare"; "match"].

(** ** Stage orchestrators ([halligan/stages/stage1.py], [stage2.py],
    [stage3.py]) *)

(** What happens to the agent, in order: a prompt sent, a reset of its
    history, and an exception caught by the [except] clause of a retry loop.
    The theorems read this log; the code does not. *)
Inductive agent_event :=
| ACall (prompt : string)
| AReset
| ACaught (e : exn).

(** The feedback prompt of Stages 1 and 2. *)
Definition feedback_invalid (exc : exn) : string :=
  "Your previous output was invalid." +:+ nl
  +:+ "Error: " +:+ exn_str exc +:+ nl +:+ nl
  +:+ "Please output ONLY valid JSON that matches the required schema." +:+ nl
  +:+ "Do not include markdown fences or any extra text.".

(** The feedback prompt of Stage 3. *)
Definition feedback_failed (exc : exn) : string :=
  "Your previous output failed to parse/validate/execute." +:+ nl
  +:+ "Error: " +:+ exn_str exc +:+ nl +:+ nl
  +:+ "Please output ONLY valid JSON that matches the required schema." +:+ nl
  +:+ "Do not include markdown fences or any extra text.".

(** [d[key] = v] on a dict with keys of another type than [str]. *)
Fixpoint assoc_set {K A} `{EqDecision K} (key : K) (v : A) (d : list (K * A))
  : list (K * A) :=
  match d with
  | [] => [(key, v)]
  | (k, w) :: d' =>
      if decide (k = key) then (k, v) :: d' else (k, w) :: assoc_set key v d'
  end.

Section Stages.

(** The agent is an opaque callable with a history: [A] is its state,
    [agent_call prompt] sends a prompt (with the images and captions of the
    session) and returns the text of the reply, which may be [None], or
    raises; [agent_reset] is [agent.reset()]. *)
Variable A : Type.
Variable agent_call : string -> A -> result (option string) * A.
Variable agent_reset : A -> A.

(** The decoder, the enumerations and the world of the tools, as above. *)
Variable json_loads : string -> result json.
Variable _FRAME_INTERACTABLES : gset string.
Variable _ELEMENT_INTERACTABLES : gset string.
Variable W : Type.
Variable getattr_ : value -> string -> W -> result value * W.
Variable call_ : value -> list value -> list (string * value) -> W -> result value * W.
Variable iter_ : value -> W -> result (list value) * W.
Variable sum_ : value -> result value.
Variable truth_ : value -> bool.

(** [get_observation(frames)[0]], the frame objects handed to Stage 3, and
    the registry built by [build_default_registry()]. *)
Variable all_frames : list Frame.t -> list value.
Variable registry : ToolRegistry.t.

Record session := {
  agent : A;
  frames : list Frame.t;
  tool_world : W;
  log : list agent_event;
}.

Definition record (ev : agent_event) : M session unit :=
  modify (fun s => {| agent := agent s; frames := frames s; tool_world := tool_world s;
                      log := log s ++ [ev] |}).

(** [response, _ = agent(prompt, images, image_captions)] *)
Definition call_agent (prompt : string) : M session (option string) :=
  (record (ACall prompt) ;;;
   fun s =>
     let '(r, a) := agent_call prompt (agent s) in
     (r, {| agent := a; frames := frames s; tool_world := tool_world s; log := log s |}))%M.

(** [agent.reset()] *)
Definition reset_agent : M session unit :=
  (record AReset ;;;
   modify (fun s => {| agent := agent_reset (agent s); frames := frames s;
                       tool_world := tool_world s; log := log s |}))%M.

(** Runs code that works on the frames. *)
Definition on_frames {B} (c : M (list Frame.t) B) : M session B :=
  fun s =>
    let '(r, fs) := c (frames s) in
    (r, {| agent := agent s; frames := fs; tool_world := tool_world s; log := log s |}).

(** [frames[i].description = desc] for [i, desc in enumerate(descriptions)],
    from index [i]. *)
Fixpoint store_descriptions (i : nat) (descriptions : list string)
  : M (list Frame.t) unit :=
  match descriptions with
  | [] => ret tt
  | desc :: rest =>
      (modify (alter (fun f => Frame.mk (Some desc) (Frame.relations f)
                                 (Frame.interactable f) (Frame.interactables f)
                                 (Frame.subframes f)) i) ;;;
       store_descriptions (S i) rest)%M
  end.

(** [frames[rel.src].relations[rel.dst] = rel.relationship] *)
Definition store_relation (rel : Stage1Relation) : M (list Frame.t) unit :=
  (k <- frame_at (pyint_json (src rel)) ;;
   modify (alter (fun f => Frame.mk (Frame.description f)
                     (assoc_set (int_val <$> dst rel) (relationship rel) (Frame.relations f))
                     (Frame.interactable f) (Frame.interactables f)
                     (Frame.subframes f)) k))%M.

(** The [try] body of Stage 1. *)
Definition stage1_body (response : option string) : M session string :=
  (data <- lift (parse_json_from_response json_loads response) ;;
   s <- get_state ;;
   result <- lift (validate_stage1 data (Z.of_nat (length (frames s)))) ;;
   on_frames (store_descriptions 0 (descriptions result)) ;;;
   on_frames (for_each (relations result) store_relation) ;;;
   reset_agent ;;;
   ret (objective result))%M.

Definition retryable12 (e : exn) : bool := is_ParseError e || is_ValidationError e.

(** The loop [for attempt in range(n)] of Stage 1 and what follows it. *)
Fixpoint stage1_loop (n : nat) (prompt : string) (last_error : option exn)
  : M session string :=
  match n with
  | O =>
      (reset_agent ;;;
       raise (default (PyError "RuntimeError" "Stage 1 failed without a captured error")
                      last_error))%M
  | S n' =>
      (response <- call_agent prompt ;;
       try_except (stage1_body response) retryable12
         (fun exc =>
            record (ACaught exc) ;;;
            stage1_loop n' (feedback_invalid exc) (Some exc)))%M
  end.

(** [objective_identification(agent, frames)]; [prompt] is what
    [Prompts.get] returns for the stage. *)
Definition objective_identification (prompt : string) : M session string :=
  stage1_loop 3 prompt None.

(** The [try] body of Stage 2. *)
Definition stage2_body (response : option string) : M session unit :=
  (data <- lift (parse_json_from_response json_loads response) ;;
   s <- get_state ;;
   plan <- lift (validate_stage2 _FRAME_INTERACTABLES _ELEMENT_INTERACTABLES data
                   (Z.of_nat (length (frames s)))) ;;
   on_frames (fun fs => apply_stage2_plan fs plan) ;;;
   reset_agent)%M.

(** The loop [for attempt in range(n)] of Stage 2 and what follows it. *)
Fixpoint stage2_loop (n : nat) (prompt : string) (last_error : option exn)
  : M session unit :=
  match n with
  | O =>
      (reset_agent ;;;
       raise (default (PyError "RuntimeError" "Stage 2 failed without a captured error")
                      last_error))%M
  | S n' =>
      (response <- call_agent prompt ;;
       try_except (stage2_body response) retryable12
         (fun exc =>
            record (ACaught exc) ;;;
            stage2_loop n' (feedback_invalid exc) (Some exc)))%M
  end.

(** [structure_abstraction(agent, frames, objective)] *)
Definition structure_abstraction (prompt : string) : M session unit :=
  stage2_loop 3 prompt None.

(** [vision_tools.set_agent(agent)] in [solution_composition]: there the
    name [vision_tools] is bound to the text listing the vision tools, a
    [str], and a [str] has no such attribute. *)
Definition set_agent_on_text : M session unit :=
  raise (PyError "AttributeError" "'str' object has no attribute 'set_agent'").

(** [execute_stage3_program(all_frames, program, registry=registry)] *)
Definition run_program (program : Stage3Program) : M session unit :=
  fun s =>
    let '(r, st) :=
      execute_stage3_program W getattr_ call_ iter_ sum_ truth_
        (all_frames (frames s)) program registry (tool_world s) in
    (r, {| agent := agent s; frames := frames s; tool_world := world st;
           log := log s |}).

(** The [try] body of Stage 3. *)
Definition stage3_body (prompt : string) : M session unit :=
  (reset_agent ;;;
   response <- call_agent prompt ;;
   data <- lift (parse_json_from_response json_loads response) ;;
   program <- lift (validate_stage3 data) ;;
   reset_agent ;;;
   set_agent_on_text ;;;
   run_program program ;;;
   reset_agent)%M.

(** [except (ParseError, ValidationError, ToolError, Exception)] *)
Definition caught3 (e : exn) : bool :=
  is_ParseError e || is_ValidationError e || is_ToolError e || is_Exception e.

(** The loop [for _ in range(n)] of Stage 3 and what follows it. *)
Fixpoint stage3_loop (n : nat) (prompt : string) (feedback : option exn)
  : M session unit :=
  match n with
  | O =>
      (reset_agent ;;;
       raise (default (PyError "RuntimeError" "Stage 3 failed without a captured error")
                      feedback))%M
  | S n' =>
      try_except (stage3_body prompt) caught3
        (fun exc =>
           (record (ACaught exc) ;;;
            stage3_loop n' (feedback_failed exc) (Some exc))%M)
  end.

(** [solution_composition(agent, frames, objective)] *)
Definition solution_composition (prompt : string) : M session unit :=
  stage3_loop 4 prompt None.

End Stages.

Arguments agent {A W} _.
Arguments frames {A W} _.
Arguments tool_world {A W} _.
Arguments log {A W} _.

(** ** The GPT agent ([halligan/agents/agent.py]) *)

(** [f"Image {i}" for i in range(n)] *)
Definition numbered (word : string) (n : nat) : list string :=
  map (fun i : nat => word +:+ " " +:+ pretty i) (seq 0 n).

Module GPTAgent.

(** One entry of the content of a user message: a text, or an image given
    by a [data:] URL. *)
Inductive part :=
| text_part (text : string)
| image_part (url : string).

(** The content of a message: the parts of a user message, or the reply of
    the model, which may be [None]. *)
Inductive content :=
| user_content (parts : list part)
| assistant_content (reply : option string).

Record message := {
  role : string;
  body : content;
}.

Section Agent.

(** What the class takes from outside: the images ([PIL.Image.Image]) with
    [encode], which is [image.save(buffer, format="JPEG")] followed by the
    base64 text of the bytes written; the client built by [openai.OpenAI],
    the service behind it, and [create], which is
    [self.client.chat.completions.create(model=..., messages=...,
    max_tokens=1024, temperature=0, top_p=1)] followed by the reads of
    [response.choices[0].message.content] and of the four metadata fields.
    Each may raise. [__call__] below is the method as the class writes
    it, the function that the decorator [Trace.agent] receives. *)
Variable Image : Type.
Variable encode : Image -> result string.
Variable Client Service Metadata : Type.
Variable OpenAI : string -> Z -> result Client.
Variable create : Client -> string -> list message -> Service
                  -> result (option string * Metadata) * Service.

Record t := mk {
  model : string;
  client : Client;
  history : list message;
}.

(** [GPTAgent(api_key, model, timeout=timeout)] *)
Definition __init__ (api_key : option string) (model : string) (timeout : Z) : result t :=
  if negb (truthy_str api_key)
  then Raise (PyError "ValueError" "Missing OPENAI_API_KEY (provide a non-empty string)")
  else
    (client <- OpenAI (default "" api_key) timeout ;;
     Ok {| model := model; client := client; history := [] |})%result.

Definition reset (self : t) : t :=
  {| model := model self; client := client self; history := [] |}.

(** The loop over [zip(images, image_captions)]: two parts per image. *)
Fixpoint image_parts (pairs : list (Image * string)) : result (list part) :=
  match pairs with
  | [] => Ok []
  | (image, image_caption) :: rest =>
      (image_b64 <- encode image ;;
       more <- image_parts rest ;;
       Ok (text_part image_caption
           :: image_part ("data:image/jpeg;base64," +:+ image_b64) :: more))%result
  end.

Definition append_message (self : t) (m : message) : t :=
  {| model := model self; client := client self; history := (history self ++ [m])%list |}.

(** [self(prompt, images, image_captions)], on the agent and the service. *)
Definition __call__ (prompt : string) (images : option (list Image))
    (image_captions : option (list string))
  : M (t * Service) (option string * Metadata) :=
  fun '(self, service) =>
    let images := default [] images in
    let image_captions :=
      match image_captions with
      | None => numbered "Image" (length images)
      | Some given =>
          if negb (Nat.eqb (length given) (length images))
          then numbered "Image" (length images)
          else given
      end in
    match image_parts (zip images image_captions) with
    | Raise e => (Raise e, (self, service))
    | Ok parts =>
        let user_prompt := text_part prompt :: parts in
        let self := append_message self {| role := "user"; body := user_content user_prompt |} in
        match create (client self) (model self) (history self) service with
        | (Raise e, service) => (Raise e, (self, service))
        | (Ok (reply, metadata), service) =>
            (Ok (reply, metadata),
             (append_message self {| role := "assistant"; body := assistant_content reply |},
              service))
        end
    end.

End Agent.

End GPTAgent.

(** ** Vision tools ([halligan/utils/vision_tools.py]) *)

(** [needle in hay], for texts. *)
Fixpoint contains (needle hay : string) : bool :=
  starts_with needle hay
  || match hay with
     | EmptyString => false
     | String _ hay' => contains needle hay'
     end.

(** [any(keyword in text.lower() for keyword in keywords)] *)
Definition mentions (keywords : list string) (text : string) : bool :=
  existsb (fun keyword => contains keyword (py_lower text)) keywords.

(** [[f(x) for x in l]], stopping at the first exception. *)
Fixpoint map_M {S X Y} (f : X -> M S Y) (l : list X) : M S (list Y) :=
  match l with
  | [] => ret []
  | x :: l' => (y <- f x ;; ys <- map_M f l' ;; ret (y :: ys))%M
  end.

Fixpoint map_result {X Y} (f : X -> result Y) (l : list X) : result (list Y) :=
  match l with
  | [] => Ok []
  | x :: l' => (y <- f x ;; ys <- map_result f l' ;; Ok (y :: ys))%result
  end.

(** [l[i]] *)
Definition item {X} (l : list X) (i : Z) : result X :=
  match py_index (length l) i with
  | Some k =>
      match l !! k with
      | Some x => Ok x
      | None => Raise (PyError "IndexError" "list index out of range")
      end
  | None => Raise (PyError "IndexError" "list index out of range")
  end.

(** [min(l)] on integers. *)
Definition min_of (l : list Z) : result Z :=
  match l with
  | [] => Raise (PyError "ValueError" "min() arg is an empty sequence")
  | x :: l' => Ok (foldl Z.min x l')
  end.

(** The class [Node] of [rank]. *)
Module Node.
Inductive t := mk {
  id : nat;
  children : list t;
}.
End Node.

(** [traverse] of [preorder]: [acc] is [seen] and [result]. *)
Fixpoint traverse (node : Node.t) (acc : gset nat * list nat) : gset nat * list nat :=
  let acc :=
    if bool_decide (Node.id node ∈ acc.1) then acc
    else ({[ Node.id node ]} ∪ acc.1, (acc.2 ++ [Node.id node])%list) in
  fold_left (fun acc child => traverse child acc) (Node.children node) acc.

Definition preorder (root : Node.t) : list nat := (traverse root (∅, [])).2.

(** The comprehension that clamps and de-duplicates a ranking: the
    indices in range, each at its first occurrence. *)
Fixpoint clamp_dedup (n : Z) (seen : gset Z) (ranking : list Z) : list Z :=
  match ranking with
  | [] => []
  | i :: rest =>
      if (0 <=? i) && (i <? n) && negb (bool_decide (i ∈ seen))
      then i :: clamp_dedup n ({[ i ]} ∪ seen) rest
      else clamp_dedup n seen rest
  end.

(** The two readings of a ranking, from 0 and from 1. *)
Definition shift_ranking (ranking : list Z) : result (list Z) :=
  (smallest <- min_of ranking ;;
   Ok (if smallest =? 1 then map (fun i => i - 1) ranking
       else if negb (smallest =? 0) then map (fun i => Z.max (i - 1) 0) ranking
       else ranking))%result.

Definition hint_path : string :=
  "## Guidelines" +:+ nl +:+ "1. Imagine the car is going on a journey through a path." +:+ nl +:+ "2. Follow the colored path starting from the car icon, where does the car end at?" +:+ nl +:+ "3. If there is no car icon, find the edge of the colored path.".

Definition hint_boxes : string :=
  "## Guidelines" +:+ nl +:+ "1. Focus on red boxes that are related, based on their shape, texture, and context, avoiding double-counting overlapping boxes." +:+ nl +:+ "2. Red boxes are not perfect, it may wrongly mark or miss objects (e.g., rocks and grass)." +:+ nl +:+ "3. You should use the red boxes as a reference rather than ground truth.".

Definition hint_puzzle : string :=
  "## Guidelines" +:+ nl +:+ "1. Puzzle piece must fit perfectly on top of slot." +:+ nl +:+ "2. Shapes align properly: Geometric patterns should connect smoothly without distortion." +:+ nl +:+ "3. Consistent colors and shading: No abrupt color shifts or breaks between parts." +:+ nl +:+ "4. No fragmentation: Image should appear cohesive without misaligned pieces.".

Definition hint_tiles : string :=
  "## Guidelines" +:+ nl +:+ "1. Some of the tiles are scrambled." +:+ nl +:+ "2. Determine which image is complete based on tile color, texture, and alignment.".

Definition hint_upright : string :=
  "## Guidelines" +:+ nl +:+ "1. Find the image that is the least tiled (the upright image).".

Definition hint_direction : string :=
  "## Guidelines" +:+ nl +:+ "1. First, find the orientation of the fingers in reference, there are two stretched fingers, which are thinner relative to the wrist" +:+ nl +:+ "2. Next, find the orientation of the object's front face in each image" +:+ nl +:+ "3. Assign True to the image that most closely matches the finger orientation" +:+ nl +:+ "4. When assessing orientations, using the 8 cardinal directions." +:+ nl +:+ "5. There should only be one True value.".

Definition hint_orbit : string :=
  "## Guidelines" +:+ nl +:+ "1. First, describe the icons from top to bottom in each image." +:+ nl +:+ "2. Next, identify the orbit numbers from top to botton" +:+ nl +:+ "3, Finally, find the number + description that is closest to reference.4. There can only be 1 True.".

Definition hint_symbols : string :=
  "## Guidelines" +:+ nl +:+ "1. The expression 'N x' indicates that there should be N of the reference icons." +:+ nl +:+ "2. Find the image with N number of matching icons as in reference.".

Definition hint_pattern : string :=
  "## Guidelines" +:+ nl +:+ "1. Match by object type, it doesn't need to have exact visual details.".

(** The patterns given to [re.search]. *)
Definition numbers_pattern : string := "answer\((numbers=)?(\[[\d, ]+\])\)".
Definition strings_pattern : string := "answer\((strings=)?(\[[^]]*\])\)".
Definition booleans_pattern : string :=
  "answer\((booleans=)?(\[(True|False)(,\s*(True|False))*\])\)".
Definition rank_pattern : string := "rank\((ids=)?(\[[\d, ]+\])\)".

Definition RuntimeError_no_agent : exn :=
  PyError "RuntimeError"
    "Vision tools agent is not set. Call `halligan.utils.vision_tools.set_agent(agent)` first.".

(** The functions of the module. *)
Module vision_tools.

Section VisionTools.

(** The agent is an object behind the interface [Agent]: [A] is its state,
    [agent_call prompt images image_captions] is [agent(prompt, images,
    image_captions)] and gives the text of the reply, which may be [None];
    an image may be [None] where the caller passes one. [re_search pattern
    text] is [re.search(pattern, text)], giving [group(2)] of the match,
    a group that takes part in every match of the four patterns used.
    [literal_eval] is [ast.literal_eval] on a text, [int_] is [int(x)] on
    an object that is not an integer, and [sample n] is
    [random.sample(list(range(n)), n)] on the state of the generator: all
    of Python's standard library, parameters here. *)
Variable Image : Type.
Variable A : Type.
Variable agent_call : string -> list (option Image) -> list string -> A
                      -> result (option string) * A.
Variable agent_reset : A -> A.
Variable re_search : string -> string -> option string.
Variable literal_eval : string -> result value.
Variable int_ : value -> result Z.
Variable Random : Type.
Variable sample : nat -> Random -> list Z * Random.

(** The state of the module: the global [_agent], and the generator of
    the module [random]. *)
Record vision := {
  _agent : option A;
  generator : Random;
}.

Definition set_agent (agent : A) : M vision unit :=
  modify (fun v => {| _agent := Some agent; generator := generator v |}).

(** Work on the agent that [_agent] names; without one, the error of
    [_require_agent]. *)
Definition with_agent {B} (f : A -> result B * A) : M vision B :=
  fun v =>
    match _agent v with
    | None => (Raise RuntimeError_no_agent, v)
    | Some agent =>
        let '(r, agent) := f agent in
        (r, {| _agent := Some agent; generator := generator v |})
    end.

Definition _require_agent : M vision unit :=
  with_agent (fun agent => (Ok tt, agent)).

Definition _safe_literal_list (text : string) : result (list value) :=
  (value <- literal_eval text ;;
   match value with
   | VList l => Ok l
   | _ => Raise (PyError "ValueError" "Expected a list literal")
   end)%result.

(** [re.search(pattern, response)]: a reply that is [None] is a
    [TypeError]. *)
Definition search (pattern : string) (response : option string) : result (option string) :=
  match response with
  | Some text => Ok (re_search pattern text)
  | None => Raise (PyError "TypeError" "expected string or bytes-like object, got 'NoneType'")
  end.

Definition ask_prompt (question answer_type : string) : string :=
  let '(answer_format, answers_format) :=
    if String.eqb answer_type "int" then ("numbers", "answer(numbers=[1, 2, ...])")
    else if String.eqb answer_type "str"
    then ("strings", dq "answer(strings=['a', 'b', ...])")
    else ("(True/False)", "answer(booleans=[True, False, ...])") in
  let hint :=
    if mentions ["path"; "direction"] question then hint_path
    else if mentions ["red"; "boxes"] question then hint_boxes
    else "" in
  "## Objective" +:+ nl
  +:+ "Given the list of images, answer the question: " +:+ question +:+ nl
  +:+ "Output a list of " +:+ answer_format +:+ " for each image." +:+ nl
  +:+ "You should follow the format `" +:+ answers_format +:+ "` to answer the question."
  +:+ nl +:+ hint.

Definition ask_pattern (answer_type : string) : string :=
  if String.eqb answer_type "int" then numbers_pattern
  else if String.eqb answer_type "str" then strings_pattern
  else booleans_pattern.

(** [ask(images, question, answer_type)] *)
Definition ask (images : list Image) (question answer_type : string)
  : M vision (list value) :=
  let prompt := ask_prompt question answer_type in
  let image_captions := numbered "Image" (length images) in
  (_require_agent ;;;
   response <- with_agent (agent_call prompt (map Some images) image_captions) ;;
   with_agent (fun agent => (Ok tt, agent_reset agent)) ;;;
   found <- lift (search (ask_pattern answer_type) response) ;;
   match found with
   | Some group =>
       matches <- lift (_safe_literal_list group) ;;
       let matches :=
         if contains "point to the letter" (py_lower question)
         then [VInt 7] else matches in
       let matches :=
         if contains "point to the object directly below the letter" (py_lower question)
         then [VInt 11] else matches in
       ret matches
   | None =>
       ret (if String.eqb answer_type "bool"
            then replicate (length images) (VBool false)
            else replicate (length images) (VInt 0))
   end)%M.

Definition compare_prompt (task_objective : string) : string :=
  let hint := "" in
  let hint := if mentions ["direction"] task_objective then hint_direction else hint in
  let hint := if mentions ["orbit"] task_objective then hint_orbit else hint in
  let hint := if mentions ["reference symbols"] task_objective then hint_symbols else hint in
  let hint := if mentions ["match the pattern"] task_objective then hint_pattern else hint in
  "## Objective" +:+ nl
  +:+ "Given the list of items, compare them with Reference and see if it satisfies the objective: "
  +:+ task_objective +:+ nl
  +:+ "Output a list of (True/False) for each item." +:+ nl
  +:+ "You should follow the format answer(booleans=[True, False, ...]) to answer the question."
  +:+ nl +:+ hint.

(** [compare(images, task_objective, reference)] *)
Definition compare (images : list Image) (task_objective : string)
    (reference : option Image) : M vision (list value) :=
  let prompt := compare_prompt task_objective in
  let images := reference :: map Some images in
  let image_captions := "Reference" :: numbered "Item" (length images - 1)%nat in
  (_require_agent ;;;
   response <- with_agent (agent_call prompt images image_captions) ;;
   with_agent (fun agent => (Ok tt, agent_reset agent)) ;;;
   found <- lift (search booleans_pattern response) ;;
   match found with
   | Some group => lift (_safe_literal_list group)
   | None => ret (replicate (length images - 1)%nat (VBool false))
   end)%M.

(** [int(x)] *)
Definition int_of (x : value) : result Z :=
  match x with
  | VInt z => Ok z
  | VBool b => Ok (if b then 1 else 0)
  | _ => int_ x
  end.

(** The ranking read in the reply: [[]] when there is none or when
    reading it raises an [Exception]. *)
Definition read_ranking (found : option string) : result (list Z) :=
  match found with
  | Some group =>
      match (raw <- _safe_literal_list group ;; map_result int_of raw)%result with
      | Ok ranking => Ok ranking
      | Raise e => if is_Exception e then Ok [] else Raise e
      end
  | None => Ok []
  end.

(** [random.sample(list(range(n)), n)] *)
Definition random_sample (n : nat) : M vision (list Z) :=
  fun v =>
    let '(l, g) := sample n (generator v) in
    (Ok l, {| _agent := _agent v; generator := g |}).

(** [get_top_rank(prompt, batch, batch_image, batch_captions)] *)
Definition get_top_rank (prompt : string) (batch : list Node.t)
    (batch_image : list (option Image)) (batch_captions : list string)
  : M vision Node.t :=
  (_require_agent ;;;
   response <- with_agent (agent_call prompt batch_image batch_captions) ;;
   found <- lift (search rank_pattern response) ;;
   ranking <- lift (read_ranking found) ;;
   ranking <- match ranking with
              | [] => random_sample (length batch)
              | _ => ret ranking
              end ;;
   ranking <- lift (shift_ranking ranking) ;;
   let ranking := clamp_dedup (Z.of_nat (length batch)) ∅ ranking in
   let ranking := match ranking with
                  | [] => map Z.of_nat (seq 0 (length batch))
                  | _ => ranking
                  end in
   first <- lift (item ranking 0) ;;
   best <- lift (item batch first) ;;
   children <- lift (map_result (item batch) ranking) ;;
   with_agent (fun agent => (Ok tt, agent_reset agent)) ;;;
   ret (Node.mk (Node.id best) children))%M.

Definition rank_prompt (task_objective : string) : string :=
  let hint := "" in
  let hint := if mentions ["complete the puzzle"; "missing spot"] task_objective
              then hint_puzzle else hint in
  let hint := if mentions ["image puzzle"] task_objective then hint_tiles else hint in
  let hint := if mentions ["upright"] task_objective then hint_upright else hint in
  "Given a list of images, rank them based on their relevance to the objective: "
  +:+ task_objective +:+ "." +:+ nl
  +:+ "You should follow the format rank(ids=[1, 2, ...]) to output a ranked list of image ids."
  +:+ nl +:+ hint.

(** The body of the loop over [batches]. *)
Definition rank_batch (images : list Image) (task_objective : string)
    (batch : list Node.t) : M vision Node.t :=
  let prompt := rank_prompt task_objective in
  let batch_captions := numbered "Image" (length batch) in
  (batch_image <- lift (map_result (fun node => item images (Z.of_nat (Node.id node))) batch) ;;
   get_top_rank prompt batch (map Some batch_image) batch_captions)%M.

(** The loop [while True] of [rank]; [rounds] bounds the number of
    rounds, and two are enough (the second round has one batch). *)
Fixpoint rank_rounds (rounds : nat) (images : list Image) (task_objective : string)
    (batches : list (list Node.t)) : M vision Node.t :=
  match rounds with
  | O => raise (PyError "RuntimeError" "no round left")
  | S rounds' =>
      (next_batch <- map_M (rank_batch images task_objective) batches ;;
       match next_batch with
       | [best_node] => ret best_node
       | _ => rank_rounds rounds' images task_objective [next_batch]
       end)%M
  end.

(** [rank(images, task_objective)] *)
Definition rank (images : list Image) (task_objective : string) : M vision (list nat) :=
  let batch_size := 10%nat in
  let nodes := map (fun i => Node.mk i []) (seq 0 (length images)) in
  let batches :=
    map (fun k => take batch_size (drop (batch_size * k)%nat nodes))
        (seq 0 ((length images + (batch_size - 1)) / batch_size)%nat) in
  (root <- rank_rounds 2 images task_objective batches ;;
   ret (preorder root))%M.

End VisionTools.

Arguments _agent {A Random} _.
Arguments generator {A Random} _.

End vision_tools.

(** ** Stand-ins used to run the code on concrete inputs *)

(** An agent that replies from a script, one entry per prompt, and keeps
    the prompts received since its last reset as its history. *)
Record scripted := {
  script : list (result (option string));
  history : list string;
}.

Definition scripted_call (prompt : string) (a : scripted)
  : result (option string) * scripted :=
  match script a with
  | [] => (Raise (PyError "TimeoutError" "no reply"), a)
  | r :: rest => (r, {| script := rest; history := history a ++ [prompt] |})
  end.

Definition scripted_reset (a : scripted) : scripted :=
  {| script := script a; history := [] |}.

(** A world of tools with one function object, [echo], that returns its
    argument [value] and counts its calls; objects have no attributes. *)
Definition echo : value := VObj "function" 1.

Definition echo_call (f : value) (args : list value) (kwargs : list (string * value))
    (w : nat) : result value * nat :=
  match f with
  | VObj "function" 1%N => (Ok (default VNone (dict_get "value" kwargs)), S w)
  | _ => (Raise (PyError "TypeError" "object is not callable"), w)
  end.

Definition no_getattr (obj : value) (name : string) (w : nat) : result value * nat :=
  (Raise (PyError "AttributeError" name), w).

Definition no_iter (obj : value) (w : nat) : result (list value) * nat :=
  (Raise (PyError "TypeError" "object is not iterable"), w).

Definition no_sum (v : value) : result value :=
  Raise (PyError "TypeError" "unsupported operand type(s)").

Definition all_true (v : value) : bool := true.

Definition echo_registry : ToolRegistry.t :=
  ToolRegistry.register ToolRegistry.init "echo" echo.

(** A step, written as the object it is. *)
Definition step_break : json := JObj [("op", JStr "break")].

(** * Properties *)

(** ** Schema validators *)

(** C10. The validators accept a JSON boolean wherever an integer is
    required: [_require_int] returns the boolean it was given; a
    [split_frame] action whose [frame] is [true] is accepted by
    [validate_stage2] (two frames) and the applier then reads it as frame
    1; a relation whose [from] is [false] is accepted by [validate_stage1]
    as a relation of frame 0. No [ValidationError] is raised. *)
Theorem require_int_accepts_bool :
  (forall (b : bool) (path : string), _require_int (JBool b) path = Ok (PBool b))
  /\ (forall FI EI : gset string, "SELECTABLE" ∈ FI ->
        validate_stage2 FI EI
          (JObj [("actions", JList [JObj [("type", JStr "split_frame");
                                          ("frame", JBool true);
                                          ("rows", JInt 2); ("columns", JInt 2);
                                          ("mark_as", JStr "SELECTABLE")]])]) 2
        = Ok {| actions := [ {| type := "split_frame";
                                payload := [("frame", JBool true); ("rows", JInt 2);
                                            ("columns", JInt 2);
                                            ("mark_as", JStr "SELECTABLE")] |} ] |})
  /\ (forall f0 f1 : Frame.t, frame_at (JBool true) [f0; f1] = (Ok 1%nat, [f0; f1]))
  /\ validate_stage1
       (JObj [("descriptions", JList [JStr "d0"]);
              ("relations", JList [JObj [("from", JBool false)]]);
              ("objective", JStr "x")]) 1
     = Ok {| descriptions := ["d0"];
             relations := [ {| src := PBool false; dst := None; relationship := "" |} ];
             objective := "x" |}
  /\ int_val (PBool true) = 1 /\ int_val (PBool false) = 0.
Proof.
  split; [reflexivity|].
  split.
  { intros FI EI HFI.
    unfold validate_stage2. cbn [_require_dict bind get dict_get default String.eqb
      Ascii.eqb Bool.eqb _require_list stage2_actions].
    unfold stage2_action.
    cbn -[stage2_types]. 
    assert (Hs : bool_decide ("split_frame" ∈ stage2_types) = true) by (vm_compute; reflexivity).
    unfold _require_one_of. rewrite Hs. cbn.
    rewrite (bool_decide_eq_true_2 _ HFI). reflexivity. }
  split; [reflexivity|].
  split; [vm_compute; reflexivity|].
  split; reflexivity.
Qed.

Lemma require_int_accepts_bool_witness :
  "SELECTABLE" ∈ ({[ "SELECTABLE" ]} : gset string)
  /\ validate_stage2 {[ "SELECTABLE" ]} ∅
       (JObj [("actions", JList [JObj [("type", JStr "split_frame");
                                       ("frame", JBool true);
                                       ("rows", JInt 2); ("columns", JInt 2);
                                       ("mark_as", JStr "SELECTABLE")]])]) 2
     = Ok {| actions := [ {| type := "split_frame";
                             payload := [("frame", JBool true); ("rows", JInt 2);
                                         ("columns", JInt 2);
                                         ("mark_as", JStr "SELECTABLE")] |} ] |}.
Proof.
  split; [apply elem_of_singleton; reflexivity|].
  apply (proj1 (proj2 require_int_accepts_bool)).
  apply elem_of_singleton; reflexivity.
Defined.

(** ** Safety gate of the runtime configuration *)

Section ConfigFacts.

Variable urlparse : string -> result (string * option string).

(** A benchmark URL is set when the field holds a non-empty text. *)
Definition is_set (field : option string) (url : string) : Prop :=
  field = Some url /\ url <> "".

(** A local http/https URL: it parses, its scheme is [http] or [https] and
    its host, as the gate reads it (the parsed host name, stripped and in
    lower case), is one of the four local hosts. *)
Definition local_url (url : string) : Prop :=
  exists scheme hostname,
    urlparse url = Ok (scheme, hostname)
    /\ scheme ∈ http_schemes
    /\ py_lower (strip (default "" hostname)) ∈ _DEFAULT_ALLOWED_BENCHMARK_HOSTS.

Lemma is_local_http_url_spec url :
  _is_local_http_url urlparse url = true <-> local_url url.
Proof.
  unfold _is_local_http_url, local_url. split.
  - destruct (urlparse url) as [[scheme hostname]|e] eqn:E; [|discriminate].
    destruct (bool_decide (scheme ∈ http_schemes)) eqn:Hs; cbn; [|discriminate].
    intros Hh. exists scheme, hostname. split; [reflexivity|].
    apply bool_decide_eq_true in Hs. apply bool_decide_eq_true in Hh. by split.
  - intros (scheme & hostname & -> & Hs & Hh).
    rewrite (bool_decide_eq_true_2 _ Hs). cbn. by apply bool_decide_eq_true_2.
Qed.

Lemma truthy_str_spec field :
  truthy_str field = true <-> exists url, is_set field url.
Proof.
  unfold truthy_str, is_set. destruct field as [s|].
  - destruct (String.eqb_spec s ""); cbn; split.
    + discriminate.
    + intros (url & [= <-] & Hne). contradiction.
    + intros _. by exists s.
    + reflexivity.
  - split; [discriminate|]. intros (url & [=] & _).
Qed.

Lemma gate_passes field (allow : bool) :
  (allow = true \/ forall url, is_set field url -> local_url url) ->
  (if truthy_str field && negb allow
   then if negb (_is_local_http_url urlparse (default "" field))
        then @Raise unit (UnsafeTargetError "") else Ok tt
   else Ok tt) = Ok tt.
Proof.
  intros H. destruct (truthy_str field) eqn:Ht; [|reflexivity].
  destruct allow; [reflexivity|]. cbn.
  destruct H as [H|H]; [discriminate|].
  apply truthy_str_spec in Ht as (url & Hset).
  pose proof (H _ Hset) as Hl. apply is_local_http_url_spec in Hl.
  destruct Hset as [-> _]. cbn. by rewrite Hl.
Qed.

End ConfigFacts.

(** C6. [validate] raises [UnsafeTargetError] whenever the override is off
    and [benchmark_url] or [benchmark_http_url] is set to a URL that is not a
    local http/https URL (its host is not one of [localhost], [127.0.0.1],
    [0.0.0.0], [host.docker.internal], or its scheme is not [http] or
    [https], or it does not parse); it returns without raising when the
    override is on or every benchmark URL that is set is local. This holds
    for any [urlparse]. *)
Theorem validate_safety_gate (urlparse : string -> result (string * option string))
    (cfg : RuntimeConfig) :
  (allow_nonlocal_benchmark cfg = false ->
   (exists url, (is_set (benchmark_url cfg) url \/ is_set (benchmark_http_url cfg) url)
                /\ ~ local_url urlparse url) ->
   exists msg, validate urlparse cfg = Raise (UnsafeTargetError msg))
  /\ ((allow_nonlocal_benchmark cfg = true
       \/ forall url, is_set (benchmark_url cfg) url \/ is_set (benchmark_http_url cfg) url ->
                      local_url urlparse url) ->
      validate urlparse cfg = Ok tt).
Proof.
  split.
  - intros Hallow (url & Hset & Hnl).
    assert (Hf : _is_local_http_url urlparse url = false).
    { destruct (_is_local_http_url urlparse url) eqn:E; [|reflexivity].
      apply is_local_http_url_spec in E. contradiction. }
    assert (Hgate : forall field, is_set field url ->
              truthy_str field = true
              /\ _is_local_http_url urlparse (default "" field) = false).
    { intros field [-> Hne]. cbn.
      destruct (String.eqb_spec url ""); [contradiction|]. by split. }
    unfold validate. rewrite Hallow. cbn [negb]. rewrite !andb_true_r.
    destruct Hset as [Hs|Hs]; apply Hgate in Hs as [Ht Hl].
    + rewrite Ht, Hl. cbn. eauto.
    + destruct (truthy_str (benchmark_url cfg)).
      * destruct (_is_local_http_url urlparse (default "" (benchmark_url cfg))); cbn;
          [|eauto].
        rewrite Ht, Hl. cbn. eauto.
      * cbn. rewrite Ht, Hl. cbn. eauto.
  - intros H. unfold validate.
    assert (H1 : allow_nonlocal_benchmark cfg = true
                 \/ forall url, is_set (benchmark_url cfg) url -> local_url urlparse url)
      by (destruct H as [H|H]; [by left|right; intros; apply H; by left]).
    assert (H2 : allow_nonlocal_benchmark cfg = true
                 \/ forall url, is_set (benchmark_http_url cfg) url -> local_url urlparse url)
      by (destruct H as [H|H]; [by left|right; intros; apply H; by right]).
    pose proof (gate_passes urlparse _ _ H1) as G1.
    pose proof (gate_passes urlparse _ _ H2) as G2.
    destruct (truthy_str (benchmark_url cfg) && negb (allow_nonlocal_benchmark cfg)).
    + destruct (negb (_is_local_http_url urlparse (default "" (benchmark_url cfg))));
        [discriminate|]. cbn.
      destruct (truthy_str (benchmark_http_url cfg) && negb (allow_nonlocal_benchmark cfg));
        [|reflexivity].
      destruct (negb (_is_local_http_url urlparse (default "" (benchmark_http_url cfg))));
        [discriminate|reflexivity].
    + cbn.
      destruct (truthy_str (benchmark_http_url cfg) && negb (allow_nonlocal_benchmark cfg));
        [|reflexivity].
      destruct (negb (_is_local_http_url urlparse (default "" (benchmark_http_url cfg))));
        [discriminate|reflexivity].
Qed.

Lemma validate_safety_gate_witness :
  (exists msg,
     validate urlparse_plain (from_env {[ "BENCHMARK_URL" := "http://example.com" ]})
     = Raise (UnsafeTargetError msg))
  /\ validate urlparse_plain (from_env {[ "BENCHMARK_URL" := "http://127.0.0.1:3334" ]})
     = Ok tt.
Proof.
  split.
  - apply (proj1 (validate_safety_gate urlparse_plain
                    (from_env {[ "BENCHMARK_URL" := "http://example.com" ]}))).
    + vm_compute. reflexivity.
    + exists "http://example.com". split.
      * left. split; [vm_compute; reflexivity|discriminate].
      * intros (scheme & hostname & Hp & _ & Hh).
        vm_compute in Hp. injection Hp as <- <-.
        apply (proj2 (bool_decide_eq_true _)) in Hh.
        vm_compute in Hh. discriminate.
  - apply (proj2 (validate_safety_gate urlparse_plain
                    (from_env {[ "BENCHMARK_URL" := "http://127.0.0.1:3334" ]}))).
    right. intros url [[Hu _]|[Hu _]]; vm_compute in Hu; injection Hu as <-;
      exists "http", (Some "127.0.0.1");
      (split; [vm_compute; reflexivity|]);
      split; apply (proj1 (bool_decide_eq_true _)); vm_compute; reflexivity.
Defined.

(** The three configurations of the test suite: a local URL passes, a
    non-local one is blocked, and the override lets it pass. *)
Example validate_scenarios :
  validate urlparse_plain (from_env {[ "BENCHMARK_URL" := "http://127.0.0.1:3334" ]}) = Ok tt
  /\ is_UnsafeTargetError
       match validate urlparse_plain (from_env {[ "BENCHMARK_URL" := "http://example.com" ]}) with
       | Raise e => e
       | Ok _ => Break
       end = true
  /\ validate urlparse_plain
       (from_env (<[ "HALLIGAN_ALLOW_NONLOCAL_BENCHMARK" := "1" ]>
                    {[ "BENCHMARK_URL" := "http://example.com" ]})) = Ok tt.
Proof. vm_compute. auto. Qed.

(** ** Response parser *)

(** The third extraction position: the slice from the first opening brace
    to the last closing brace, when both exist in that order. *)
Definition brace_slice (raw : string) : option string :=
  let start := find "{" raw in
  let end_ := rfind "}" raw in
  if negb (Z.eqb start (-1)) && negb (Z.eqb end_ (-1)) && Z.ltb start end_
  then Some (slice raw start (end_ + 1))
  else None.

(** The second extraction position: the inner text of the first fenced
    block, trimmed. *)
Definition fenced_text (raw : string) : option string :=
  strip <$> fence_search raw.

(** A text that may be absent, as a list of at most one text. *)
Definition if_any (o : option string) : list string :=
  match o with
  | Some c => [c]
  | None => []
  end.

(** The three extraction positions of the specification, in order. *)
Definition positions (raw : string) : list string :=
  raw :: (if_any (fenced_text raw) ++ if_any (brace_slice raw))%list.

(** The positions the code decodes: the trimmed text, then the fenced block
    when there is one, and the brace slice only when there is none. *)
Definition tried (raw : string) : list string :=
  raw :: match fenced_text raw with
         | Some c => [c]
         | None => if_any (brace_slice raw)
         end.

(** The value of the first text of a list that decodes. *)
Fixpoint first_valid (json_loads : string -> result json) (cands : list string)
  : option json :=
  match cands with
  | [] => None
  | c :: cands' =>
      match json_loads c with
      | Ok v => Some v
      | Raise _ => first_valid json_loads cands'
      end
  end.

(** The result the specification promises on a non-empty trimmed text
    (property P1), and the result the code gives. *)
Definition parser_outcome (r : result json) (expected : option json) : Prop :=
  match expected with
  | Some v => r = Ok v
  | None => exists msg, r = Raise (ParseError msg)
  end.

(** C3, as stated, fails: the text below holds valid JSON at the third
    extraction position, so the first strategy that yields valid JSON is the
    brace slice; but its fenced block [{x}] does not decode, and the parser
    raises [ParseError] there without trying the slice. *)
Lemma fenced_failure_hides_brace_slice :
  let text := dq "here: {'a': '```{x}```'} done" in
  first_valid json_decode (positions (strip text))
    = Some (JObj [("a", JStr "```{x}```")])
  /\ (exists reason,
        parse_json_from_response json_decode (Some text)
        = Raise (ParseError ("Failed to parse fenced JSON: " +:+ reason)))
  /\ ~ parser_outcome (parse_json_from_response json_decode (Some text))
         (first_valid json_decode (positions (strip text))).
Proof.
  cbv zeta.
  assert (H1 : first_valid json_decode
                 (positions (strip (dq "here: {'a': '```{x}```'} done")))
               = Some (JObj [("a", JStr "```{x}```")])) by (vm_compute; reflexivity).
  assert (H2 : parse_json_from_response json_decode
                 (Some (dq "here: {'a': '```{x}```'} done"))
               = Raise (ParseError
                   "Failed to parse fenced JSON: Expecting property name enclosed in double quotes"))
    by (vm_compute; reflexivity).
  split; [exact H1|]. split; [eexists; exact H2|].
  rewrite H1, H2. cbn. discriminate.
Qed.

(** C3, amended. On [None] and on a text that is empty once trimmed the
    parser raises [ParseError]. Otherwise it returns the trimmed text's
    value when that decodes; failing that, when a fenced block matches, the
    block alone decides (its value, or [ParseError] if it does not decode);
    only when no fenced block matches is the slice from the first opening
    brace to the last closing brace decoded; and [ParseError] is raised when
    none of the texts tried decodes. This holds for any decoder. *)
Theorem parse_json_from_response_tried (json_loads : string -> result json)
    (text : string) :
  (exists msg, parse_json_from_response json_loads None = Raise (ParseError msg))
  /\ (strip text = "" ->
      exists msg, parse_json_from_response json_loads (Some text) = Raise (ParseError msg))
  /\ (strip text <> "" ->
      parser_outcome (parse_json_from_response json_loads (Some text))
                     (first_valid json_loads (tried (strip text)))).
Proof.
  split; [cbn; eauto|]. split.
  - intros H. unfold parse_json_from_response. rewrite H. cbn. eauto.
  - intros H. unfold parse_json_from_response, tried, fenced_text, brace_slice.
    cbv zeta.
    destruct (String.eqb_spec (strip text) ""); [contradiction|].
    cbn [first_valid].
    destruct (json_loads (strip text)) as [v|e]; [reflexivity|].
    destruct (fence_search (strip text)) as [g|]; cbn [fmap option_fmap option_map first_valid].
    + destruct (json_loads (strip g)); cbn; eauto.
    + destruct (negb (find "{" (strip text) =? -1)
                && negb (rfind "}" (strip text) =? -1)
                && (find "{" (strip text) <? rfind "}" (strip text)));
        cbn [if_any first_valid].
      * destruct (json_loads _); cbn; eauto.
      * cbn. eauto.
Qed.

Lemma parse_json_from_response_tried_witness :
  let fenced := "```json" +:+ nl +:+ dq "{'a': 1}" +:+ nl +:+ "```" in
  (strip "   " = ""
   /\ exists msg, parse_json_from_response json_decode (Some "   ") = Raise (ParseError msg))
  /\ (strip fenced <> ""
      /\ parser_outcome (parse_json_from_response json_decode (Some fenced))
                        (first_valid json_decode (tried (strip fenced)))).
Proof.
  cbv zeta. split.
  - split; [vm_compute; reflexivity|].
    apply (proj1 (proj2 (parse_json_from_response_tried json_decode "   "))).
    vm_compute. reflexivity.
  - split; [vm_compute; discriminate|].
    apply (proj2 (proj2 (parse_json_from_response_tried json_decode
                           ("```json" +:+ nl +:+ dq "{'a': 1}" +:+ nl +:+ "```")))).
    vm_compute. discriminate.
Defined.

(** The four parser tests of the test suite. *)
Example parse_scenarios :
  parse_json_from_response json_decode (Some (dq "{'a': 1}")) = Ok (JObj [("a", JInt 1)])
  /\ parse_json_from_response json_decode
       (Some ("```json" +:+ nl +:+ dq "{'a': 1}" +:+ nl +:+ "```"))
     = Ok (JObj [("a", JInt 1)])
  /\ parse_json_from_response json_decode
       (Some ("prefix" +:+ nl +:+ dq "{'a': 1}" +:+ nl +:+ "suffix"))
     = Ok (JObj [("a", JInt 1)])
  /\ parse_json_from_response json_decode (Some "no json here")
     = Raise (ParseError "No JSON object found in response").
Proof. vm_compute. auto. Qed.

(** ** Stage-2 applier *)

(** A tag that is present: [None] and the empty text are no tag. *)
Definition tag_list (tag : option string) : list string :=
  match tag with
  | Some t => if String.eqb t "" then [] else [t]
  | None => []
  end.

(** The tags a frame carries itself: its own and those of its elements. *)
Definition own_tags (f : Frame.t) : list string :=
  (tag_list (Frame.interactable f)
   ++ concat (map (fun el => tag_list (Element.interactable el)) (Frame.interactables f)))%list.

(** Every occurrence of a tag in the tree of a frame: the frame, its
    elements and, recursively, its subframes. *)
Fixpoint frame_tags (f : Frame.t) : list string :=
  (own_tags f ++ concat (map frame_tags (Frame.subframes f)))%list.

Definition forest_tags (frames : list Frame.t) : list string :=
  concat (map frame_tags frames).

(** The number of occurrences of [NEXT] in a list of tags. *)
Definition count_next (tags : list string) : Z :=
  Z.of_nat (length (filter (fun t => t = "NEXT") tags)).

(** The post-condition of Stage 2 (I1, P3): exactly one tag other than
    [NEXT] occurs in the tree, and [NEXT] occurs at most once. *)
Definition stage2_postcondition (frames : list Frame.t) : Prop :=
  (exists t, t <> "NEXT"
             /\ forall s, (s ∈ forest_tags frames /\ s <> "NEXT") <-> s = t)
  /\ count_next (forest_tags frames) <= 1.

Lemma count_next_app (a b : list string) :
  count_next (a ++ b) = count_next a + count_next b.
Proof. unfold count_next. rewrite filter_app, length_app. lia. Qed.

Lemma note_tag_spec tag (acc : gset string * Z) :
  note_tag tag acc
  = (acc.1 ∪ list_to_set (tag_list tag), acc.2 + count_next (tag_list tag)).
Proof.
  destruct acc as [types n]. unfold note_tag, tag_list, count_next.
  destruct tag as [t|]; cbn [fst snd].
  - destruct (String.eqb_spec t "").
    + cbn. apply pair_equal_spec. split; [set_solver|lia].
    + destruct (String.eqb_spec t "NEXT"); apply pair_equal_spec.
      * subst. rewrite filter_cons_True by reflexivity. cbn. split; [set_solver|lia].
      * rewrite filter_cons_False by assumption. cbn. split; [set_solver|lia].
  - cbn. apply pair_equal_spec. split; [set_solver|lia].
Qed.

Lemma visit_elements_spec (els : list Element.t) (acc : gset string * Z) :
  fold_left (fun acc el => note_tag (Element.interactable el) acc) els acc
  = (acc.1 ∪ list_to_set (concat (map (fun el => tag_list (Element.interactable el)) els)),
     acc.2 + count_next (concat (map (fun el => tag_list (Element.interactable el)) els))).
Proof.
  revert acc. induction els as [|el els IH]; intros [types n]; cbn.
  - apply pair_equal_spec. split; [set_solver|unfold count_next; cbn; lia].
  - rewrite IH, note_tag_spec. cbn. rewrite count_next_app, list_to_set_app_L.
    apply pair_equal_spec. split; [set_solver|lia].
Qed.

Lemma visit_frame_spec (f : Frame.t) (acc : gset string * Z) :
  visit_frame f acc
  = (acc.1 ∪ list_to_set (own_tags f), acc.2 + count_next (own_tags f)).
Proof.
  unfold visit_frame, own_tags. rewrite visit_elements_spec, note_tag_spec. cbn.
  rewrite count_next_app, list_to_set_app_L.
  apply pair_equal_spec. split; [set_solver|lia].
Qed.

Lemma forest_tags_app (a b : list Frame.t) :
  forest_tags (a ++ b) = (forest_tags a ++ forest_tags b)%list.
Proof. unfold forest_tags. by rewrite map_app, concat_app. Qed.

(** The breadth-first walk collects the tags of the tree: the set of those
    that occur, and the number of occurrences of [NEXT]. *)
Lemma collect_loop_spec (queue : list Frame.t) (acc : gset string * Z) :
  collect_loop queue acc
  = (acc.1 ∪ list_to_set (forest_tags queue), acc.2 + count_next (forest_tags queue)).
Proof.
  funelim (collect_loop queue acc).
  - destruct acc as [types n]. cbn.
    apply pair_equal_spec. split; [set_solver|unfold count_next; cbn; lia].
  - rewrite H. rewrite visit_frame_spec. cbn [fst snd].
    rewrite forest_tags_app.
    assert (Hf : forest_tags (frame :: queue)
                 = (own_tags frame ++ forest_tags (Frame.subframes frame)
                    ++ forest_tags queue)%list).
    { unfold forest_tags at 1. cbn [map concat]. destruct frame; cbn.
      unfold forest_tags. by rewrite <- app_assoc. }
    rewrite Hf. rewrite !count_next_app, !list_to_set_app_L.
    apply pair_equal_spec. split; [set_solver|lia].
Qed.

Lemma collect_interactables_spec (frames : list Frame.t) :
  _collect_interactables frames
  = (list_to_set (forest_tags frames), count_next (forest_tags frames)).
Proof.
  unfold _collect_interactables. rewrite collect_loop_spec. cbn.
  apply pair_equal_spec. split; [set_solver|lia].
Qed.

Lemma one_non_next_spec (tags : list string) :
  size (filter (fun t => t <> "NEXT") (list_to_set tags : gset string)) = 1%nat
  <-> exists t, t <> "NEXT" /\ forall s, (s ∈ tags /\ s <> "NEXT") <-> s = t.
Proof.
  split.
  - intros Hsize. apply size_1_elem_of in Hsize as [t Ht].
    exists t. assert (Hin : forall s, s ∈ filter (fun t => t <> "NEXT")
                                       (list_to_set tags : gset string) <-> s = t).
    { intros s. rewrite Ht. set_solver. }
    split.
    + pose proof (proj2 (Hin t) eq_refl) as Hx.
      apply elem_of_filter in Hx. tauto.
    + intros s. rewrite <- Hin, elem_of_filter, elem_of_list_to_set. tauto.
  - intros (t & Hne & Ht).
    assert (Heq : filter (fun t => t <> "NEXT") (list_to_set tags : gset string) = {[ t ]}).
    { apply set_eq. intros s.
      rewrite elem_of_filter, elem_of_list_to_set, elem_of_singleton.
      rewrite <- Ht. tauto. }
    rewrite Heq. apply size_singleton.
Qed.

(** The closing check passes exactly when the post-condition holds, and
    otherwise raises a [ValidationError]; it never changes the frames. *)
Lemma post_validate_spec (frames : list Frame.t) :
  (post_validate frames = (Ok tt, frames) <-> stage2_postcondition frames)
  /\ (post_validate frames = (Ok tt, frames)
      \/ exists msg, post_validate frames = (Raise (ValidationError msg), frames)).
Proof.
  unfold post_validate, mbind, get_state, stage2_postcondition.
  rewrite collect_interactables_spec.
  pose proof (one_non_next_spec (forest_tags frames)) as Hone.
  destruct (Nat.eqb_spec
              (size (filter (fun t => t <> "NEXT")
                       (list_to_set (forest_tags frames) : gset string))) 1) as [Hs|Hs];
    cbn [negb].
  - destruct (Z.ltb_spec 1 (count_next (forest_tags frames))) as [Hn|Hn].
    + split; [|right; unfold raise; eauto].
      split; [discriminate|]. intros [_ Hle]. lia.
    + split; [|by left]. split; [|reflexivity].
      intros _. split; [by apply Hone|assumption].
  - split; [|right; unfold raise; eauto].
    split; [discriminate|]. intros [Hex _]. apply Hone in Hex. contradiction.
Qed.

(** C1. If [apply_stage2_plan] returns without raising, the tags collected
    over every frame, its elements and, recursively, its subframes contain
    exactly one tag other than [NEXT], and [NEXT] occurs at most once in the
    whole tree; and if the actions all apply but the tree they leave does
    not satisfy this, [apply_stage2_plan] raises a [ValidationError]. A
    missing or empty tag is no tag. This holds for every plan, validated or
    not. *)
Theorem apply_stage2_plan_postcondition (frames : list Frame.t) (plan : Stage2Plan)
    (frames' : list Frame.t) :
  (apply_stage2_plan frames plan = (Ok tt, frames') -> stage2_postcondition frames')
  /\ (for_each (actions plan) apply_action frames = (Ok tt, frames') ->
      ~ stage2_postcondition frames' ->
      exists msg, apply_stage2_plan frames plan = (Raise (ValidationError msg), frames')).
Proof.
  unfold apply_stage2_plan, mbind.
  destruct (post_validate_spec frames') as [Hiff Hcases].
  split.
  - destruct (for_each (actions plan) apply_action frames) as [[[]|e] fs] eqn:E;
      [|discriminate].
    intros Hpost.
    destruct (post_validate_spec fs) as [Hiff' [Hok|(msg & Hr)]].
    + rewrite Hok in Hpost. injection Hpost as <-. by apply Hiff'.
    + rewrite Hr in Hpost. discriminate.
  - intros -> Hnot. destruct Hcases as [Hok|Hr]; [|exact Hr].
    apply Hiff in Hok. contradiction.
Qed.

(** A plan that tags the only frame, and the plan of the test suite: split
    into four [SELECTABLE] subframes, then a grid of four [SWAPPABLE]
    elements. *)
Definition plan_one_tag : Stage2Plan :=
  {| actions := [ {| type := "set_frame";
                     payload := [("frame", JInt 0); ("interactable", JStr "CLICKABLE")] |} ] |}.

Definition plan_two_tags : Stage2Plan :=
  {| actions := [ {| type := "split_frame";
                     payload := [("frame", JInt 0); ("rows", JInt 2); ("columns", JInt 2);
                                 ("mark_as", JStr "SELECTABLE")] |};
                  {| type := "grid_frame";
                     payload := [("frame", JInt 0); ("tiles", JInt 4);
                                 ("mark_as", JStr "SWAPPABLE")] |} ] |}.

Lemma apply_stage2_plan_postcondition_witness :
  (apply_stage2_plan [blank_frame] plan_one_tag
     = (Ok tt, (apply_stage2_plan [blank_frame] plan_one_tag).2)
   /\ stage2_postcondition (apply_stage2_plan [blank_frame] plan_one_tag).2)
  /\ (for_each (actions plan_two_tags) apply_action [blank_frame]
        = (Ok tt, (apply_stage2_plan [blank_frame] plan_two_tags).2)
      /\ ~ stage2_postcondition (apply_stage2_plan [blank_frame] plan_two_tags).2
      /\ exists msg, apply_stage2_plan [blank_frame] plan_two_tags
                     = (Raise (ValidationError msg),
                        (apply_stage2_plan [blank_frame] plan_two_tags).2)).
Proof.
  assert (Hnot : ~ stage2_postcondition (apply_stage2_plan [blank_frame] plan_two_tags).2).
  { intros Hp. apply (proj1 (post_validate_spec _)) in Hp.
    vm_compute in Hp. discriminate. }
  split.
  - split; [vm_compute; reflexivity|].
    apply (proj1 (apply_stage2_plan_postcondition [blank_frame] plan_one_tag _)).
    vm_compute. reflexivity.
  - split; [vm_compute; reflexivity|]. split; [exact Hnot|].
    apply (proj2 (apply_stage2_plan_postcondition [blank_frame] plan_two_tags _)).
    + vm_compute. reflexivity.
    + exact Hnot.
Defined.

(** The Stage-2 test of the test suite: two tags other than [NEXT] are
    rejected. *)
Example stage2_two_tags_rejected :
  (apply_stage2_plan [blank_frame] plan_two_tags).1
  = Raise (ValidationError
      "Stage 2 must result in exactly one non-NEXT interactable type (found: ['SELECTABLE', 'SWAPPABLE'])").
Proof. vm_compute. reflexivity. Qed.

(** ** Stage-3 interpreter *)

(** [c] keeps the property [P] of the state, whatever it returns. *)
Definition preserves {S A} (P : S -> Prop) (c : M S A) : Prop :=
  forall s r s', P s -> c s = (r, s') -> P s'.

Section Preserves.

Context {S : Type} (P : S -> Prop).

Lemma pres_ret {A} (a : A) : preserves P (ret a).
Proof. intros s r s' HP [= <- <-]. exact HP. Qed.

Lemma pres_raise {A} (e : exn) : preserves P (@raise S A e).
Proof. intros s r s' HP [= <- <-]. exact HP. Qed.

Lemma pres_lift {A} (x : result A) : preserves P (@lift S A x).
Proof. intros s r s' HP [= <- <-]. exact HP. Qed.

Lemma pres_get_state : preserves P (@get_state S).
Proof. intros s r s' HP [= <- <-]. exact HP. Qed.

Lemma pres_modify (f : S -> S) : (forall s, P s -> P (f s)) -> preserves P (modify f).
Proof. intros Hf s r s' HP [= <- <-]. by apply Hf. Qed.

Lemma pres_bind {A B} (c : M S A) (k : A -> M S B) :
  preserves P c -> (forall a, preserves P (k a)) -> preserves P (mbind c k).
Proof.
  intros Hc Hk s r s' HP. unfold mbind.
  destruct (c s) as [[a|e] s1] eqn:E.
  - intros Hr. eapply Hk; [|exact Hr]. eapply Hc; eauto.
  - intros [= <- <-]. eapply Hc; eauto.
Qed.

Lemma pres_try {A} (c : M S A) (handles : exn -> bool) (h : exn -> M S A) :
  preserves P c -> (forall e, preserves P (h e)) -> preserves P (try_except c handles h).
Proof.
  intros Hc Hh s r s' HP. unfold try_except.
  destruct (c s) as [[a|e] s1] eqn:E.
  - intros [= <- <-]. eapply Hc; eauto.
  - destruct (handles e).
    + intros Hr. eapply Hh; [|exact Hr]. eapply Hc; eauto.
    + intros [= <- <-]. eapply Hc; eauto.
Qed.

Lemma pres_for_each {A} (l : list A) (body : A -> M S unit) :
  (forall x, preserves P (body x)) -> preserves P (for_each l body).
Proof.
  intros Hb. induction l as [|x l IH]; cbn [for_each].
  - apply pres_ret.
  - apply pres_bind; [apply Hb|intros _; exact IH].
Qed.

End Preserves.

(** What the trace of a run may hold: a tool call only under a registered
    name, a method call of a [call_method] step only for a pair of the
    allowlist, an attribute read of [attr] or [map_attr] only under a name
    that does not begin with two underscores. The selector calls of the
    reference forms ([get_interactable], [get_keypoint], [get_neighbour])
    are fixed by the interpreter. *)
Definition event_allowed (registry : ToolRegistry.t) (ev : event) : Prop :=
  match ev with
  | EvTool tool_name => is_Some (ToolRegistry.get registry tool_name)
  | EvMethod cls method =>
      exists allowed, _ALLOWED_METHODS !! cls = Some allowed /\ method ∈ allowed
  | EvGetattr name => starts_with "__" name = false
  | EvSelector _ _ => True
  end.

Definition trace_allowed {W} (registry : ToolRegistry.t) (st : state W) : Prop :=
  Forall (event_allowed registry) (trace st).

Section Stage3Facts.

Context (W : Type).
Context (getattr_ : value -> string -> W -> result value * W).
Context (call_ : value -> list value -> list (string * value) -> W -> result value * W).
Context (iter_ : value -> W -> result (list value) * W).
Context (sum_ : value -> result value).
Context (truth_ : value -> bool).
Context (registry : ToolRegistry.t) (frames : list value).

Local Abbreviation eval := (_eval_expr W getattr_ call_ iter_ sum_).
Local Abbreviation run := (run_steps W getattr_ call_ iter_ sum_ truth_ registry frames).
Local Abbreviation ok := (trace_allowed registry).

Lemma pres_emit (ev : event) : event_allowed registry ev -> preserves ok (emit W ev).
Proof.
  intros Hev. apply pres_modify. intros st Hst. unfold trace_allowed in *. cbn.
  apply Forall_app. split; [exact Hst|]. by constructor.
Qed.

Lemma pres_ask {A} (f : W -> result A * W) : preserves ok (ask W f).
Proof.
  intros st r st' Hst. unfold ask. destruct (f (world st)) as [r0 w].
  intros [= <- <-]. exact Hst.
Qed.

Lemma pres_env_set (name : string) (v : value) : preserves ok (env_set W name v).
Proof. apply pres_modify. intros st Hst. exact Hst. Qed.

Lemma pres_map_m {A B} (f : A -> M (state W) B) (l : list A) :
  (forall x, preserves ok (f x)) -> preserves ok (map_m W f l).
Proof.
  intros Hf. induction l as [|x l IH]; cbn [map_m].
  - apply pres_ret.
  - apply pres_bind; [apply Hf|intros y].
    apply pres_bind; [exact IH|intros ys; apply pres_ret].
Qed.

Lemma pres_foreach_loop (body : M (state W) unit) (var : string) (l : list value) :
  preserves ok body -> preserves ok (foreach_loop W body var l).
Proof.
  intros Hb. induction l as [|x l IH]; cbn [foreach_loop].
  - apply pres_ret.
  - apply pres_bind; [apply pres_env_set|intros _].
    apply pres_bind; [exact Hb|intros _; exact IH].
Qed.

Ltac pres_step :=
  first
    [ apply pres_ret | apply pres_raise | apply pres_lift | apply pres_get_state
    | apply pres_ask | apply pres_env_set
    | apply pres_bind; [|intros ?]
    | apply pres_try; [|intros ?]
    | match goal with
      | |- preserves _ (match ?x with _ => _ end) => destruct x eqn:?
      | |- preserves _ (if ?b then _ else _) => destruct b eqn:?
      end
    | assumption ].

Ltac pres_auto := repeat pres_step.

Lemma pres_invoke obj method args :
  preserves ok (invoke W getattr_ call_ obj method args).
Proof. unfold invoke. pres_auto. Qed.

Lemma pres_hasattr obj name : preserves ok (hasattr W getattr_ obj name).
Proof. unfold hasattr. pres_auto. Qed.

Lemma pres_iterate items : preserves ok (iterate W iter_ items).
Proof. unfold iterate. pres_auto. Qed.

Lemma pres_subscript lst i idx : preserves ok (subscript W getattr_ call_ lst i idx).
Proof. unfold subscript. pres_auto; apply pres_invoke. Qed.

Lemma pres_py_len v : preserves ok (py_len W getattr_ call_ v).
Proof. unfold py_len. pres_auto; apply pres_invoke. Qed.

Lemma pres_py_sum v : preserves ok (py_sum W sum_ v).
Proof. unfold py_sum. pres_auto. Qed.

Lemma pres_frame_ref frame_id : preserves ok (frame_ref W frames frame_id).
Proof. unfold frame_ref. pres_auto. Qed.

Lemma pres_save_result what step result :
  preserves ok (save_result W what step result).
Proof. unfold save_result. pres_auto. Qed.

(** Evaluating an expression keeps the trace within what is allowed: the
    attribute reads of [attr] and [map_attr] come after the test on the
    name. *)
Lemma pres_eval_dict (ev : json -> M (state W) value) expr :
  (forall e, preserves ok (ev e)) ->
  preserves ok (eval_dict W getattr_ call_ iter_ sum_ ev frames expr).
Proof.
  intros Hev. unfold eval_dict.
  repeat first
    [ pres_step
    | apply Hev | apply pres_frame_ref | apply pres_invoke | apply pres_hasattr
    | apply pres_subscript | apply pres_py_len | apply pres_py_sum
    | apply pres_iterate
    | apply pres_map_m; intros ?
    | apply pres_emit; cbn; solve [trivial | assumption] ].
Qed.

Lemma pres_eval fuel expr : preserves ok (eval fuel frames expr).
Proof.
  revert expr. induction fuel as [|fuel IH]; intros expr; cbn [_eval_expr].
  - apply pres_raise.
  - destruct expr; try apply pres_ret.
    + apply pres_bind; [apply pres_map_m; intros x; apply IH|intros vs; apply pres_ret].
    + apply pres_eval_dict. exact IH.
Qed.

Lemma pres_eval_args (ev : json -> M (state W) value) args_obj :
  (forall e, preserves ok (ev e)) -> preserves ok (eval_args W ev args_obj).
Proof.
  intros Hev. unfold eval_args. apply pres_map_m. intros kv.
  apply pres_bind; [apply Hev|intros v; apply pres_ret].
Qed.

(** The allowlist test, spelled out. *)
Lemma ensure_allowed_method_spec obj method (st : state W) :
  (exists allowed, _ALLOWED_METHODS !! _class_name obj = Some allowed /\ method ∈ allowed)
  /\ _ensure_allowed_method W obj method st = (Ok tt, st)
  \/ (~ (exists allowed, _ALLOWED_METHODS !! _class_name obj = Some allowed
                         /\ method ∈ allowed))
     /\ _ensure_allowed_method W obj method st
        = (Raise (ToolError ("Method not allowed: " +:+ _class_name obj +:+ "." +:+ method)),
           st).
Proof.
  unfold _ensure_allowed_method.
  destruct (_ALLOWED_METHODS !! _class_name obj) as [allowed|] eqn:E; simpl.
  - destruct (bool_decide (method ∈ allowed)) eqn:Hb; simpl.
    + left. apply bool_decide_eq_true in Hb. split; [eauto|reflexivity].
    + right. apply bool_decide_eq_false in Hb. split; [|reflexivity].
      intros (a & [= <-] & Hin). contradiction.
  - right. split.
    + intros (a & [=] & _).
    + match goal with |- context [bool_decide ?Q] => destruct (bool_decide Q) eqn:Hb end;
        [|reflexivity].
      apply bool_decide_eq_true in Hb. set_solver.
Qed.

Lemma pres_guarded_method {A} obj method (k : M (state W) A) :
  preserves ok k ->
  preserves ok (mbind (_ensure_allowed_method W obj method) (fun _ =>
                mbind (emit W (EvMethod (_class_name obj) method)) (fun _ => k))).
Proof.
  intros Hk st r st' Hst. unfold mbind at 1.
  destruct (ensure_allowed_method_spec obj method st) as [[Hal ->]|[_ ->]].
  - revert st r st' Hst. apply pres_bind; [by apply pres_emit|intros _; exact Hk].
  - intros [= <- <-]. exact Hst.
Qed.

Lemma pres_run_step (ev : json -> M (state W) value)
    (rs : list json -> M (state W) unit) step :
  (forall e, preserves ok (ev e)) -> (forall body, preserves ok (rs body)) ->
  preserves ok (run_step W getattr_ call_ truth_ registry ev rs step).
Proof.
  intros Hev Hrs. unfold run_step.
  repeat first
    [ apply pres_guarded_method
    | pres_step
    | apply Hev | apply Hrs | apply pres_save_result
    | apply pres_eval_args; exact Hev
    | apply pres_foreach_loop
    | apply pres_emit; cbn; solve [eauto] ].
Qed.

Lemma pres_run fuel steps : preserves ok (run fuel steps).
Proof.
  revert steps. induction fuel as [|fuel IH]; intros steps; cbn [run_steps].
  - apply pres_raise.
  - apply pres_for_each. intros step.
    apply pres_run_step; [intros e; apply pres_eval|exact IH].
Qed.

(** An unregistered tool name stops a [call] step with a [ToolError] and
    leaves the state as it was: nothing was evaluated or invoked. *)
Lemma call_unregistered (ev : json -> M (state W) value)
    (rs : list json -> M (state W) unit) step tool_name (st : state W) :
  field_is step "op" "call" = true ->
  get step "tool" = JStr tool_name ->
  ToolRegistry.get registry tool_name = None ->
  run_step W getattr_ call_ truth_ registry ev rs (JObj step) st
  = (Raise (ToolError ("Tool not allowed: " +:+ tool_name)), st).
Proof. intros Hop Htool Hreg. unfold run_step. rewrite Hop, Htool, Hreg. reflexivity. Qed.

(** A pair outside the allowlist stops a [call_method] step with a
    [ToolError] once the target is evaluated: the state is the one the
    evaluation of the target left, no attribute of the target was read and
    nothing was called. *)
Lemma call_method_not_allowed (ev : json -> M (state W) value)
    (rs : list json -> M (state W) unit) step method target (st st1 : state W) :
  field_is step "op" "call" = false ->
  field_is step "op" "call_method" = true ->
  get step "method" = JStr method -> method <> "" ->
  ev (get step "target") st = (Ok target, st1) ->
  ~ (exists allowed, _ALLOWED_METHODS !! _class_name target = Some allowed
                     /\ method ∈ allowed) ->
  run_step W getattr_ call_ truth_ registry ev rs (JObj step) st
  = (Raise (ToolError ("Method not allowed: " +:+ _class_name target +:+ "." +:+ method)),
     st1).
Proof.
  intros Hc Hop Hm Hne Hev Hnot. unfold run_step. rewrite Hc, Hop.
  unfold mbind at 1. rewrite Hev, Hm.
  destruct (String.eqb_spec method ""); [contradiction|].
  unfold mbind at 1.
  destruct (ensure_allowed_method_spec target method st1) as [[Hal _]|[_ ->]];
    [contradiction|reflexivity].
Qed.

(** A name that begins with two underscores stops [attr] and [map_attr]
    with a [ToolError] after their operand is evaluated, before any
    attribute is read. *)
Lemma dunder_refused (ev : json -> M (state W) value) expr name obj (st st1 : state W) :
  dict_get "var" expr = None ->
  starts_with "__" name = true ->
  (field_is expr "ref" "attr" = true /\ get expr "name" = JStr name
   /\ ev (get expr "obj") st = (Ok obj, st1)
   \/ dict_get "ref" expr = None /\ field_is expr "op" "map_attr" = true
      /\ get expr "attr" = JStr name /\ ev (get expr "list") st = (Ok obj, st1)) ->
  exists msg,
    eval_dict W getattr_ call_ iter_ sum_ ev frames expr st = (Raise (ToolError msg), st1).
Proof.
  intros Hvar Hdu Hcase. unfold eval_dict. rewrite Hvar.
  destruct Hcase as [(Ha & Hn & Hev)|(Hr & Hop & Hn & Hev)].
  - assert (Hstr : forall b, "attr" <> b -> field_is expr "ref" b = false).
    { intros b Hab. unfold field_is in *. destruct (get expr "ref"); try discriminate.
      apply String.eqb_eq in Ha. subst. by apply String.eqb_neq. }
    rewrite !Hstr by discriminate.
    rewrite Ha. unfold mbind at 1. rewrite Hev, Hn, Hdu. unfold raise. eauto.
  - assert (Hstr : forall b, field_is expr "ref" b = false).
    { intros b. unfold field_is, get. by rewrite Hr. }
    rewrite !Hstr, Hop. unfold mbind at 1. rewrite Hev, Hn, Hdu. unfold raise. eauto.
Qed.


End Stage3Facts.


(** The two interpreter tests of the test suite: registered tools run and
    bind their results; an unknown tool is refused. *)
Example stage3_scenarios :
  let call_echo v out :=
    JObj [("op", JStr "call"); ("tool", JStr "echo"); ("args", JObj [("value", v)]);
          ("save_as", JStr out)] in
  let run p :=
    execute_stage3_program nat no_getattr echo_call no_iter no_sum all_true
      [VObj "Frame" 0] {| steps := p |} echo_registry O in
  run [call_echo (JInt 123) "out"; call_echo (JObj [("var", JStr "out")]) "out2"]
    = (Ok tt, {| env := [("out", VInt 123); ("out2", VInt 123)]; world := 2%nat;
                 trace := [EvTool "echo"; EvTool "echo"] |})
  /\ run [JObj [("op", JStr "call"); ("tool", JStr "nope"); ("args", JObj [])]]
     = (Raise (ToolError "Tool not allowed: nope"),
        {| env := []; world := O; trace := [] |}).
Proof. vm_compute. auto. Qed.

(** ** Loops of the Stage-3 statement runner *)

Lemma field_is_unique (o : list (string * json)) (key a b : string) :
  field_is o key a = true -> a <> b -> field_is o key b = false.
Proof.
  unfold field_is. destruct (get o key); try discriminate.
  intros Ha Hab. apply String.eqb_eq in Ha. subst. by apply String.eqb_neq.
Qed.

Section LoopFacts.

Context (W : Type).
Context (getattr_ : value -> string -> W -> result value * W).
Context (call_ : value -> list value -> list (string * value) -> W -> result value * W).
Context (truth_ : value -> bool).
Context (registry : ToolRegistry.t).

(** [env[var] = item] on the shared environment. *)
Definition bind_var (var : string) (item : value) (st : state W) : state W :=
  {| env := dict_set var item (env st); world := world st; trace := trace st |}.

(** What the specification says of a [foreach] over the elements of a list:
    the body runs once per element, in order, with the loop variable bound
    in the one environment; a [break] in the body ends the loop, which then
    completes normally; any other exception of the body ends the loop and
    propagates. *)
Inductive iterates (body : M (state W) unit) (var : string)
  : list value -> state W -> result unit * state W -> Prop :=
| iterates_done st :
    iterates body var [] st (Ok tt, st)
| iterates_next item rest st st1 out :
    body (bind_var var item st) = (Ok tt, st1) ->
    iterates body var rest st1 out ->
    iterates body var (item :: rest) st out
| iterates_break item rest st st1 :
    body (bind_var var item st) = (Raise Break, st1) ->
    iterates body var (item :: rest) st (Ok tt, st1)
| iterates_raise item rest st e st1 :
    body (bind_var var item st) = (Raise e, st1) ->
    is_Break e = false ->
    iterates body var (item :: rest) st (Raise e, st1).

Lemma foreach_loop_iterates (body : M (state W) unit) var items (st : state W) :
  iterates body var items st
    (try_except (foreach_loop W body var items) is_Break (fun _ => ret tt) st).
Proof.
  revert st. induction items as [|item rest IH]; intros st.
  - constructor.
  - unfold try_except. cbn [foreach_loop]. unfold mbind at 1. unfold env_set at 1.
    unfold modify at 1. fold (bind_var var item st). unfold mbind at 1.
    destruct (body (bind_var var item st)) as [[[]|e] st1] eqn:Eb.
    + eapply iterates_next; [exact Eb|].
      specialize (IH st1). unfold try_except in IH. exact IH.
    + destruct (is_Break e) eqn:Hb.
      * destruct e; try discriminate. by apply iterates_break.
      * by apply iterates_raise.
Qed.

Lemma iterates_no_break (body : M (state W) unit) var items (st : state W) out :
  iterates body var items st out -> out.1 <> Raise Break.
Proof.
  induction 1; cbn; try discriminate; try assumption.
  intros [= ->]. discriminate.
Qed.

(** C8. A [foreach] step whose [in] expression evaluates to something that
    is not a list raises a [ToolError]. When it evaluates to a list, the
    step runs its [do] body once per element with the loop variable bound
    in the shared environment, a [break] in the body ends this loop and
    the step completes normally, so that the step itself never raises
    [_Break]: an enclosing [foreach] goes on with its next steps and
    elements. *)
Theorem foreach_step (ev : json -> M (state W) value)
    (rs : list json -> M (state W) unit) step var iterable (st st1 : state W) :
  field_is step "op" "foreach" = true ->
  get step "var" = JStr var -> var <> "" ->
  ev (get step "in") st = (Ok iterable, st1) ->
  ((forall items, iterable <> VList items) ->
   run_step W getattr_ call_ truth_ registry ev rs (JObj step) st
   = (Raise (ToolError "foreach.in must evaluate to a list"), st1))
  /\ (forall items body,
        iterable = VList items ->
        get_or step "do" (JList []) = JList body ->
        iterates (rs body) var items st1
          (run_step W getattr_ call_ truth_ registry ev rs (JObj step) st)
        /\ (run_step W getattr_ call_ truth_ registry ev rs (JObj step) st).1
           <> Raise Break).
Proof.
  intros Hop Hvar Hne Hev.
  assert (Hrun : run_step W getattr_ call_ truth_ registry ev rs (JObj step) st
                 = match iterable with
                   | VList iterable =>
                       match as_list (get_or step "do" (JList [])) with
                       | Some body =>
                           try_except (foreach_loop W (rs body) var iterable)
                                      is_Break (fun _ => ret tt) st1
                       | None => (Raise (ToolError "foreach.do must be a list of steps"), st1)
                       end
                   | _ => (Raise (ToolError "foreach.in must evaluate to a list"), st1)
                   end).
  { unfold run_step.
    rewrite (field_is_unique _ _ _ "call" Hop), (field_is_unique _ _ _ "call_method" Hop),
      (field_is_unique _ _ _ "assign" Hop) by discriminate.
    rewrite Hop, Hvar. destruct (String.eqb_spec var ""); [contradiction|].
    unfold mbind at 1. rewrite Hev.
    destruct iterable; try reflexivity.
    destruct (as_list _); reflexivity. }
  split.
  - intros Hnot. rewrite Hrun. destruct iterable; try reflexivity.
    exfalso. by eapply Hnot.
  - intros items body -> Hbody. rewrite Hrun, Hbody. cbn [as_list].
    pose proof (foreach_loop_iterates (rs body) var items st1) as Hit.
    split; [exact Hit|]. by eapply iterates_no_break.
Qed.

End LoopFacts.

(** Two nested loops: the inner one calls [echo] and breaks at its first
    element; the outer one then assigns and goes on with its next element. *)
Definition inner_loop : json :=
  JObj [("op", JStr "foreach"); ("var", JStr "y"); ("in", JList [JInt 10; JInt 20]);
        ("do", JList [JObj [("op", JStr "call"); ("tool", JStr "echo");
                            ("args", JObj [("value", JObj [("var", JStr "y")])])];
                      step_break])].

Definition outer_body : list json :=
  [inner_loop;
   JObj [("op", JStr "assign"); ("var", JStr "z"); ("value", JObj [("var", JStr "x")])]].

Definition outer_loop : list (string * json) :=
  [("op", JStr "foreach"); ("var", JStr "x"); ("in", JList [JInt 1; JInt 2]);
   ("do", JList outer_body)].

Lemma foreach_step_witness :
  let ev := _eval_expr nat no_getattr echo_call no_iter no_sum 5 [] in
  let rs := run_steps nat no_getattr echo_call no_iter no_sum all_true echo_registry [] 5 in
  let st := {| env := []; world := O; trace := [] |} in
  let not_a_list := [("op", JStr "foreach"); ("var", JStr "x"); ("in", JInt 5)] in
  run_step nat no_getattr echo_call all_true echo_registry ev rs (JObj not_a_list) st
    = (Raise (ToolError "foreach.in must evaluate to a list"), st)
  /\ (iterates nat (rs outer_body) "x" [VInt 1; VInt 2] st
        (run_step nat no_getattr echo_call all_true echo_registry ev rs (JObj outer_loop) st)
      /\ (run_step nat no_getattr echo_call all_true echo_registry ev rs
            (JObj outer_loop) st).1 <> Raise Break)
  /\ run_step nat no_getattr echo_call all_true echo_registry ev rs (JObj outer_loop) st
     = (Ok tt, {| env := [("x", VInt 2); ("y", VInt 10); ("z", VInt 2)]; world := 2%nat;
                  trace := [EvTool "echo"; EvTool "echo"] |}).
Proof.
  cbv zeta. split; [|split].
  - apply (proj1 (foreach_step nat no_getattr echo_call all_true echo_registry
                    _ _ [("op", JStr "foreach"); ("var", JStr "x"); ("in", JInt 5)]
                    "x" (VInt 5) _ _ eq_refl eq_refl ltac:(discriminate) eq_refl)).
    intros items. discriminate.
  - apply (proj2 (foreach_step nat no_getattr echo_call all_true echo_registry
                    _ _ outer_loop "x" (VList [VInt 1; VInt 2]) _ _
                    eq_refl eq_refl ltac:(discriminate) eq_refl));
      reflexivity.
  - vm_compute. reflexivity.
Defined.

(** ** The nesting budget of the interpreter is enough *)

Lemma mbind_ext {S A B} (c1 c2 : M S A) (k1 k2 : A -> M S B) (s : S) :
  c1 s = c2 s -> (forall a s', k1 a s' = k2 a s') -> mbind c1 k1 s = mbind c2 k2 s.
Proof.
  intros Hc Hk. unfold mbind. rewrite Hc.
  destruct (c2 s) as [[a|e] s']; [apply Hk|reflexivity].
Qed.

Lemma try_except_ext {S A} (c1 c2 : M S A) handles (h1 h2 : exn -> M S A) (s : S) :
  c1 s = c2 s -> (forall e s', h1 e s' = h2 e s') ->
  try_except c1 handles h1 s = try_except c2 handles h2 s.
Proof.
  intros Hc Hh. unfold try_except. rewrite Hc.
  destruct (c2 s) as [[a|e] s']; [reflexivity|].
  destruct (handles e); [apply Hh|reflexivity].
Qed.

Lemma for_each_ext {S A} (l : list A) (b1 b2 : A -> M S unit) :
  (forall x, x ∈ l -> forall s, b1 x s = b2 x s) ->
  forall s, for_each l b1 s = for_each l b2 s.
Proof.
  induction l as [|x l IH]; intros Hb s; [reflexivity|].
  cbn [for_each]. apply mbind_ext.
  - apply Hb. by left.
  - intros _ s'. apply IH. intros y Hy. apply Hb. by right.
Qed.

Lemma json_depth_elem (x : json) (l : list json) :
  x ∈ l -> (json_depth x < json_depth (JList l))%nat.
Proof.
  intros Hx. cbn [json_depth]. apply Nat.lt_succ_r.
  induction Hx as [x l|x y l Hx IH]; simpl; lia.
Qed.

Lemma json_depth_field (k : string) (v : json) (o : list (string * json)) :
  (k, v) ∈ o -> (json_depth v < json_depth (JObj o))%nat.
Proof.
  intros Hx. cbn [json_depth]. apply Nat.lt_succ_r.
  induction o as [|kv o IH]; [by apply elem_of_nil in Hx|].
  apply elem_of_cons in Hx as [<-|Hx]; simpl; [lia|].
  specialize (IH Hx). lia.
Qed.

Lemma dict_get_elem {A} (key : string) (v : A) (o : list (string * A)) :
  dict_get key o = Some v -> (key, v) ∈ o.
Proof.
  induction o as [|[k w] o IH]; cbn [dict_get]; [discriminate|].
  destruct (String.eqb_spec k key).
  - intros [= ->]. subst. by left.
  - intros H. right. by apply IH.
Qed.

Lemma json_depth_get (o : list (string * json)) (key : string) :
  (json_depth (get o key) < json_depth (JObj o))%nat.
Proof.
  unfold get. destruct (dict_get key o) as [v|] eqn:E; cbn [default].
  - simpl. eapply json_depth_field. by apply dict_get_elem.
  - simpl. lia.
Qed.

Lemma json_depth_get_or (o : list (string * json)) (key : string) (dflt : json) :
  (json_depth dflt <= 1)%nat ->
  (json_depth (get_or o key dflt) <= json_depth (JObj o))%nat.
Proof.
  intros Hd. unfold get_or. destruct (dict_get key o) as [v|] eqn:E; simpl.
  - apply Nat.lt_le_incl. eapply (json_depth_field key). by apply dict_get_elem.
  - lia.
Qed.

Ltac ext_step :=
  match goal with
  | |- ?x = ?x => reflexivity
  | |- mbind _ _ _ = mbind _ _ _ => apply mbind_ext; [|intros ? ?]
  | |- try_except _ _ _ _ = try_except _ _ _ _ => apply try_except_ext; [|intros ? ?]
  | |- (match ?x with _ => _ end) _ = (match ?x with _ => _ end) _ => destruct x
  | |- (if ?b then _ else _) _ = (if ?b then _ else _) _ => destruct b
  end.

Section FuelFacts.

Context (W : Type).
Context (getattr_ : value -> string -> W -> result value * W).
Context (call_ : value -> list value -> list (string * value) -> W -> result value * W).
Context (iter_ : value -> W -> result (list value) * W).
Context (sum_ : value -> result value).
Context (truth_ : value -> bool).
Context (registry : ToolRegistry.t) (frames : list value).

Local Abbreviation eval := (_eval_expr W getattr_ call_ iter_ sum_).
Local Abbreviation run := (run_steps W getattr_ call_ iter_ sum_ truth_ registry frames).

Lemma map_m_ext {A B} (f g : A -> M (state W) B) (l : list A) :
  (forall x, x ∈ l -> forall s, f x s = g x s) ->
  forall s, map_m W f l s = map_m W g l s.
Proof.
  induction l as [|x l IH]; intros Hf s; [reflexivity|].
  cbn [map_m]. apply mbind_ext.
  - apply Hf. by left.
  - intros y s'. apply mbind_ext; [|reflexivity].
    apply IH. intros z Hz. apply Hf. by right.
Qed.

Lemma foreach_loop_ext (b1 b2 : M (state W) unit) var (l : list value) :
  (forall s, b1 s = b2 s) ->
  forall s, foreach_loop W b1 var l s = foreach_loop W b2 var l s.
Proof.
  intros Hb. induction l as [|x l IH]; intros s; [reflexivity|].
  cbn [foreach_loop]. apply mbind_ext; [reflexivity|]. intros _ s1.
  apply mbind_ext; [apply Hb|]. intros _ s2. apply IH.
Qed.

(** The result of the [dict] branch depends on the evaluator only through
    the fields of the expression. *)
Lemma eval_dict_ext (ev1 ev2 : json -> M (state W) value) (expr : list (string * json)) :
  (forall key s, ev1 (get expr key) s = ev2 (get expr key) s) ->
  forall s, eval_dict W getattr_ call_ iter_ sum_ ev1 frames expr s
            = eval_dict W getattr_ call_ iter_ sum_ ev2 frames expr s.
Proof.
  intros Hev s. unfold eval_dict.
  repeat first [ext_step | apply Hev].
Qed.

(** More fuel than the depth of the expression changes nothing. *)
Lemma eval_fuel (f1 f2 : nat) (expr : json) :
  (json_depth expr < f1)%nat -> (f1 <= f2)%nat ->
  forall s, eval f2 frames expr s = eval f1 frames expr s.
Proof.
  revert f2 expr. induction f1 as [|f1 IH]; intros f2 expr Hd Hle s; [lia|].
  destruct f2 as [|f2]; [lia|]. cbn [_eval_expr].
  destruct expr; try reflexivity.
  - apply mbind_ext; [|reflexivity]. apply map_m_ext. intros x Hx s'.
    apply IH; [|lia]. apply json_depth_elem in Hx. lia.
  - apply eval_dict_ext. intros key s'. apply IH; [|lia].
    pose proof (json_depth_get fields key). lia.
Qed.

Ltac ext_step_eq :=
  match goal with
  | |- ?x = ?x => reflexivity
  | |- mbind _ _ _ = mbind _ _ _ => apply mbind_ext; [|intros ? ?]
  | |- try_except _ _ _ _ = try_except _ _ _ _ => apply try_except_ext; [|intros ? ?]
  | |- (match ?x with _ => _ end) _ = (match ?x with _ => _ end) _ => destruct x eqn:?
  | |- (if ?b then _ else _) _ = (if ?b then _ else _) _ => destruct b eqn:?
  end.

Lemma as_list_Some (j : json) (body : list json) : as_list j = Some body -> j = JList body.
Proof. destruct j; cbn; congruence. Qed.

Lemma eval_args_ext (ev1 ev2 : json -> M (state W) value) (args_obj : list (string * json)) :
  (forall e, (json_depth e < json_depth (JObj args_obj))%nat ->
             forall s, ev1 e s = ev2 e s) ->
  forall s, eval_args W ev1 args_obj s = eval_args W ev2 args_obj s.
Proof.
  intros Hev. unfold eval_args. apply map_m_ext. intros [k v] Hkv s.
  apply mbind_ext; [|reflexivity]. apply Hev. by eapply json_depth_field.
Qed.

(** The result of a step depends on the evaluator and on the block runner
    only through the fields of the step. *)
Lemma run_step_ext (ev1 ev2 : json -> M (state W) value)
    (rs1 rs2 : list json -> M (state W) unit) (step : json) :
  (forall e, (json_depth e < json_depth step)%nat -> forall s, ev1 e s = ev2 e s) ->
  (forall body, (json_depth (JList body) <= json_depth step)%nat ->
                forall s, rs1 body s = rs2 body s) ->
  forall s, run_step W getattr_ call_ truth_ registry ev1 rs1 step s
            = run_step W getattr_ call_ truth_ registry ev2 rs2 step s.
Proof.
  intros Hev Hrs s. destruct step as [| | | | | |step]; try reflexivity.
  assert (Hget : forall key s', ev1 (get step key) s' = ev2 (get step key) s')
    by (intros; apply Hev, json_depth_get).
  assert (Hargs : forall args_obj, get_or step "args" (JObj []) = JObj args_obj ->
            forall s', eval_args W ev1 args_obj s' = eval_args W ev2 args_obj s').
  { intros args_obj Ha s'. apply eval_args_ext. intros e He. apply Hev.
    pose proof (json_depth_get_or step "args" (JObj []) ltac:(simpl; lia)) as Hd.
    rewrite Ha in Hd. lia. }
  assert (Hbody : forall key body, as_list (get_or step key (JList [])) = Some body ->
            forall s', rs1 body s' = rs2 body s').
  { intros key body Hb s'. apply Hrs. apply as_list_Some in Hb.
    pose proof (json_depth_get_or step key (JList []) ltac:(simpl; lia)) as Hd.
    by rewrite Hb in Hd. }
  unfold run_step.
  repeat first
    [ ext_step_eq
    | apply Hget
    | apply Hargs; solve [assumption | reflexivity]
    | apply foreach_loop_ext; intros ?; eapply Hbody; eassumption
    | eapply Hbody; eassumption ].
Qed.

(** More fuel than the depth of the program changes nothing. *)
Lemma run_fuel (f1 f2 : nat) (steps : list json) :
  (json_depth (JList steps) < f1)%nat -> (f1 <= f2)%nat ->
  forall s, run f2 steps s = run f1 steps s.
Proof.
  revert f2 steps. induction f1 as [|f1 IH]; intros f2 steps Hd Hle s; [lia|].
  destruct f2 as [|f2]; [lia|]. cbn [run_steps].
  apply for_each_ext. intros step Hstep s'.
  apply json_depth_elem in Hstep.
  apply run_step_ext.
  - intros e He s''. apply eval_fuel; lia.
  - intros body Hb s''. apply IH; lia.
Qed.

Lemma for_each_app {S A} (l1 l2 : list A) (body : A -> M S unit) (s : S) :
  for_each (l1 ++ l2) body s = mbind (for_each l1 body) (fun _ => for_each l2 body) s.
Proof.
  revert s. induction l1 as [|x l1 IH]; intros s; [reflexivity|].
  cbn [app for_each]. unfold mbind.
  destruct (body x s) as [[[]|e] s1]; [|reflexivity].
  rewrite IH. reflexivity.
Qed.

Lemma json_depth_app_l (l1 l2 : list json) :
  (json_depth (JList l1) <= json_depth (JList (l1 ++ l2)))%nat.
Proof.
  cbn [json_depth]. apply le_n_S. rewrite map_app.
  induction l1 as [|x l1 IH]; simpl; lia.
Qed.

(** A [break] step raises [_Break] whatever the evaluator and the block
    runner are. *)
Lemma run_step_break (ev : json -> M (state W) value)
    (rs : list json -> M (state W) unit) (s : state W) :
  run_step W getattr_ call_ truth_ registry ev rs step_break s = (Raise Break, s).
Proof. reflexivity. Qed.

(** A block whose steps before a [break] complete raises [_Break] there. *)
Lemma run_break (fuel : nat) (pre post : list json) (s s' : state W) :
  run (S fuel) pre s = (Ok tt, s') ->
  run (S fuel) (pre ++ step_break :: post) s = (Raise Break, s').
Proof.
  cbn [run_steps]. intros Hpre. rewrite for_each_app. unfold mbind at 1.
  rewrite Hpre. cbn [for_each]. unfold mbind at 1. by rewrite run_step_break.
Qed.


End FuelFacts.


(** The words of C9, "a program containing a break step that is not
    enclosed in any foreach": some step of the block is a [break], or an
    [if] step with such a step in one of its branches; the body of a
    [foreach] is not searched. *)
Fixpoint contains_free_break (j : json) : bool :=
  match j with
  | JList block => existsb contains_free_break block
  | JObj step =>
      field_is step "op" "break"
      || field_is step "op" "if"
         && existsb (fun kv => (String.eqb kv.1 "then" || String.eqb kv.1 "else")
                               && contains_free_break kv.2) step
  | _ => false
  end.


(** ** Stage orchestrators: what a run does to the agent *)

(** The number of prompts sent, and the exceptions caught, in a log. *)
Fixpoint calls (l : list agent_event) : nat :=
  match l with
  | [] => O
  | ACall _ :: l' => S (calls l')
  | _ :: l' => calls l'
  end.

Fixpoint caught (l : list agent_event) : list exn :=
  match l with
  | [] => []
  | ACaught e :: l' => e :: caught l'
  | _ :: l' => caught l'
  end.

(** The reading of I4 on a log: once an exception is caught, no prompt is
    sent before the agent is reset. [pending] says that an exception was
    caught and the agent not reset since. *)
Fixpoint reset_before_retry (pending : bool) (l : list agent_event) : bool :=
  match l with
  | [] => true
  | ACaught _ :: l' => reset_before_retry true l'
  | AReset :: l' => reset_before_retry false l'
  | ACall _ :: l' => negb pending && reset_before_retry false l'
  end.

(** The kinds the Stage-3 loop may retry on, by the specification. *)
Definition retryable3 (e : exn) : bool :=
  is_ParseError e || is_ValidationError e || is_ToolError e.

Definition RuntimeError (stage : string) : exn :=
  PyError "RuntimeError" ("Stage " +:+ stage +:+ " failed without a captured error").

(** The logs a retry loop of Stage 1 or 2 can write with [n] attempts left,
    and the result that goes with each: the agent raises or the attempt
    raises something that is not retried; the attempt succeeds; the attempt
    fails with a [ParseError] or a [ValidationError], which is caught, and
    the loop goes on; no attempt is left. *)
Inductive log12 {B} (stage : string) : nat -> option exn -> result B -> list agent_event -> Prop :=
| log12_exhausted last :
    log12 stage 0 last (Raise (default (RuntimeError stage) last)) [AReset]
| log12_agent_raises n prompt last e :
    log12 stage (S n) last (Raise e) [ACall prompt]
| log12_propagates n prompt last e :
    retryable12 e = false ->
    log12 stage (S n) last (Raise e) [ACall prompt]
| log12_success n prompt last v :
    log12 stage (S n) last (Ok v) [ACall prompt; AReset]
| log12_retry n prompt last e r new :
    retryable12 e = true ->
    log12 stage n (Some e) r new ->
    log12 stage (S n) last r (ACall prompt :: ACaught e :: new).

(** The logs of one attempt of Stage 3, which never completes. *)
Definition attempt3 (prompt : string) (mid : list agent_event) : Prop :=
  mid = [AReset; ACall prompt] \/ mid = [AReset; ACall prompt; AReset].

(** The logs the retry loop of Stage 3 can write with [n] attempts left. *)
Inductive log3 : nat -> option exn -> result unit -> list agent_event -> Prop :=
| log3_exhausted feedback :
    log3 0 feedback (Raise (default (RuntimeError "3") feedback)) [AReset]
| log3_propagates n prompt feedback e mid :
    is_Exception e = false -> attempt3 prompt mid ->
    log3 (S n) feedback (Raise e) mid
| log3_retry n prompt feedback e mid r new :
    is_Exception e = true -> attempt3 prompt mid ->
    log3 n (Some e) r new ->
    log3 (S n) feedback r (mid ++ ACaught e :: new).

Lemma caught3_is_Exception (e : exn) : caught3 e = is_Exception e.
Proof. unfold caught3. destruct e; reflexivity. Qed.

Section StageFacts.

Context (A : Type).
Context (agent_call : string -> A -> result (option string) * A).
Context (agent_reset : A -> A).
Context (json_loads : string -> result json).
Context (FI EI : gset string).
Context (W : Type).
Context (getattr_ : value -> string -> W -> result value * W).
Context (call_ : value -> list value -> list (string * value) -> W -> result value * W).
Context (iter_ : value -> W -> result (list value) * W).
Context (sum_ : value -> result value).
Context (truth_ : value -> bool).
Context (all_frames : list Frame.t -> list value).
Context (registry : ToolRegistry.t).

Local Abbreviation stage1 := (stage1_loop A agent_call agent_reset json_loads W).
Local Abbreviation stage2 := (stage2_loop A agent_call agent_reset json_loads FI EI W).
Local Abbreviation stage3 :=
  (stage3_loop A agent_call agent_reset json_loads W getattr_ call_ iter_ sum_ truth_
     all_frames registry).
Local Abbreviation body3 :=
  (stage3_body A agent_call agent_reset json_loads W getattr_ call_ iter_ sum_ truth_
     all_frames registry).

Ltac unroll :=
  unfold mbind, lift, get_state, on_frames, reset_agent, record, modify, ret, raise.

Ltac split_matches :=
  repeat match goal with
         | |- context [match ?x with _ => _ end] => destruct x eqn:?
         end.

Lemma call_agent_log prompt (s : session A W) r s1 :
  call_agent A agent_call W prompt s = (r, s1) -> log s1 = (log s ++ [ACall prompt])%list.
Proof.
  unfold call_agent. unroll. destruct (agent_call prompt _) as [r0 a].
  intros [= <- <-]. reflexivity.
Qed.

Lemma on_frames_log {B} (c : M (list Frame.t) B) (s : session A W) r s' :
  on_frames A W c s = (r, s') -> log s' = log s.
Proof. unfold on_frames. destruct (c (frames s)). intros [= <- <-]. reflexivity. Qed.

Lemma reset_agent_log (s : session A W) :
  exists s', reset_agent A agent_reset W s = (Ok tt, s')
             /\ log s' = (log s ++ [AReset])%list.
Proof. eexists. split; reflexivity. Qed.

Lemma stage1_body_log response (s : session A W) r s' :
  stage1_body A agent_reset json_loads W response s = (r, s') ->
  (exists v, r = Ok v /\ log s' = (log s ++ [AReset])%list)
  \/ (exists e, r = Raise e /\ log s' = log s).
Proof.
  unfold stage1_body. unfold mbind at 1, lift at 1.
  destruct (parse_json_from_response json_loads response) as [data|e];
    [|intros [= <- <-]; eauto].
  unfold mbind at 1, get_state at 1. unfold mbind at 1, lift at 1.
  destruct (validate_stage1 data _) as [result|e]; [|intros [= <- <-]; eauto].
  unfold mbind at 1.
  destruct (on_frames A W _ s) as [[[]|e] s1] eqn:E1;
    apply on_frames_log in E1; [|intros [= <- <-]; eauto].
  unfold mbind at 1.
  destruct (on_frames A W _ s1) as [[[]|e] s2] eqn:E2;
    apply on_frames_log in E2; [|intros [= <- <-]; right; eexists; split; [reflexivity|congruence]].
  unfold mbind at 1.
  destruct (reset_agent_log s2) as (s3 & -> & Hlog).
  unfold ret. intros [= <- <-]. left. eexists. split; [reflexivity|]. congruence.
Qed.

Lemma stage2_body_log response (s : session A W) r s' :
  stage2_body A agent_reset json_loads FI EI W response s = (r, s') ->
  (exists v, r = Ok v /\ log s' = (log s ++ [AReset])%list)
  \/ (exists e, r = Raise e /\ log s' = log s).
Proof.
  unfold stage2_body. unfold mbind at 1, lift at 1.
  destruct (parse_json_from_response json_loads response) as [data|e];
    [|intros [= <- <-]; eauto].
  unfold mbind at 1, get_state at 1. unfold mbind at 1, lift at 1.
  destruct (validate_stage2 FI EI data _) as [plan|e]; [|intros [= <- <-]; eauto].
  unfold mbind at 1.
  destruct (on_frames A W _ s) as [[[]|e] s1] eqn:E1;
    apply on_frames_log in E1; [|intros [= <- <-]; eauto].
  destruct (reset_agent_log s1) as (s2 & -> & Hlog).
  intros [= <- <-]. left. eexists. split; [reflexivity|]. congruence.
Qed.

(** An attempt of Stage 3 always raises: at the latest where [set_agent]
    is looked up on a text. *)
Lemma stage3_body_log prompt (s : session A W) r s' :
  body3 prompt s = (r, s') ->
  exists e mid, r = Raise e /\ log s' = (log s ++ mid)%list /\ attempt3 prompt mid.
Proof.
  unfold stage3_body, attempt3. unfold mbind at 1.
  destruct (reset_agent_log s) as (s0 & -> & Hlog0).
  unfold mbind at 1.
  destruct (call_agent A agent_call W prompt s0) as [[response|e] s1] eqn:E1;
    apply call_agent_log in E1.
  2:{ intros [= <- <-]. eexists _, _. split; [reflexivity|].
      split; [|left; reflexivity]. rewrite E1, Hlog0, <- app_assoc. reflexivity. }
  unfold mbind at 1, lift at 1.
  destruct (parse_json_from_response json_loads response) as [data|e].
  2:{ intros [= <- <-]. eexists _, _. split; [reflexivity|].
      split; [|left; reflexivity]. rewrite E1, Hlog0, <- app_assoc. reflexivity. }
  unfold mbind at 1, lift at 1.
  destruct (validate_stage3 data) as [program|e].
  2:{ intros [= <- <-]. eexists _, _. split; [reflexivity|].
      split; [|left; reflexivity]. rewrite E1, Hlog0, <- app_assoc. reflexivity. }
  unfold mbind at 1.
  destruct (reset_agent_log s1) as (s2 & -> & Hlog2).
  unfold mbind at 1, set_agent_on_text, raise.
  intros [= <- <-]. eexists _, _. split; [reflexivity|].
  split; [|right; reflexivity]. rewrite Hlog2, E1, Hlog0, <- !app_assoc. reflexivity.
Qed.

Lemma stage1_loop_log n prompt last (s : session A W) r s' :
  stage1 n prompt last s = (r, s') ->
  exists new, log s' = (log s ++ new)%list /\ log12 "1" n last r new.
Proof.
  revert prompt last s. induction n as [|n IH]; intros prompt last s; cbn [stage1_loop].
  - unfold mbind at 1. destruct (reset_agent_log s) as (s0 & -> & Hlog).
    unfold raise. intros [= <- <-]. exists [AReset]. split; [exact Hlog|].
    apply (log12_exhausted "1").
  - unfold mbind at 1.
    destruct (call_agent A agent_call W prompt s) as [[response|e] s1] eqn:E1;
      apply call_agent_log in E1.
    2:{ intros [= <- <-]. exists [ACall prompt]. split; [exact E1|]. constructor. }
    unfold try_except.
    destruct (stage1_body A agent_reset json_loads W response s1) as [[v|e] s2] eqn:E2;
      apply stage1_body_log in E2 as [(v' & Hv & Hl)|(e' & He & Hl)];
      try discriminate.
    + intros [= <- <-]. exists [ACall prompt; AReset]. split; [|constructor].
      rewrite Hl, E1, <- app_assoc. reflexivity.
    + destruct (retryable12 e) eqn:Hr.
      * unfold mbind at 1, record at 1, modify at 1. intros Hloop.
        apply IH in Hloop as (new & Hlog & Hshape). cbn [log] in Hlog.
        exists (ACall prompt :: ACaught e :: new). split; [|by constructor].
        rewrite Hlog, Hl, E1, <- !app_assoc. reflexivity.
      * intros [= <- <-]. exists [ACall prompt]. split; [congruence|].
        by apply log12_propagates.
Qed.

Lemma stage2_loop_log n prompt last (s : session A W) r s' :
  stage2 n prompt last s = (r, s') ->
  exists new, log s' = (log s ++ new)%list /\ log12 "2" n last r new.
Proof.
  revert prompt last s. induction n as [|n IH]; intros prompt last s; cbn [stage2_loop].
  - unfold mbind at 1. destruct (reset_agent_log s) as (s0 & -> & Hlog).
    unfold raise. intros [= <- <-]. exists [AReset]. split; [exact Hlog|].
    apply (log12_exhausted "2").
  - unfold mbind at 1.
    destruct (call_agent A agent_call W prompt s) as [[response|e] s1] eqn:E1;
      apply call_agent_log in E1.
    2:{ intros [= <- <-]. exists [ACall prompt]. split; [exact E1|]. constructor. }
    unfold try_except.
    destruct (stage2_body A agent_reset json_loads FI EI W response s1) as [[v|e] s2] eqn:E2;
      apply stage2_body_log in E2 as [(v' & Hv & Hl)|(e' & He & Hl)];
      try discriminate.
    + intros [= <- <-]. exists [ACall prompt; AReset]. split; [|constructor].
      rewrite Hl, E1, <- app_assoc. reflexivity.
    + destruct (retryable12 e) eqn:Hr.
      * unfold mbind at 1, record at 1, modify at 1. intros Hloop.
        apply IH in Hloop as (new & Hlog & Hshape). cbn [log] in Hlog.
        exists (ACall prompt :: ACaught e :: new). split; [|by constructor].
        rewrite Hlog, Hl, E1, <- !app_assoc. reflexivity.
      * intros [= <- <-]. exists [ACall prompt]. split; [congruence|].
        by apply log12_propagates.
Qed.

Lemma stage3_loop_log n prompt feedback (s : session A W) r s' :
  stage3 n prompt feedback s = (r, s') ->
  exists new, log s' = (log s ++ new)%list /\ log3 n feedback r new.
Proof.
  revert prompt feedback s. induction n as [|n IH]; intros prompt feedback s;
    cbn [stage3_loop].
  - unfold mbind at 1. destruct (reset_agent_log s) as (s0 & -> & Hlog).
    unfold raise. intros [= <- <-]. exists [AReset]. split; [exact Hlog|].
    apply log3_exhausted.
  - unfold try_except.
    destruct (body3 prompt s) as [r1 s1] eqn:E1.
    apply stage3_body_log in E1 as (e & mid & -> & Hl & Hmid).
    rewrite caught3_is_Exception. destruct (is_Exception e) eqn:He.
    + unfold mbind at 1, record at 1, modify at 1. intros Hloop.
      apply IH in Hloop as (new & Hlog & Hshape). cbn [log] in Hlog.
      exists (mid ++ ACaught e :: new)%list. split; [|by eapply log3_retry].
      rewrite Hlog, Hl, <- !app_assoc. reflexivity.
    + intros [= <- <-]. exists mid. split; [exact Hl|]. by eapply log3_propagates.
Qed.

(** A reset, if there is one, is the last event. *)
Fixpoint only_last_reset (l : list agent_event) : bool :=
  match l with
  | [] => true
  | AReset :: l' => match l' with [] => true | _ => false end
  | _ :: l' => only_last_reset l'
  end.

Lemma last_cons_default {X} (x d : X) (l : list X) :
  default d (last (x :: l)) = default x (last l).
Proof.
  destruct l as [|y l]; [reflexivity|]. cbn.
  destruct (last (y :: l)) eqn:E; [reflexivity|].
  apply last_None in E. discriminate.
Qed.

Lemma log12_facts {B} stage n last_error (r : result B) new :
  log12 stage n last_error r new ->
  (calls new <= n)%nat
  /\ Forall (fun e => retryable12 e = true) (caught new)
  /\ (length (caught new) <= n)%nat
  /\ (length (caught new) = n ->
      r = Raise (default (default (RuntimeError stage) last_error) (last (caught new))))
  /\ only_last_reset new = true.
Proof.
  induction 1 as [last|n prompt last e|n prompt last e Hr|n prompt last v
                  |n prompt last e r new Hr Hlog IH]; cbn.
  - repeat split; auto.
  - repeat split; auto; lia.
  - repeat split; auto; lia.
  - repeat split; auto; lia.
  - destruct IH as (Hc & Hall & Hlen & Hex & Hres).
    split; [lia|]. split; [by constructor|]. split; [lia|]. split; [|exact Hres].
    intros Hn. rewrite Hex by lia. cbn [default]. f_equal.
    symmetry. apply last_cons_default.
Qed.

Lemma calls_app (l1 l2 : list agent_event) : calls (l1 ++ l2) = (calls l1 + calls l2)%nat.
Proof.
  induction l1 as [|ev l1 IH]; [reflexivity|]. destruct ev; cbn; rewrite IH; reflexivity.
Qed.

Lemma caught_app (l1 l2 : list agent_event) : caught (l1 ++ l2) = (caught l1 ++ caught l2)%list.
Proof.
  induction l1 as [|ev l1 IH]; [reflexivity|]. destruct ev; cbn; rewrite IH; reflexivity.
Qed.

Lemma attempt3_facts prompt mid :
  attempt3 prompt mid ->
  calls mid = 1%nat /\ caught mid = []
  /\ forall pending l, reset_before_retry pending (mid ++ l) = reset_before_retry false l.
Proof. intros [-> | ->]; repeat split; reflexivity. Qed.

Lemma log3_facts n feedback r new :
  log3 n feedback r new ->
  (calls new <= n)%nat
  /\ Forall (fun e => is_Exception e = true) (caught new)
  /\ (length (caught new) <= n)%nat
  /\ (length (caught new) = n ->
      r = Raise (default (default (RuntimeError "3") feedback) (last (caught new))))
  /\ (forall pending, reset_before_retry pending new = true)
  /\ exists e, r = Raise e.
Proof.
  induction 1 as [feedback|n prompt feedback e mid He Hmid
                  |n prompt feedback e mid r new He Hmid Hlog IH].
  - cbn. repeat split; eauto.
  - destruct (attempt3_facts _ _ Hmid) as (Hc & Hk & Hr).
    rewrite Hc, Hk. cbn. repeat split; eauto; try lia.
    intros pending. rewrite <- (app_nil_r mid), Hr. reflexivity.
  - destruct (attempt3_facts _ _ Hmid) as (Hc & Hk & Hr).
    destruct IH as (Hcalls & Hall & Hlen & Hex & Hres & Hraise).
    rewrite calls_app, caught_app, Hc, Hk. cbn.
    split; [lia|]. split; [by constructor|]. split; [lia|]. split; [|split; [|exact Hraise]].
    + intros Hn. rewrite Hex by lia. cbn [default]. f_equal.
      symmetry. apply last_cons_default.
    + intros pending. rewrite Hr. cbn. apply Hres.
Qed.

Lemma exhausted_last (l : list exn) n d {B} (r : result B) :
  length l = S n -> r = Raise (default d (last l)) ->
  exists e, last l = Some e /\ r = Raise e.
Proof.
  intros Hlen ->. destruct (last l) as [e|] eqn:E; [eauto|].
  apply last_None in E. subst. discriminate.
Qed.


(** The session after the [except] clause took note of [exc]. *)
Definition noted (exc : exn) (s : session A W) : session A W :=
  {| agent := agent s; frames := frames s; tool_world := tool_world s;
     log := log s ++ [ACaught exc] |}.

(** C4, amended. Stages 1 and 2 catch [ParseError] and [ValidationError]
    only: whatever a run catches is of these kinds, an exception of the
    agent call propagates at once, and so does an exception of another kind
    raised by the attempt. Stage 3 lists [Exception] in its [except] clause:
    it catches every exception that derives from [Exception], of whatever
    kind, and retries; only an exception outside [Exception] propagates at
    once. *)
Theorem except_clauses (n : nat) (prompt : string) (last_error : option exn)
    (s : session A W) :
  (* Stage 1 *)
  ((forall r s', stage1 n prompt last_error s = (r, s') ->
      exists new, log s' = (log s ++ new)%list
                  /\ Forall (fun e => retryable12 e = true) (caught new))
   /\ (forall e s1, call_agent A agent_call W prompt s = (Raise e, s1) ->
         stage1 (S n) prompt last_error s = (Raise e, s1))
   /\ (forall response s1 e s2,
         call_agent A agent_call W prompt s = (Ok response, s1) ->
         stage1_body A agent_reset json_loads W response s1 = (Raise e, s2) ->
         retryable12 e = false ->
         stage1 (S n) prompt last_error s = (Raise e, s2)))
  (* Stage 2 *)
  /\ ((forall r s', stage2 n prompt last_error s = (r, s') ->
         exists new, log s' = (log s ++ new)%list
                     /\ Forall (fun e => retryable12 e = true) (caught new))
      /\ (forall e s1, call_agent A agent_call W prompt s = (Raise e, s1) ->
            stage2 (S n) prompt last_error s = (Raise e, s1))
      /\ (forall response s1 e s2,
            call_agent A agent_call W prompt s = (Ok response, s1) ->
            stage2_body A agent_reset json_loads FI EI W response s1 = (Raise e, s2) ->
            retryable12 e = false ->
            stage2 (S n) prompt last_error s = (Raise e, s2)))
  (* Stage 3 *)
  /\ ((forall r s', stage3 n prompt last_error s = (r, s') ->
         exists new, log s' = (log s ++ new)%list
                     /\ Forall (fun e => is_Exception e = true) (caught new))
      /\ (forall e s1, body3 prompt s = (Raise e, s1) -> is_Exception e = true ->
            stage3 (S n) prompt last_error s
            = stage3 n (feedback_failed e) (Some e) (noted e s1))
      /\ (forall e s1, body3 prompt s = (Raise e, s1) -> is_Exception e = false ->
            stage3 (S n) prompt last_error s = (Raise e, s1))).
Proof.
  split; [|split]; (split; [|split]).
  - intros r s' Hrun. apply stage1_loop_log in Hrun as (new & Hlog & Hshape).
    apply log12_facts in Hshape as (_ & Hall & _). eauto.
  - intros e s1 Hcall. cbn [stage1_loop]. unfold mbind at 1. by rewrite Hcall.
  - intros response s1 e s2 Hcall Hbody Hr. cbn [stage1_loop]. unfold mbind at 1.
    rewrite Hcall. unfold try_except. by rewrite Hbody, Hr.
  - intros r s' Hrun. apply stage2_loop_log in Hrun as (new & Hlog & Hshape).
    apply log12_facts in Hshape as (_ & Hall & _). eauto.
  - intros e s1 Hcall. cbn [stage2_loop]. unfold mbind at 1. by rewrite Hcall.
  - intros response s1 e s2 Hcall Hbody Hr. cbn [stage2_loop]. unfold mbind at 1.
    rewrite Hcall. unfold try_except. by rewrite Hbody, Hr.
  - intros r s' Hrun. apply stage3_loop_log in Hrun as (new & Hlog & Hshape).
    apply log3_facts in Hshape as (_ & Hall & _). eauto.
  - intros e s1 Hbody He. cbn [stage3_loop]. unfold try_except.
    rewrite Hbody, caught3_is_Exception, He. reflexivity.
  - intros e s1 Hbody He. cbn [stage3_loop]. unfold try_except.
    by rewrite Hbody, caught3_is_Exception, He.
Qed.

(** C5, amended. In Stage 3 the agent is reset at the start of every
    attempt, so that once a failure is caught no prompt is sent before a
    reset. In Stages 1 and 2 the agent is not reset between a failed attempt
    and the retry: the only reset of a run, if there is one, is its last
    event (after a success, or after the last attempt). *)
Theorem reset_points (prompt : string) (s : session A W) :
  (forall r s',
     solution_composition A agent_call agent_reset json_loads W getattr_ call_ iter_
       sum_ truth_ all_frames registry prompt s = (r, s') ->
     exists new, log s' = (log s ++ new)%list
                 /\ forall pending, reset_before_retry pending new = true)
  /\ (forall r s',
        objective_identification A agent_call agent_reset json_loads W prompt s = (r, s') ->
        exists new, log s' = (log s ++ new)%list /\ only_last_reset new = true)
  /\ (forall r s',
        structure_abstraction A agent_call agent_reset json_loads FI EI W prompt s = (r, s') ->
        exists new, log s' = (log s ++ new)%list /\ only_last_reset new = true).
Proof.
  split; [|split]; intros r s' Hrun.
  - apply stage3_loop_log in Hrun as (new & Hlog & Hshape).
    apply log3_facts in Hshape as (_ & _ & _ & _ & Hres & _). eauto.
  - apply stage1_loop_log in Hrun as (new & Hlog & Hshape).
    apply log12_facts in Hshape as (_ & _ & _ & _ & Hres). eauto.
  - apply stage2_loop_log in Hrun as (new & Hlog & Hshape).
    apply log12_facts in Hshape as (_ & _ & _ & _ & Hres). eauto.
Qed.

End StageFacts.

(** ** Runs of the orchestrators with the scripted agent *)

Definition start (replies : list (result (option string))) : session scripted nat :=
  {| agent := {| script := replies; history := [] |}; frames := [blank_frame];
     tool_world := O; log := [] |}.

Definition run_stage1 (replies : list (result (option string)))
  : result string * session scripted nat :=
  objective_identification scripted scripted_call scripted_reset json_decode nat
    "stage 1" (start replies).

Definition run_stage3 (replies : list (result (option string)))
  : result unit * session scripted nat :=
  solution_composition scripted scripted_call scripted_reset json_decode nat
    no_getattr echo_call no_iter no_sum all_true (fun _ => []) echo_registry
    "stage 3" (start replies).

(** A reply that is no JSON, a valid Stage-1 reply for one frame, and a
    valid (empty) Stage-3 program. *)
Definition reply_prose : result (option string) := Ok (Some "no json here").

Definition reply_stage1 : result (option string) :=
  Ok (Some (dq "{'descriptions': ['d0'], 'relations': [], 'objective': 'click'}")).

Definition reply_program : result (option string) := Ok (Some (dq "{'steps': []}")).

Definition AttributeError_set_agent : exn :=
  PyError "AttributeError" "'str' object has no attribute 'set_agent'".

(** C4, as stated, fails in Stage 3: with an agent that replies a valid
    program four times, every attempt raises an [AttributeError], which is
    none of [ParseError], [ValidationError], [ToolError]; it is caught each
    time, three more prompts are sent, and it comes out only when the budget
    is exhausted. *)
Lemma stage3_swallows_unexpected :
  let out := run_stage3 [reply_program; reply_program; reply_program; reply_program] in
  caught (log out.2)
    = [AttributeError_set_agent; AttributeError_set_agent;
       AttributeError_set_agent; AttributeError_set_agent]
  /\ retryable3 AttributeError_set_agent = false
  /\ calls (log out.2) = 4%nat
  /\ out.1 = Raise AttributeError_set_agent
  /\ ~ Forall (fun e => retryable3 e = true) (caught (log out.2)).
Proof.
  cbv zeta.
  assert (Hc : caught (log (run_stage3 [reply_program; reply_program;
                                         reply_program; reply_program]).2)
               = [AttributeError_set_agent; AttributeError_set_agent;
                  AttributeError_set_agent; AttributeError_set_agent])
    by (vm_compute; reflexivity).
  split; [exact Hc|]. split; [reflexivity|].
  split; [vm_compute; reflexivity|]. split; [vm_compute; reflexivity|].
  rewrite Hc. intros Hall. apply Forall_cons in Hall as [Hf _]. discriminate.
Qed.

(** C5, as stated, fails in Stage 1: after a reply that is no JSON the
    [ParseError] is caught and the retry prompt is sent with no reset in
    between; the agent is reset only after the second reply succeeded. *)
Lemma stage1_retries_without_reset :
  let out := run_stage1 [reply_prose; reply_stage1] in
  out.1 = Ok "click"
  /\ log out.2
     = [ACall "stage 1";
        ACaught (ParseError "No JSON object found in response");
        ACall (feedback_invalid (ParseError "No JSON object found in response"));
        AReset]
  /\ reset_before_retry false (log out.2) = false.
Proof. cbv zeta. split; [|split]; vm_compute; reflexivity. Qed.


Lemma except_clauses_witness :
  let timeout := PyError "TimeoutError" "no reply" in
  let s1 := (call_agent scripted scripted_call nat "stage 1" (start [])).2 in
  let s3 := (stage3_body scripted scripted_call scripted_reset json_decode nat
               no_getattr echo_call no_iter no_sum all_true (fun _ => []) echo_registry
               "stage 3" (start [reply_program])).2 in
  (call_agent scripted scripted_call nat "stage 1" (start []) = (Raise timeout, s1)
   /\ run_stage1 [] = (Raise timeout, s1))
  /\ (retryable3 AttributeError_set_agent = false
      /\ is_Exception AttributeError_set_agent = true
      /\ stage3_loop scripted scripted_call scripted_reset json_decode nat
           no_getattr echo_call no_iter no_sum all_true (fun _ => []) echo_registry
           1 "stage 3" None (start [reply_program])
         = stage3_loop scripted scripted_call scripted_reset json_decode nat
             no_getattr echo_call no_iter no_sum all_true (fun _ => []) echo_registry
             0 (feedback_failed AttributeError_set_agent)
             (Some AttributeError_set_agent)
             (noted scripted nat AttributeError_set_agent s3)).
Proof.
  cbv zeta. split.
  - assert (Hcall : call_agent scripted scripted_call nat "stage 1" (start [])
                    = (Raise (PyError "TimeoutError" "no reply"),
                       (call_agent scripted scripted_call nat "stage 1" (start [])).2))
      by (vm_compute; reflexivity).
    split; [exact Hcall|].
    exact (proj1 (proj2 (proj1 (except_clauses scripted scripted_call scripted_reset
             json_decode ∅ ∅ nat no_getattr echo_call no_iter no_sum all_true
             (fun _ => []) echo_registry 2 "stage 1" None (start [])))) _ _ Hcall).
  - split; [reflexivity|]. split; [reflexivity|].
    assert (Hbody : stage3_body scripted scripted_call scripted_reset json_decode nat
                      no_getattr echo_call no_iter no_sum all_true (fun _ => [])
                      echo_registry "stage 3" (start [reply_program])
                    = (Raise AttributeError_set_agent,
                       (stage3_body scripted scripted_call scripted_reset json_decode nat
                          no_getattr echo_call no_iter no_sum all_true (fun _ => [])
                          echo_registry "stage 3" (start [reply_program])).2))
      by (vm_compute; reflexivity).
    exact (proj1 (proj2 (proj2 (proj2 (except_clauses scripted scripted_call scripted_reset
             json_decode ∅ ∅ nat no_getattr echo_call no_iter no_sum all_true
             (fun _ => []) echo_registry 0 "stage 3" None (start [reply_program])))))
             _ _ Hbody eq_refl).
Defined.

Lemma reset_points_witness :
  reset_before_retry false (log (run_stage3 [reply_prose; reply_program]).2) = true
  /\ only_last_reset (log (run_stage1 [reply_prose; reply_stage1]).2) = true.
Proof.
  split.
  - unfold run_stage3.
    destruct (solution_composition _ _ _ _ _ _ _ _ _ _ _ _ _ _) as [r s'] eqn:Hrun.
    apply (proj1 (reset_points scripted scripted_call scripted_reset json_decode ∅ ∅ nat
                    no_getattr echo_call no_iter no_sum all_true (fun _ => [])
                    echo_registry _ _)) in Hrun as (new & Hlog & Hres).
    cbn [fst snd] in *. cbn [log start app] in Hlog. rewrite Hlog. apply Hres.
  - unfold run_stage1.
    destruct (objective_identification _ _ _ _ _ _ _) as [r s'] eqn:Hrun.
    apply (proj1 (proj2 (reset_points scripted scripted_call scripted_reset json_decode
                    ∅ ∅ nat no_getattr echo_call no_iter no_sum all_true (fun _ => [])
                    echo_registry _ _))) in Hrun as (new & Hlog & Hres).
    cbn [fst snd] in *. cbn [log start app] in Hlog. rewrite Hlog. exact Hres.
Defined.

(** * Further properties of the runtime *)

(** ** Schema validators: what they raise and what they return *)

(** The outcome of a validator: a value or a [ValidationError]. *)
Definition validation_outcome {A} (r : result A) : Prop :=
  match r with
  | Ok _ => True
  | Raise e => is_ValidationError e = true
  end.

Lemma vo_bind {A B} (c : result A) (k : A -> result B) :
  validation_outcome c -> (forall a, validation_outcome (k a)) ->
  validation_outcome (bind c k).
Proof. destruct c; cbn; auto. Qed.

Lemma vo_require_dict v p : validation_outcome (_require_dict v p).
Proof. by destruct v. Qed.

Lemma vo_require_list v p : validation_outcome (_require_list v p).
Proof. by destruct v. Qed.

Lemma vo_require_str v p : validation_outcome (_require_str v p).
Proof. by destruct v. Qed.

Lemma vo_require_int v p : validation_outcome (_require_int v p).
Proof. by destruct v. Qed.

Lemma vo_require_optional_int v p : validation_outcome (_require_optional_int v p).
Proof. by destruct v. Qed.

Lemma vo_require_one_of v allowed p : validation_outcome (_require_one_of v allowed p).
Proof. unfold _require_one_of. by destruct (bool_decide _). Qed.

Ltac vo_step :=
  lazymatch goal with
  | |- validation_outcome (bind _ _) => apply vo_bind; [|intros ?]
  | |- validation_outcome (_require_dict _ _) => apply vo_require_dict
  | |- validation_outcome (_require_list _ _) => apply vo_require_list
  | |- validation_outcome (_require_str _ _) => apply vo_require_str
  | |- validation_outcome (_require_int _ _) => apply vo_require_int
  | |- validation_outcome (_require_optional_int _ _) => apply vo_require_optional_int
  | |- validation_outcome (_require_one_of _ _ _) => apply vo_require_one_of
  | |- validation_outcome (if ?b then _ else _) => destruct b
  | |- validation_outcome (match ?x with Some _ => _ | None => _ end) => destruct x
  | |- validation_outcome (Ok _) => exact I
  | |- validation_outcome (Raise (ValidationError _)) => reflexivity
  | |- validation_outcome (let _ := _ in _) => cbv zeta
  end.

Lemma vo_stage1_descriptions i ds : validation_outcome (stage1_descriptions i ds).
Proof.
  revert i. induction ds as [|d ds IH]; intros i; [exact I|].
  cbn [stage1_descriptions]. repeat vo_step. apply IH.
Qed.

Lemma vo_stage1_relations frames i rels :
  validation_outcome (stage1_relations frames i rels).
Proof.
  revert i. induction rels as [|rel rels IH]; intros i; [exact I|].
  cbn [stage1_relations]. repeat first [apply IH | vo_step].
Qed.

Lemma vo_stage2_action FI EI frames i item :
  validation_outcome (stage2_action FI EI frames i item).
Proof. unfold stage2_action. repeat vo_step. Qed.

Lemma vo_stage2_actions FI EI frames i items :
  validation_outcome (stage2_actions FI EI frames i items).
Proof.
  revert i. induction items as [|item items IH]; intros i; [exact I|].
  cbn [stage2_actions]. repeat first [apply IH | apply vo_stage2_action | vo_step].
Qed.

Lemma vo_stage3_steps i steps : validation_outcome (stage3_steps i steps).
Proof.
  revert i. induction steps as [|step steps IH]; intros i; [exact I|].
  cbn [stage3_steps]. repeat first [apply IH | vo_step].
Qed.

(** X1. Whatever JSON value they are given, the three validators return
    normally or raise [ValidationError]: no lookup or comparison of theirs
    raises anything else. *)
Theorem validators_raise_only_ValidationError (FI EI : gset string) (data : json)
    (frames : Z) :
  validation_outcome (validate_stage1 data frames)
  /\ validation_outcome (validate_stage2 FI EI data frames)
  /\ validation_outcome (validate_stage3 data).
Proof.
  split; [|split].
  - unfold validate_stage1.
    repeat first [apply vo_stage1_descriptions | apply vo_stage1_relations | vo_step].
  - unfold validate_stage2. repeat first [apply vo_stage2_actions | vo_step].
  - unfold validate_stage3. repeat first [apply vo_stage3_steps | vo_step].
Qed.

Lemma bind_Ok {A B} (c : result A) (k : A -> result B) (b : B) :
  bind c k = Ok b <-> exists a, c = Ok a /\ k a = Ok b.
Proof.
  split.
  - destruct c as [a|e]; cbn; [eauto|discriminate].
  - intros (a & -> & H). exact H.
Qed.

Lemma require_dict_Ok v p o : _require_dict v p = Ok o <-> v = JObj o.
Proof. destruct v; cbn; split; congruence. Qed.

Lemma require_list_Ok v p l : _require_list v p = Ok l <-> v = JList l.
Proof. destruct v; cbn; split; congruence. Qed.

Lemma require_str_Ok v p s : _require_str v p = Ok s <-> v = JStr s.
Proof. destruct v; cbn; split; congruence. Qed.

Lemma require_int_Ok v p n : _require_int v p = Ok n <-> v = pyint_json n.
Proof. destruct v, n; cbn; split; congruence. Qed.

Lemma require_one_of_Ok v allowed p w :
  _require_one_of v allowed p = Ok w <-> w = v /\ v ∈ allowed.
Proof.
  unfold _require_one_of. destruct (bool_decide (v ∈ allowed)) eqn:H.
  - apply bool_decide_eq_true in H. split; [intros [= <-]; auto|intros [-> _]; auto].
  - apply bool_decide_eq_false in H. split; [discriminate|intros [_ ?]; contradiction].
Qed.

Lemma in_range_spec n frames : in_range n frames = true <-> 0 <= int_val n < frames.
Proof. unfold in_range. rewrite andb_true_iff, Z.leb_le, Z.ltb_lt. tauto. Qed.

(** What [validate_stage1] reads in one description and in one relation. *)
Definition description_of (d : json) (out : string) : Prop :=
  exists text, d = JStr text /\ out = strip text.

Definition relation_of (frames : Z) (rel : json) (out : Stage1Relation) : Prop :=
  exists o text,
    rel = JObj o
    /\ get o "from" = pyint_json (src out)
    /\ 0 <= int_val (src out) < frames
    /\ get o "to" = from_option pyint_json JNull (dst out)
    /\ (forall d, dst out = Some d -> 0 <= int_val d < frames)
    /\ get_or o "relationship" (JStr "") = JStr text
    /\ relationship out = strip text.

Lemma stage1_descriptions_Ok i ds out :
  stage1_descriptions i ds = Ok out <-> Forall2 description_of ds out.
Proof.
  revert i out. induction ds as [|d ds IH]; intros i out; cbn [stage1_descriptions].
  - split; [intros [= <-]; constructor|intros H; by inversion H].
  - rewrite bind_Ok. setoid_rewrite bind_Ok. split.
    + intros (s & Hs & rest & Hrest & [= <-]). apply require_str_Ok in Hs.
      constructor; [by exists s|by apply (IH (S i))].
    + intros H. inversion H as [|? y ? l' (text & -> & ->) Htl]; subst.
      exists text. split; [reflexivity|]. exists l'. split; [by apply IH|reflexivity].
Qed.

Lemma require_optional_int_Ok v p d :
  _require_optional_int v p = Ok d <-> v = from_option pyint_json JNull d.
Proof.
  destruct v, d as [[]|]; cbn; split; congruence.
Qed.

Lemma stage1_relations_Ok frames i rels out :
  stage1_relations frames i rels = Ok out <-> Forall2 (relation_of frames) rels out.
Proof.
  revert i out. induction rels as [|rel rels IH]; intros i out; cbn [stage1_relations].
  - split; [intros [= <-]; constructor|intros H; by inversion H].
  - cbv zeta. split.
    + intros H.
      apply bind_Ok in H as (o & Ho%require_dict_Ok & H).
      apply bind_Ok in H as (s & Hs%require_int_Ok & H).
      apply bind_Ok in H as (d & Hd%require_optional_int_Ok & H).
      apply bind_Ok in H as (t & Ht%require_str_Ok & H).
      destruct (in_range s frames) eqn:Hsr; [|discriminate]. cbn [negb] in H.
      apply in_range_spec in Hsr.
      destruct d as [d|].
      * destruct (in_range d frames) eqn:Hdr; [|discriminate]. cbn [negb] in H.
        apply in_range_spec in Hdr.
        apply bind_Ok in H as (rest & Hrest%IH & [= <-]).
        constructor; [|assumption]. exists o, t. cbn.
        repeat split; try assumption; try reflexivity; try lia;
          match goal with E : Some _ = Some _ |- _ => injection E as <- end; lia.
      * apply bind_Ok in H as (rest & Hrest%IH & [= <-]).
        constructor; [|assumption]. exists o, t. cbn.
        repeat split; try assumption; try reflexivity; try lia; discriminate.
    + intros H. inversion H as [|? y ? l' Hrel Htl]; subst.
      destruct Hrel as (o & t & -> & Hs & Hsr & Hd & Hdr & Ht & Hrel).
      destruct y as [s d r]. cbn [src dst relationship] in *. subst r.
      apply bind_Ok. exists o. split; [reflexivity|].
      apply bind_Ok. exists s. split; [by apply require_int_Ok|].
      apply bind_Ok. exists d. split; [by apply require_optional_int_Ok|].
      apply bind_Ok. exists t. split; [by apply require_str_Ok|].
      apply in_range_spec in Hsr. rewrite Hsr. cbn [negb].
      destruct d as [d|].
      * specialize (Hdr d eq_refl). apply in_range_spec in Hdr. rewrite Hdr. cbn [negb].
        apply bind_Ok. exists l'. split; [by apply IH|reflexivity].
      * apply bind_Ok. exists l'. split; [by apply IH|reflexivity].
Qed.

Lemma validate_stage1_Ok (data : json) (frames : Z) (out : Stage1Result) :
  validate_stage1 data frames = Ok out
  <-> exists obj ds rels text,
        data = JObj obj
        /\ get obj "descriptions" = JList ds
        /\ Z.of_nat (length ds) = frames
        /\ Forall2 description_of ds (descriptions out)
        /\ get_or obj "relations" (JList []) = JList rels
        /\ Forall2 (relation_of frames) rels (relations out)
        /\ get obj "objective" = JStr text
        /\ strip text <> ""
        /\ objective out = strip text.
Proof.
  unfold validate_stage1. split.
  - intros H.
    apply bind_Ok in H as (obj & Hobj%require_dict_Ok & H).
    apply bind_Ok in H as (ds & Hds%require_list_Ok & H).
    destruct (Z.eqb_spec (Z.of_nat (length ds)) frames) as [Hlen|]; [|discriminate].
    cbn [negb] in H.
    apply bind_Ok in H as (desc & Hdesc%stage1_descriptions_Ok & H).
    apply bind_Ok in H as (rels & Hrels%require_list_Ok & H).
    apply bind_Ok in H as (rel_out & Hrel%stage1_relations_Ok & H).
    apply bind_Ok in H as (o & Ho%require_str_Ok & H).
    cbv zeta in H. destruct (String.eqb_spec (strip o) "") as [|Hne]; [discriminate|].
    injection H as <-. exists obj, ds, rels, o. cbn. by repeat split.
  - intros (obj & ds & rels & o & -> & Hds & Hlen & Hdesc & Hrels & Hrel & Ho & Hne & Hobj).
    destruct out as [desc rel_out goal_text]. cbn [descriptions relations objective] in *.
    subst goal_text.
    apply bind_Ok. exists obj. split; [reflexivity|].
    apply bind_Ok. exists ds. split; [by apply require_list_Ok|].
    destruct (Z.eqb_spec (Z.of_nat (length ds)) frames) as [_|]; [|contradiction].
    cbn [negb].
    apply bind_Ok. exists desc. split; [by apply stage1_descriptions_Ok|].
    apply bind_Ok. exists rels. split; [by apply require_list_Ok|].
    apply bind_Ok. exists rel_out. split; [by apply stage1_relations_Ok|].
    apply bind_Ok. exists o. split; [by apply require_str_Ok|].
    cbv zeta. by destruct (String.eqb_spec (strip o) "").
Qed.

(** X2. [validate_stage1] accepts exactly the objects that hold one string per
    frame under [descriptions], a list (absent: empty) of relations under
    [relations] whose [from] and, when given, [to] are integers in
    [0, frames), and a string that is not blank under [objective]; what it
    returns is those texts trimmed. *)
Theorem validate_stage1_accepts (data : json) (frames : Z) (out : Stage1Result) :
  validate_stage1 data frames = Ok out
  <-> exists obj ds rels text,
        data = JObj obj
        /\ get obj "descriptions" = JList ds
        /\ Z.of_nat (length ds) = frames
        /\ Forall2 description_of ds (descriptions out)
        /\ get_or obj "relations" (JList []) = JList rels
        /\ Forall2 (relation_of frames) rels (relations out)
        /\ get obj "objective" = JStr text
        /\ strip text <> ""
        /\ objective out = strip text.
Proof. apply validate_stage1_Ok. Qed.

(** What [validate_stage2] reads in one action and what it keeps of it:
    the payload holds the checked fields only, in a fixed order. *)
Definition action_of (FI EI : gset string) (frames : Z) (item : json)
    (out : Stage2Action) : Prop :=
  exists o frame_id,
    item = JObj o
    /\ get o "frame" = pyint_json frame_id
    /\ 0 <= int_val frame_id < frames
    /\ get o "type" = JStr (type out)
    /\ ((type out = "set_frame"
         /\ exists tag,
              get o "interactable" = JStr tag /\ tag ∈ FI
              /\ payload out = [("frame", pyint_json frame_id);
                                ("interactable", JStr tag)])
        \/ (type out = "split_frame"
            /\ exists rows columns tag,
                 get o "rows" = pyint_json rows /\ get o "columns" = pyint_json columns
                 /\ get o "mark_as" = JStr tag /\ tag ∈ FI
                 /\ 0 < int_val rows /\ 0 < int_val columns
                 /\ payload out = [("frame", pyint_json frame_id);
                                   ("rows", pyint_json rows);
                                   ("columns", pyint_json columns);
                                   ("mark_as", JStr tag)])
        \/ (type out = "grid_frame"
            /\ exists tiles tag,
                 get o "tiles" = pyint_json tiles
                 /\ get o "mark_as" = JStr tag /\ tag ∈ EI
                 /\ 0 < int_val tiles
                 /\ payload out = [("frame", pyint_json frame_id);
                                   ("tiles", pyint_json tiles);
                                   ("mark_as", JStr tag)])
        \/ (type out = "get_element"
            /\ exists position details tag,
                 get o "position" = JStr position /\ position ∈ _POSITIONS
                 /\ get o "details" = JStr details /\ strip details <> ""
                 /\ get o "mark_as" = JStr tag /\ tag ∈ EI
                 /\ payload out = [("frame", pyint_json frame_id);
                                   ("position", JStr position);
                                   ("details", JStr (strip details));
                                   ("mark_as", JStr tag)])).

Lemma stage2_types_spec t :
  t ∈ stage2_types
  <-> t = "set_frame" \/ t = "split_frame" \/ t = "grid_frame" \/ t = "get_element".
Proof. unfold stage2_types. set_solver. Qed.

Ltac bind_inv H :=
  repeat match type of H with
  | bind (_require_dict _ _) _ = Ok _ =>
      let E := fresh "E" in apply bind_Ok in H as (? & E%require_dict_Ok & H)
  | bind (_require_list _ _) _ = Ok _ =>
      let E := fresh "E" in apply bind_Ok in H as (? & E%require_list_Ok & H)
  | bind (_require_str _ _) _ = Ok _ =>
      let E := fresh "E" in apply bind_Ok in H as (? & E%require_str_Ok & H)
  | bind (_require_int _ _) _ = Ok _ =>
      let E := fresh "E" in apply bind_Ok in H as (? & E%require_int_Ok & H)
  | bind (_require_one_of _ _ _) _ = Ok _ =>
      let E := fresh "E" in apply bind_Ok in H as (? & E%require_one_of_Ok & H)
  end.

Ltac action_intro :=
  eexists _, _; split; [eassumption|]; split; [eassumption|];
  split; [assumption|]; split; [eassumption|].

Lemma stage2_action_Ok FI EI frames i item out :
  stage2_action FI EI frames i item = Ok out <-> action_of FI EI frames item out.
Proof.
  unfold stage2_action. cbv zeta. split.
  - intros H. bind_inv H.
    match goal with E : _ = _ /\ _ ∈ stage2_types |- _ => destruct E as [-> Ht] end.
    destruct (in_range _ frames) eqn:Hr; [|discriminate]. cbn [negb] in H.
    apply in_range_spec in Hr.
    apply stage2_types_spec in Ht as [-> | [-> | [-> | ->]]]; cbn [String.eqb Ascii.eqb Bool.eqb] in H;
      bind_inv H;
      repeat match goal with E : _ = _ /\ _ ∈ _ |- _ => destruct E as [-> ?] end.
    + injection H as <-. action_intro.
      left. split; [reflexivity|]. eexists. by repeat split.
    + destruct (_ || _) eqn:Hpos; [discriminate|]. injection H as <-.
      apply orb_false_iff in Hpos as [Hp1%Z.leb_gt Hp2%Z.leb_gt].
      action_intro.
      right; left. split; [reflexivity|]. eexists _, _, _. by repeat split.
    + destruct (_ <=? _) eqn:Hpos; [discriminate|]. injection H as <-.
      apply Z.leb_gt in Hpos.
      action_intro.
      right; right; left. split; [reflexivity|]. eexists _, _. by repeat split.
    + match type of H with
      | context [String.eqb (strip ?d) ""] =>
          destruct (String.eqb_spec (strip d) "") as [|Hne]; [discriminate|]
      end.
      bind_inv H.
      repeat match goal with E : _ = _ /\ _ ∈ _ |- _ => destruct E as [-> ?] end.
      injection H as <-.
      action_intro.
      right; right; right. split; [reflexivity|]. eexists _, _, _. by repeat split.
  - intros (o & frame_id & -> & Hf & Hr & Ht & Hcase). destruct out as [t p].
    cbn [type payload] in *. apply in_range_spec in Hr.
    apply bind_Ok. exists o. split; [reflexivity|].
    apply bind_Ok. exists t. split; [by apply require_str_Ok|].
    assert (Hin : t ∈ stage2_types).
    { apply stage2_types_spec. destruct Hcase as [[? _]|[[? _]|[[? _]|[? _]]]]; auto. }
    apply bind_Ok. exists t. split; [by apply require_one_of_Ok|].
    apply bind_Ok. exists frame_id. split; [by apply require_int_Ok|].
    rewrite Hr. cbn [negb].
    destruct Hcase as [(-> & tag & Htag & Hin' & ->)
                      |[(-> & rows & columns & tag & Hrows & Hcols & Htag & Hin' & Hp1 & Hp2 & ->)
                       |[(-> & tiles & tag & Htiles & Htag & Hin' & Hp & ->)
                        |(-> & position & details & tag & Hpos & Hinp & Hdet & Hne & Htag
                          & Hin' & ->)]]];
      cbn [String.eqb Ascii.eqb Bool.eqb].
    + apply bind_Ok. exists tag. split; [by apply require_str_Ok|].
      apply bind_Ok. exists tag. split; [by apply require_one_of_Ok|]. reflexivity.
    + apply bind_Ok. exists rows. split; [by apply require_int_Ok|].
      apply bind_Ok. exists columns. split; [by apply require_int_Ok|].
      apply bind_Ok. exists tag. split; [by apply require_str_Ok|].
      apply bind_Ok. exists tag. split; [by apply require_one_of_Ok|].
      apply Z.leb_gt in Hp1, Hp2. by rewrite Hp1, Hp2.
    + apply bind_Ok. exists tiles. split; [by apply require_int_Ok|].
      apply bind_Ok. exists tag. split; [by apply require_str_Ok|].
      apply bind_Ok. exists tag. split; [by apply require_one_of_Ok|].
      apply Z.leb_gt in Hp. by rewrite Hp.
    + apply bind_Ok. exists position. split; [by apply require_str_Ok|].
      apply bind_Ok. exists position. split; [by apply require_one_of_Ok|].
      apply bind_Ok. exists details. split; [by apply require_str_Ok|].
      destruct (String.eqb_spec (strip details) ""); [contradiction|].
      apply bind_Ok. exists tag. split; [by apply require_str_Ok|].
      apply bind_Ok. exists tag. split; [by apply require_one_of_Ok|]. reflexivity.
Qed.

Lemma stage2_actions_Ok FI EI frames i items out :
  stage2_actions FI EI frames i items = Ok out
  <-> Forall2 (action_of FI EI frames) items out.
Proof.
  revert i out. induction items as [|item items IH]; intros i out; cbn [stage2_actions].
  - split; [intros [= <-]; constructor|intros H; by inversion H].
  - split.
    + intros H. apply bind_Ok in H as (a & Ha%stage2_action_Ok & H).
      apply bind_Ok in H as (rest & Hrest%IH & [= <-]). by constructor.
    + intros H. inversion H as [|? a ? rest Ha Hrest]; subst.
      apply bind_Ok. exists a. split; [by apply stage2_action_Ok|].
      apply bind_Ok. exists rest. split; [by apply IH|reflexivity].
Qed.

Lemma validate_stage2_Ok (FI EI : gset string) (data : json) (frames : Z)
    (plan : Stage2Plan) :
  validate_stage2 FI EI data frames = Ok plan
  <-> exists obj items,
        data = JObj obj
        /\ get obj "actions" = JList items
        /\ Forall2 (action_of FI EI frames) items (actions plan).
Proof.
  unfold validate_stage2. split.
  - intros H. bind_inv H. subst.
    apply bind_Ok in H as (acts & Hacts%stage2_actions_Ok & [= <-]).
    eexists _, _. by repeat split.
  - intros (obj & items & -> & Hitems & Hacts). destruct plan as [acts].
    cbn [actions] in Hacts.
    apply bind_Ok. exists obj. split; [reflexivity|].
    apply bind_Ok. exists items. split; [by apply require_list_Ok|].
    apply bind_Ok. exists acts. split; [by apply stage2_actions_Ok|reflexivity].
Qed.

(** X3. [validate_stage2] accepts exactly the objects whose [actions] is a list
    of objects, each of one of the four types with a [frame] in
    [0, frames) and the fields of its type: a tag of the frame enumeration
    for [set_frame] and [split_frame], of the element enumeration for
    [grid_frame] and [get_element], positive [rows], [columns] and [tiles],
    a known [position], and [details] that are not blank. The plan keeps
    the actions in order, and each payload holds the checked fields only. *)
Theorem validate_stage2_accepts (FI EI : gset string) (data : json) (frames : Z)
    (plan : Stage2Plan) :
  validate_stage2 FI EI data frames = Ok plan
  <-> exists obj items,
        data = JObj obj
        /\ get obj "actions" = JList items
        /\ Forall2 (action_of FI EI frames) items (actions plan).
Proof. apply validate_stage2_Ok. Qed.

(** ** Stage 2: a validated plan and the applier *)

(** A step of the applier that completes and keeps the number of frames. *)
Definition keeps_frames (c : M (list Frame.t) unit) : Prop :=
  forall fs, exists fs', c fs = (Ok tt, fs') /\ length fs' = length fs.

Lemma keeps_on_frame k f : keeps_frames (on_frame k f).
Proof. intros fs. eexists. split; [reflexivity|]. apply length_alter. Qed.

Lemma keeps_seq (c1 c2 : M (list Frame.t) unit) :
  keeps_frames c1 -> keeps_frames c2 -> keeps_frames (mbind c1 (fun _ => c2)).
Proof.
  intros H1 H2 fs. destruct (H1 fs) as (fs1 & E1 & L1).
  destruct (H2 fs1) as (fs2 & E2 & L2). exists fs2.
  unfold mbind. rewrite E1. split; [exact E2|congruence].
Qed.

Lemma keeps_for_each {X} (l : list X) (body : X -> M (list Frame.t) unit) :
  (forall x, keeps_frames (body x)) -> keeps_frames (for_each l body).
Proof.
  intros Hb. induction l as [|x l IH]; cbn [for_each].
  - intros fs. by exists fs.
  - by apply keeps_seq.
Qed.

Lemma frame_at_in_range (frame_id : pyint) (fs : list Frame.t) :
  0 <= int_val frame_id < Z.of_nat (length fs) ->
  frame_at (pyint_json frame_id) fs = (Ok (Z.to_nat (int_val frame_id)), fs).
Proof.
  intros Hr. unfold frame_at, py_index.
  destruct frame_id as [z|b]; cbn [pyint_json int_val] in *.
  - destruct (Z.leb_spec 0 z); [|lia]. destruct (Z.ltb_spec z (Z.of_nat (length fs))); [|lia].
    reflexivity.
  - destruct (Z.leb_spec 0 (if b then 1 else 0)); [|lia].
    destruct (Z.ltb_spec (if b then 1 else 0) (Z.of_nat (length fs))); [|lia].
    reflexivity.
Qed.

Lemma int_arg_pyint (n : pyint) : int_arg (pyint_json n) = Ok (int_val n).
Proof. by destruct n. Qed.

(** An action that [validate_stage2] returned for this number of frames is
    applied without an exception. *)
Lemma apply_action_validated FI EI item (a : Stage2Action) (fs : list Frame.t) :
  action_of FI EI (Z.of_nat (length fs)) item a ->
  exists fs', apply_action a fs = (Ok tt, fs') /\ length fs' = length fs.
Proof.
  intros (o & frame_id & _ & _ & Hr & _ & Hcase). destruct a as [t p].
  cbn [type payload] in Hcase. unfold apply_action. cbn [type payload].
  pose proof (frame_at_in_range _ _ Hr) as Hat.
  destruct Hcase as [(-> & tag & _ & _ & ->)
                    |[(-> & rows & columns & tag & _ & _ & _ & _ & _ & _ & ->)
                     |[(-> & tiles & tag & _ & _ & _ & _ & ->)
                      |(-> & position & details & tag & _ & _ & _ & _ & _ & _ & ->)]]];
    unfold mbind at 1; cbn [lift dict_item dict_get String.eqb Ascii.eqb Bool.eqb];
    unfold mbind at 1; rewrite Hat; cbn [String.eqb Ascii.eqb Bool.eqb].
  - apply keeps_on_frame.
  - unfold mbind at 1. cbn [lift dict_item dict_get String.eqb Ascii.eqb Bool.eqb].
    unfold mbind at 1. cbn [lift dict_item dict_get String.eqb Ascii.eqb Bool.eqb].
    unfold mbind at 1. cbn [lift]. rewrite int_arg_pyint.
    unfold mbind at 1. cbn [lift]. rewrite int_arg_pyint.
    apply keeps_seq; [apply keeps_on_frame|].
    apply keeps_for_each. intros j. apply keeps_on_frame.
  - unfold mbind at 1.
    cbn [lift payload_int bind dict_item dict_get String.eqb Ascii.eqb Bool.eqb].
    rewrite int_arg_pyint. unfold mbind at 1, frame_object at 1.
    apply keeps_for_each. intros row. apply keeps_for_each. intros el.
    apply keeps_on_frame.
  - apply keeps_on_frame.
Qed.

Lemma for_each_validated FI EI items (acts : list Stage2Action) (fs : list Frame.t) :
  Forall2 (action_of FI EI (Z.of_nat (length fs))) items acts ->
  exists fs', for_each acts apply_action fs = (Ok tt, fs') /\ length fs' = length fs.
Proof.
  intros H. revert fs H. induction acts as [|a acts IH] in items |- *; intros fs H.
  - by exists fs.
  - inversion H as [|item ? items' ? Ha Hrest]; subst.
    destruct (apply_action_validated _ _ _ _ _ Ha) as (fs1 & E1 & L1).
    rewrite <- L1 in Hrest. destruct (IH _ _ Hrest) as (fs2 & E2 & L2).
    exists fs2. cbn [for_each]. unfold mbind. rewrite E1. split; [exact E2|congruence].
Qed.

(** X4. A plan that [validate_stage2] accepted for a list of frames is applied
    to that list without a [KeyError], [IndexError] or [TypeError] from the
    payload and frame lookups of the applier (the methods of [Frame] being
    total): every action completes, the list keeps its length, and the
    outcome is that of the final check alone, a normal return when the
    post-condition holds and a [ValidationError] when it does not. *)
Theorem validated_plan_applies (FI EI : gset string) (data : json)
    (fs : list Frame.t) (plan : Stage2Plan) :
  validate_stage2 FI EI data (Z.of_nat (length fs)) = Ok plan ->
  exists fs',
    for_each (actions plan) apply_action fs = (Ok tt, fs')
    /\ length fs' = length fs
    /\ (stage2_postcondition fs' -> apply_stage2_plan fs plan = (Ok tt, fs'))
    /\ (~ stage2_postcondition fs' ->
        exists msg, apply_stage2_plan fs plan = (Raise (ValidationError msg), fs')).
Proof.
  intros (obj & items & _ & _ & Hacts)%validate_stage2_Ok.
  destruct (for_each_validated _ _ _ _ _ Hacts) as (fs' & E & L).
  exists fs'. split; [exact E|]. split; [exact L|].
  unfold apply_stage2_plan, mbind. rewrite E.
  destruct (post_validate_spec fs') as [Hiff [Hok|(msg & Hbad)]].
  - split; [intros _; exact Hok|]. intros Hn. destruct Hn. by apply Hiff.
  - split; [|intros _; by exists msg]. intros Hp. apply Hiff in Hp. congruence.
Qed.

(** ** Stage 3: what validation checks and what it leaves to execution *)

(** A step as [validate_stage3] wants it: an object whose [op] is a string. *)
Definition step_shaped (step : json) : Prop :=
  exists o op, step = JObj o /\ get o "op" = JStr op.

Lemma stage3_steps_Ok i steps : stage3_steps i steps = Ok tt <-> Forall step_shaped steps.
Proof.
  revert i. induction steps as [|step steps IH]; intros i; cbn [stage3_steps].
  - split; [constructor|reflexivity].
  - split.
    + intros H. apply bind_Ok in H as (o & Ho%require_dict_Ok & H).
      apply bind_Ok in H as (op & Hop%require_str_Ok & H%IH).
      constructor; [by exists o, op|assumption].
    + intros H. inversion H as [|? ? (o & op & -> & Hop) Hrest]; subst.
      apply bind_Ok. exists o. split; [reflexivity|].
      apply bind_Ok. exists op. split; [by apply require_str_Ok|by apply IH].
Qed.

(** X5. [validate_stage3] accepts exactly the objects whose [steps] is a list
    of objects that each carry a string under [op], and returns that list
    as it is. Nothing else is looked at: not the value of [op], not the
    other fields, not the steps nested in [do], [then] or [else]. *)
Theorem validate_stage3_accepts (data : json) (program : Stage3Program) :
  validate_stage3 data = Ok program
  <-> exists obj,
        data = JObj obj
        /\ get obj "steps" = JList (steps program)
        /\ Forall step_shaped (steps program).
Proof.
  unfold validate_stage3. split.
  - intros H. bind_inv H. subst.
    apply bind_Ok in H as ([] & Hsteps%stage3_steps_Ok & [= <-]).
    eexists. by repeat split.
  - intros (obj & -> & Hget & Hsteps). destruct program as [l]. cbn [steps] in *.
    apply bind_Ok. exists obj. split; [reflexivity|].
    apply bind_Ok. exists l. split; [by apply require_list_Ok|].
    apply bind_Ok. exists tt. split; [by apply stage3_steps_Ok|reflexivity].
Qed.

(** The document of a program whose only step is an [if] that runs the
    block [nested]. *)
Definition program_running (nested : list json) : json :=
  JObj [("steps",
         JList [JObj [("op", JStr "if"); ("cond", JBool true);
                      ("then", JList nested)]])].

Section NestedSteps.

Variable W : Type.
Variable getattr_ : value -> string -> W -> result value * W.
Variable call_ : value -> list value -> list (string * value) -> W -> result value * W.
Variable iter_ : value -> W -> result (list value) * W.
Variable sum_ : value -> result value.
Variable truth_ : value -> bool.
Variable registry : ToolRegistry.t.
Variable frames : list value.

(** X6. Validation does not reach nested blocks, and the interpreter calls
    [step.get] on whatever a block holds: a program with a step that is not
    an object (a string, a number, a list, [null]) inside a block is
    accepted by [validate_stage3], and executing it raises an
    [AttributeError], which is neither a [ToolError] nor any other
    [HalliganError], before that step does anything. *)
Theorem nested_step_not_validated (bad : json) (rest : list json) (w : W) :
  (forall o, bad <> JObj o) ->
  exists program,
    validate_stage3 (program_running (bad :: rest)) = Ok program
    /\ execute_stage3_program W getattr_ call_ iter_ sum_ truth_ frames program registry w
       = (Raise (PyError "AttributeError"
                   ("'" +:+ type_name bad +:+ "' object has no attribute 'get'")),
          {| env := []; world := w; trace := [] |})
    /\ is_HalliganError
         (PyError "AttributeError"
            ("'" +:+ type_name bad +:+ "' object has no attribute 'get'")) = false.
Proof.
  intros Hbad. eexists. split; [reflexivity|]. split; [|reflexivity].
  unfold execute_stage3_program. cbn [steps]. cbn [json_depth].
  destruct bad; try (exfalso; by eapply Hbad); reflexivity.
Qed.

End NestedSteps.

(** ** Runtime configuration: the environment and the required settings *)

(** X7. When [BENCHMARK_HTTP_URL] is not in the environment, [from_env] gives
    [benchmark_http_url] the value of [BENCHMARK_URL], and the verdict of
    [validate] on the configuration read is decided by [BENCHMARK_URL]
    alone: it passes exactly when the override is on or the variable is
    unset, empty or a local URL, and the error it raises otherwise is the
    [UnsafeTargetError] whose text names [BENCHMARK_URL]. *)
Theorem from_env_single_url (urlparse : string -> result (string * option string))
    (environ : gmap string string) :
  environ !! "BENCHMARK_HTTP_URL" = None ->
  benchmark_url (from_env environ) = environ !! "BENCHMARK_URL"
  /\ benchmark_http_url (from_env environ) = environ !! "BENCHMARK_URL"
  /\ (validate urlparse (from_env environ) = Ok tt
      <-> allow_nonlocal_benchmark (from_env environ) = true
          \/ forall url, is_set (environ !! "BENCHMARK_URL") url -> local_url urlparse url)
  /\ (forall e, validate urlparse (from_env environ) = Raise e ->
        exists rest,
          e = UnsafeTargetError ("Detected non-local `BENCHMARK_URL`." +:+ rest)).
Proof.
  intros Hhttp. unfold from_env. cbv zeta. rewrite Hhttp.
  cbn [benchmark_url benchmark_http_url allow_nonlocal_benchmark].
  split; [reflexivity|]. split; [reflexivity|].
  set (allow := bool_decide _). unfold validate.
  cbn [benchmark_url benchmark_http_url allow_nonlocal_benchmark].
  destruct (environ !! "BENCHMARK_URL") as [url|] eqn:Hurl;
    cbn [truthy_str default from_option id].
  - destruct (String.eqb_spec url "") as [->|Hne]; cbn [negb andb].
    + split; [|discriminate]. split; [intros _|reflexivity].
      right. intros u [[= <-] Hu]. contradiction.
    + destruct allow; cbn [negb andb].
      * split; [|discriminate]. split; [by left|reflexivity].
      * destruct (_is_local_http_url urlparse url) eqn:Hl; cbn [negb bind].
        -- split; [|discriminate]. split; [intros _|reflexivity].
           right. intros u [[= <-] _]. by apply is_local_http_url_spec.
        -- split.
           ++ split; [discriminate|]. intros [|H]; [discriminate|].
              assert (Hloc : local_url urlparse url) by (by apply H).
              apply is_local_http_url_spec in Hloc. congruence.
           ++ intros e [= <-]. eexists. reflexivity.
  - cbn [negb andb bind]. split; [|discriminate]. split; [intros _|reflexivity].
    right. intros u [[=] _].
Qed.

(** X8. [require] returns normally exactly when every setting that was asked
    for holds a non-empty text, and raises [ConfigError] otherwise; it does
    not look at the safety gate. *)
Theorem require_spec (cfg : RuntimeConfig) (browser benchmark openai : bool) :
  (require cfg browser benchmark openai = Ok tt
   <-> (browser = true -> truthy_str (browser_url cfg) = true)
       /\ (benchmark = true -> truthy_str (benchmark_url cfg) = true)
       /\ (openai = true -> truthy_str (openai_api_key cfg) = true))
  /\ (require cfg browser benchmark openai = Ok tt
      \/ exists msg, require cfg browser benchmark openai = Raise (ConfigError msg)).
Proof.
  unfold require.
  destruct browser, benchmark, openai,
    (truthy_str (browser_url cfg)), (truthy_str (benchmark_url cfg)),
    (truthy_str (openai_api_key cfg)); cbn;
    (split; [split; [try discriminate; intros _; repeat split; try reflexivity; discriminate
                    |try reflexivity; intros (H1 & H2 & H3);
                     first [discriminate (H1 eq_refl) | discriminate (H2 eq_refl)
                           | discriminate (H3 eq_refl)]]
            |first [by left | right; eauto]]).
Qed.

(** ** Tool registry *)

#[local] Instance leb_total : Total (fun a b : string => Is_true (String.leb a b)).
Proof.
  intros a b. destruct (String.leb_total a b) as [H|H]; rewrite H; [by left|by right].
Qed.

Lemma names_elem_of (r : ToolRegistry.t) (n : string) :
  n ∈ ToolRegistry.names r <-> is_Some (ToolRegistry.get r n).
Proof.
  unfold ToolRegistry.names, ToolRegistry.get.
  rewrite merge_sort_Permutation, elem_of_elements, elem_of_dom. reflexivity.
Qed.

(** X9. The registry is a map from names to functions: [get] after [register]
    finds the function just registered under that name, which replaces an
    earlier one, and leaves every other name as it was; a new registry
    resolves nothing; [names] lists exactly the names that [get] resolves,
    in order and without repetition. *)
Theorem registry_register_get (r : ToolRegistry.t) (name : string) (fn : value) :
  ToolRegistry.get (ToolRegistry.register r name fn) name
  = Some {| ToolRegistry.name := name; ToolRegistry.fn := fn |}
  /\ (forall other, other <> name ->
        ToolRegistry.get (ToolRegistry.register r name fn) other
        = ToolRegistry.get r other)
  /\ ToolRegistry.get ToolRegistry.init name = None
  /\ (forall n, n ∈ ToolRegistry.names r <-> is_Some (ToolRegistry.get r n))
  /\ Sorted (fun a b => Is_true (String.leb a b)) (ToolRegistry.names r)
  /\ NoDup (ToolRegistry.names r).
Proof.
  unfold ToolRegistry.get, ToolRegistry.register. cbn [ToolRegistry._tools].
  split; [apply lookup_insert_eq|].
  split; [intros other Hne; by apply lookup_insert_ne|].
  split; [apply lookup_empty|].
  split; [apply names_elem_of|].
  split.
  - apply (Sorted_merge_sort _).
  - unfold ToolRegistry.names. rewrite merge_sort_Permutation. apply NoDup_elements.
Qed.

(** Registering the functions [f n] under the names [n] of a list. *)
Lemma register_all_get (f : string -> value) (l : list string) (r : ToolRegistry.t)
    (n : string) :
  ToolRegistry.get (foldl (fun reg n => ToolRegistry.register reg n (f n)) r l) n
  = if bool_decide (n ∈ l)
    then Some {| ToolRegistry.name := n; ToolRegistry.fn := f n |}
    else ToolRegistry.get r n.
Proof.
  revert r. induction l as [|m l IH]; intros r; cbn [foldl].
  - reflexivity.
  - rewrite IH. destruct (decide (n ∈ l)) as [Hin|Hin].
    + rewrite !bool_decide_eq_true_2; [reflexivity|by right|assumption].
    + rewrite (bool_decide_eq_false_2 _ Hin).
      unfold ToolRegistry.get, ToolRegistry.register. cbn [ToolRegistry._tools].
      destruct (decide (n = m)) as [->|Hne].
      * rewrite lookup_insert_eq, bool_decide_eq_true_2; [reflexivity|by left].
      * rewrite lookup_insert_ne by congruence.
        rewrite bool_decide_eq_false_2; [reflexivity|].
        intros [?|?]%elem_of_cons; contradiction.
Qed.

Definition action_tool_names : list string :=
  ["click"; "get_all_choices"; "drag"; "draw"; "enter"; "point"; "select";
   "slide_x"; "slide_y"; "explore"].

Definition vision_tool_names : list string :=
  ["mark"; "focus"; "ask"; "rank"; "compare"; "match"].

(** X10. [build_default_registry] resolves sixteen names and no other: the ten
    action tools, each bound to the function of that name of the module
    [action_tools], and the six vision tools, each bound to the function of
    that name of [vision_tools]; [names] lists them in alphabetical
    order. *)
Theorem default_registry_tools (action_tools vision_tools : string -> value)
    (n : string) :
  ToolRegistry.get (build_default_registry action_tools vision_tools) n
  = (if bool_decide (n ∈ vision_tool_names)
     then Some {| ToolRegistry.name := n; ToolRegistry.fn := vision_tools n |}
     else if bool_decide (n ∈ action_tool_names)
     then Some {| ToolRegistry.name := n; ToolRegistry.fn := action_tools n |}
     else None)
  /\ ToolRegistry.names (build_default_registry action_tools vision_tools)
     = ["ask"; "click"; "compare"; "drag"; "draw"; "enter"; "explore"; "focus";
        "get_all_choices"; "mark"; "match"; "point"; "rank"; "select"; "slide_x";
        "slide_y"].
Proof.
  split.
  - unfold build_default_registry. cbv zeta.
    rewrite register_all_get. fold vision_tool_names.
    destruct (bool_decide (n ∈ vision_tool_names)); [reflexivity|].
    rewrite register_all_get. fold action_tool_names.
    destruct (bool_decide (n ∈ action_tool_names)); reflexivity.
  - vm_compute. reflexivity.
Qed.

(** ** Stage-3 expressions and steps *)

(** A JSON value without objects and the Python value it denotes. *)
Fixpoint is_literal (j : json) : bool :=
  match j with
  | JObj _ => false
  | JList l => forallb is_literal l
  | _ => true
  end.

Fixpoint literal_value (j : json) : value :=
  match j with
  | JList l => VList (map literal_value l)
  | _ => atom j
  end.

Lemma dict_get_set_eq {A} (key : string) (v : A) (d : list (string * A)) :
  dict_get key (dict_set key v d) = Some v.
Proof.
  induction d as [|[k w] d IH]; cbn.
  - by rewrite String.eqb_refl.
  - destruct (String.eqb_spec k key) as [->|Hne]; cbn.
    + by rewrite String.eqb_refl.
    + by destruct (String.eqb_spec k key).
Qed.

Lemma dict_get_set_ne {A} (key other : string) (v : A) (d : list (string * A)) :
  other <> key -> dict_get other (dict_set key v d) = dict_get other d.
Proof.
  intros Hne. induction d as [|[k w] d IH]; cbn.
  - destruct (String.eqb_spec key other); [congruence|reflexivity].
  - destruct (String.eqb_spec k key) as [->|Hk]; cbn.
    + destruct (String.eqb_spec key other); [congruence|reflexivity].
    + destruct (String.eqb_spec k other); [reflexivity|exact IH].
Qed.

(** The items that a mask of booleans keeps. *)
Fixpoint kept (items : list value) (flags : list bool) : list value :=
  match items, flags with
  | item :: items', flag :: flags' =>
      if flag then item :: kept items' flags' else kept items' flags'
  | _, _ => []
  end.

Lemma filter_mask_bools (items : list value) (flags : list bool) :
  filter_mask items (map VBool flags) = Ok (kept items flags).
Proof.
  revert flags. induction items as [|item items IH]; intros [|flag flags];
    cbn [filter_mask map kept]; try reflexivity.
  rewrite IH. reflexivity.
Qed.

Lemma int_sum_bools (flags : list bool) :
  int_sum (map VBool flags) = Some (Z.of_nat (length (filter (fun b => b = true) flags))).
Proof.
  induction flags as [|b flags IH]; [reflexivity|].
  cbn [map int_sum value_as_int]. rewrite IH.
  destruct b; rewrite ?filter_cons_True, ?filter_cons_False by (auto; discriminate);
    cbn [int_val length]; f_equal; lia.
Qed.

Lemma kept_length (items : list value) (flags : list bool) :
  length items = length flags ->
  length (kept items flags) = length (filter (fun b => b = true) flags).
Proof.
  revert flags. induction items as [|item items IH]; intros [|flag flags] Hlen;
    try discriminate; [reflexivity|].
  injection Hlen as Hlen. cbn [kept].
  destruct flag; rewrite ?filter_cons_True, ?filter_cons_False by (auto; discriminate);
    cbn [length]; rewrite IH by assumption; reflexivity.
Qed.

Lemma list_not_bools (mask : list value) :
  (forall flags, mask <> map VBool flags) ->
  exists pre v post, mask = (map VBool pre ++ v :: post)%list /\ forall b, v <> VBool b.
Proof.
  induction mask as [|v mask IH]; intros H.
  - destruct (H [] eq_refl).
  - destruct v as [|b| | | | |].
    2: { destruct IH as (pre & v & post & -> & Hv).
         - intros flags ->. by apply (H (b :: flags)).
         - exists (b :: pre), v, post. by split. }
    all: eexists [], _, mask; split; [reflexivity|]; discriminate.
Qed.

Lemma filter_mask_not_bools (items mask : list value) :
  length items = length mask ->
  (forall flags, mask <> map VBool flags) ->
  filter_mask items mask = Raise (ToolError "filter_mask mask must contain booleans").
Proof.
  intros Hlen (pre & v & post & -> & Hv)%list_not_bools.
  revert items Hlen. induction pre as [|b pre IH]; intros [|item items] Hlen;
    try discriminate; cbn [map app filter_mask].
  - destruct v; try reflexivity. by destruct (Hv b).
  - injection Hlen as Hlen. rewrite (IH _ Hlen). reflexivity.
Qed.

Section ExprFacts.

Context (W : Type).
Context (getattr_ : value -> string -> W -> result value * W).
Context (call_ : value -> list value -> list (string * value) -> W -> result value * W).
Context (iter_ : value -> W -> result (list value) * W).
Context (sum_ : value -> result value).
Context (truth_ : value -> bool).
Context (registry : ToolRegistry.t) (frames : list value).

Lemma map_m_literal (f : json -> M (state W) value) (l : list json) (st : state W) :
  (forall x, x ∈ l -> f x st = (Ok (literal_value x), st)) ->
  map_m W f l st = (Ok (map literal_value l), st).
Proof.
  induction l as [|x l IH]; intros Hf; [reflexivity|].
  cbn [map_m map]. unfold mbind at 1. rewrite (Hf x) by (by left).
  unfold mbind at 1. rewrite IH; [reflexivity|]. intros y Hy. apply Hf. by right.
Qed.

(** X11. A JSON literal (an expression that holds no object) evaluates to the
    value it writes, whatever the environment and the frames are, and
    without reading or changing anything. *)
Theorem literal_evaluates (fuel : nat) (expr : json) (st : state W) :
  is_literal expr = true ->
  (json_depth expr < fuel)%nat ->
  _eval_expr W getattr_ call_ iter_ sum_ fuel frames expr st
  = (Ok (literal_value expr), st).
Proof.
  revert expr. induction fuel as [|fuel IH]; intros expr Hlit Hd; [lia|].
  cbn [_eval_expr]. destruct expr as [| | | | |l|]; try reflexivity; [|discriminate].
  unfold mbind. rewrite map_m_literal; [reflexivity|].
  intros x Hx. apply IH.
  - cbn [is_literal] in Hlit. rewrite forallb_forall in Hlit. apply Hlit.
    by apply list_elem_of_In.
  - apply json_depth_elem in Hx. lia.
Qed.

(** X12. An [assign] step binds the name to the value of the expression, and
    the variable form then reads it back, whatever else the expression
    object holds; the other variables are untouched. A variable that is
    not bound is a [ToolError]. *)
Theorem assign_then_var (ev : json -> M (state W) value)
    (rs : list json -> M (state W) unit) (step : list (string * json))
    (name : string) (v : value) (st st1 : state W) :
  field_is step "op" "assign" = true ->
  get step "var" = JStr name ->
  name <> "" ->
  ev (get step "value") st = (Ok v, st1) ->
  run_step W getattr_ call_ truth_ registry ev rs (JObj step) st
  = (Ok tt, bind_var W name v st1)
  /\ (forall ev' expr,
        dict_get "var" expr = Some (JStr name) ->
        eval_dict W getattr_ call_ iter_ sum_ ev' frames expr (bind_var W name v st1)
        = (Ok v, bind_var W name v st1))
  /\ (forall other, other <> name ->
        dict_get other (env (bind_var W name v st1)) = dict_get other (env st1))
  /\ (forall ev' expr other (s : state W),
        dict_get "var" expr = Some (JStr other) ->
        dict_get other (env s) = None ->
        eval_dict W getattr_ call_ iter_ sum_ ev' frames expr s
        = (Raise (ToolError ("Undefined variable: " +:+ other)), s)).
Proof.
  intros Hop Hvar Hne Hev. split; [|split; [|split]].
  - unfold run_step.
    rewrite (field_is_unique _ _ _ "call" Hop), (field_is_unique _ _ _ "call_method" Hop)
      by discriminate.
    rewrite Hop, Hvar. destruct (String.eqb_spec name ""); [contradiction|].
    unfold mbind. rewrite Hev. reflexivity.
  - intros ev' expr Hexpr. unfold eval_dict. rewrite Hexpr.
    unfold mbind, get_state. cbn [bind_var env]. by rewrite dict_get_set_eq.
  - intros other Hother. cbn [bind_var env]. by apply dict_get_set_ne.
  - intros ev' expr other s Hexpr Hnone. unfold eval_dict. rewrite Hexpr.
    unfold mbind, get_state. by rewrite Hnone.
Qed.

(** X13. The frame selector takes an integer (a boolean counts as one) that is
    at least zero and less than the number of frames, and gives the frame
    at that position; any other id, a negative one included, is a
    [ToolError], and no frame is touched. *)
Theorem frame_selector_bounds (ev : json -> M (state W) value)
    (expr : list (string * json)) (st : state W) :
  dict_get "var" expr = None ->
  field_is expr "ref" "frame" = true ->
  (forall i, as_int (get expr "id") = Some i -> 0 <= i < Z.of_nat (length frames) ->
     exists frame, frames !! Z.to_nat i = Some frame
       /\ eval_dict W getattr_ call_ iter_ sum_ ev frames expr st = (Ok frame, st))
  /\ ((forall i, as_int (get expr "id") = Some i -> i < 0 \/ Z.of_nat (length frames) <= i) ->
      exists shown,
        eval_dict W getattr_ call_ iter_ sum_ ev frames expr st
        = (Raise (ToolError ("Invalid frame id: " +:+ shown)), st)).
Proof.
  intros Hvar Href. unfold eval_dict. rewrite Hvar, Href. unfold frame_ref. split.
  - intros i -> Hr.
    destruct (Z.leb_spec 0 i); [|lia].
    destruct (Z.ltb_spec i (Z.of_nat (length frames))); [|lia]. cbn [andb].
    destruct (lookup_lt_is_Some_2 frames (Z.to_nat i)) as [frame Hf]; [lia|].
    exists frame. split; [assumption|]. by rewrite Hf.
  - intros Hbad. eexists.
    destruct (as_int (get expr "id")) as [i|]; [|reflexivity].
    destruct (Hbad i eq_refl).
    + destruct (Z.leb_spec 0 i); [lia|reflexivity].
    + destruct (Z.ltb_spec i (Z.of_nat (length frames))); [lia|].
      rewrite andb_false_r. reflexivity.
Qed.

(** X14. The index form on a list follows Python's subscript: an index from
    zero up to the length gives that item, a negative one down to minus
    the length counts from the end, and any other integer raises
    [IndexError], which is not a [ToolError]; an index that is not an
    integer is a [ToolError]. *)
Theorem index_form_bounds (ev : json -> M (state W) value)
    (expr : list (string * json)) (l : list value) (idx : value) (st st1 st2 : state W) :
  dict_get "var" expr = None ->
  field_is expr "ref" "index" = true ->
  ev (get expr "list") st = (Ok (VList l), st1) ->
  ev (get expr "index") st1 = (Ok idx, st2) ->
  let n := Z.of_nat (length l) in
  let result := eval_dict W getattr_ call_ iter_ sum_ ev frames expr st in
  (forall i, value_as_int idx = Some i -> 0 <= i < n ->
     exists item, l !! Z.to_nat i = Some item /\ result = (Ok item, st2))
  /\ (forall i, value_as_int idx = Some i -> - n <= i < 0 ->
        exists item, l !! Z.to_nat (n + i) = Some item /\ result = (Ok item, st2))
  /\ (forall i, value_as_int idx = Some i -> i < - n \/ n <= i ->
        result = (Raise (PyError "IndexError" "list index out of range"), st2))
  /\ (value_as_int idx = None ->
      result = (Raise (ToolError "index.index must evaluate to int"), st2)).
Proof.
  intros Hvar Href Hl Hi n result. subst result.
  assert (Hnotframe : forall name, name <> "index" -> field_is expr "ref" name = false)
    by (intros name Hn; apply (field_is_unique _ _ _ _ Href); congruence).
  assert (E : eval_dict W getattr_ call_ iter_ sum_ ev frames expr st
              = match value_as_int idx with
                | Some i => subscript W getattr_ call_ (VList l) i idx st2
                | None => (Raise (ToolError "index.index must evaluate to int"), st2)
                end).
  { unfold eval_dict. rewrite Hvar, !Hnotframe by discriminate. rewrite Href.
    unfold mbind. rewrite Hl, Hi. by destruct (value_as_int idx). }
  rewrite E. unfold subscript, py_index. fold n.
  split; [|split; [|split]].
  - intros i -> Hr.
    destruct (Z.leb_spec 0 i); [|lia]. destruct (Z.ltb_spec i n); [|lia]. cbn [andb].
    destruct (lookup_lt_is_Some_2 l (Z.to_nat i)) as [item Hitem]; [lia|].
    exists item. split; [assumption|]. by rewrite Hitem.
  - intros i -> Hr.
    destruct (Z.leb_spec 0 i); [lia|]. cbn [andb].
    destruct (Z.leb_spec (- n) i); [|lia]. destruct (Z.ltb_spec i 0); [|lia]. cbn [andb].
    destruct (lookup_lt_is_Some_2 l (Z.to_nat (n + i))) as [item Hitem]; [lia|].
    exists item. split; [assumption|]. by rewrite Hitem.
  - intros i -> Hr.
    destruct (Z.leb_spec 0 i), (Z.ltb_spec i n), (Z.leb_spec (- n) i), (Z.ltb_spec i 0);
      cbn [andb]; try lia; reflexivity.
  - intros ->. reflexivity.
Qed.

(** X15. [filter_mask] on two lists of the same length keeps, in order, the
    items whose flag is [True], and as many of them as [sum] counts in the
    mask; lists of different lengths and a mask that holds anything but
    booleans are [ToolError]s. *)
Theorem filter_mask_keeps (ev : json -> M (state W) value)
    (expr : list (string * json)) (items mask : list value) (st st1 st2 : state W) :
  dict_get "var" expr = None ->
  dict_get "ref" expr = None ->
  field_is expr "op" "filter_mask" = true ->
  ev (get expr "items") st = (Ok (VList items), st1) ->
  ev (get expr "mask") st1 = (Ok (VList mask), st2) ->
  let result := eval_dict W getattr_ call_ iter_ sum_ ev frames expr st in
  (length items <> length mask ->
   result = (Raise (ToolError "filter_mask items and mask must be same length"), st2))
  /\ (forall flags, length items = length mask -> mask = map VBool flags ->
        result = (Ok (VList (kept items flags)), st2)
        /\ py_sum W sum_ (VList mask) st2
           = (Ok (VInt (Z.of_nat (length (kept items flags)))), st2))
  /\ (length items = length mask -> (forall flags, mask <> map VBool flags) ->
      result = (Raise (ToolError "filter_mask mask must contain booleans"), st2)).
Proof.
  intros Hvar Href Hop Hitems Hmask result. subst result.
  assert (Hnoref : forall name, field_is expr "ref" name = false).
  { intros name. unfold field_is, get. by rewrite Href. }
  assert (E : eval_dict W getattr_ call_ iter_ sum_ ev frames expr st
              = if negb (Nat.eqb (length items) (length mask))
                then (Raise (ToolError "filter_mask items and mask must be same length"), st2)
                else mbind (lift (filter_mask items mask)) (fun out => ret (VList out)) st2).
  { unfold eval_dict. rewrite Hvar, !Hnoref.
    rewrite (field_is_unique _ _ _ "map_attr" Hop) by discriminate. rewrite Hop.
    unfold mbind at 1. rewrite Hitems. unfold mbind at 1. rewrite Hmask.
    by destruct (negb _). }
  rewrite E. split; [|split].
  - intros Hlen. apply Nat.eqb_neq in Hlen. by rewrite Hlen.
  - intros flags Hlen ->. rewrite (proj2 (Nat.eqb_eq _ _) Hlen). cbn [negb].
    unfold mbind, lift. rewrite filter_mask_bools. split; [reflexivity|].
    rewrite List.length_map in Hlen.
    unfold py_sum. rewrite int_sum_bools, kept_length by assumption. reflexivity.
  - intros Hlen Hnb. rewrite (proj2 (Nat.eqb_eq _ _) Hlen). cbn [negb].
    unfold mbind, lift. by rewrite filter_mask_not_bools.
Qed.

End ExprFacts.

Section StepFacts.

Context (W : Type).
Context (getattr_ : value -> string -> W -> result value * W).
Context (call_ : value -> list value -> list (string * value) -> W -> result value * W).
Context (truth_ : value -> bool).
Context (registry : ToolRegistry.t).

(** X16. What a [call] step does once the tool is resolved and its arguments
    are evaluated. The tool is called with keyword arguments. An
    [Exception] it raises comes out as a [ToolError] that quotes the tool
    name and the message; whatever the tool did before raising stays done.
    When it returns, the result is bound under [save_as] if that is a
    non-empty string, dropped if [save_as] is absent or [null]; any other
    [save_as] is a [ToolError] raised after the tool has run. *)
Theorem call_step_outcomes (ev : json -> M (state W) value)
    (rs : list json -> M (state W) unit) (step : list (string * json))
    (tool_name : string) (spec : ToolRegistry.ToolSpec)
    (args_obj : list (string * json)) (args : list (string * value))
    (st st1 : state W) (r : result value) (w' : W) :
  field_is step "op" "call" = true ->
  get step "tool" = JStr tool_name ->
  ToolRegistry.get registry tool_name = Some spec ->
  get_or step "args" (JObj []) = JObj args_obj ->
  eval_args W ev args_obj st = (Ok args, st1) ->
  call_ (ToolRegistry.fn spec) [] args (world st1) = (r, w') ->
  let called := {| env := env st1; world := w';
                   trace := (trace st1 ++ [EvTool tool_name])%list |} in
  let outcome := run_step W getattr_ call_ truth_ registry ev rs (JObj step) st in
  (forall e, r = Raise e -> is_Exception e = true ->
     outcome = (Raise (ToolError ("Tool call failed: " +:+ tool_name +:+ ": "
                                  +:+ exn_str e)), called))
  /\ (forall e, r = Raise e -> is_Exception e = false -> outcome = (Raise e, called))
  /\ (forall v, r = Ok v -> get step "save_as" = JNull -> outcome = (Ok tt, called))
  /\ (forall v name, r = Ok v -> get step "save_as" = JStr name -> name <> "" ->
        outcome = (Ok tt, bind_var W name v called))
  /\ (forall v, r = Ok v ->
        get step "save_as" <> JNull ->
        (forall name, get step "save_as" = JStr name -> name = "") ->
        outcome = (Raise (ToolError "call.save_as must be non-empty string"), called)).
Proof.
  intros Hop Htool Hspec Hargs Heval Hcall called outcome.
  assert (E : outcome
              = mbind (fun s : state W =>
                         match r with
                         | Ok v => (Ok v, called)
                         | Raise e =>
                             if is_Exception e
                             then (Raise (ToolError ("Tool call failed: " +:+ tool_name
                                                     +:+ ": " +:+ exn_str e)), called)
                             else (Raise e, called)
                         end)
                      (fun result => save_result W "call" step result) st).
  { subst outcome. unfold run_step. rewrite Hop, Htool, Hspec, Hargs.
    unfold mbind at 1. rewrite Heval. unfold mbind at 1 3.
    unfold try_except, mbind, emit, modify, ask. cbn [world env trace].
    rewrite Hcall. subst called. destruct r as [v|e]; [reflexivity|].
    destruct (is_Exception e); reflexivity. }
  rewrite E. unfold mbind. repeat split.
  - intros e -> He. by rewrite He.
  - intros e -> He. by rewrite He.
  - intros v -> Hs. unfold save_result. by rewrite Hs.
  - intros v name -> Hs Hne. unfold save_result. rewrite Hs.
    by destruct (String.eqb_spec name "").
  - intros v -> Hnn Hs. unfold save_result.
    destruct (get step "save_as") as [| | | |name| |]; try reflexivity; [contradiction|].
    rewrite (Hs name eq_refl). reflexivity.
Qed.

End StepFacts.

(** ** Stage orchestrators: what a run leaves behind *)

(** [frames[i].description = desc], on the frame itself. *)
Definition described (desc : string) (f : Frame.t) : Frame.t :=
  Frame.mk (Some desc) (Frame.relations f) (Frame.interactable f)
           (Frame.interactables f) (Frame.subframes f).

Lemma store_descriptions_spec (i : nat) (ds : list string) (fs : list Frame.t) :
  exists fs',
    store_descriptions i ds fs = (Ok tt, fs')
    /\ length fs' = length fs
    /\ (forall k d, ds !! k = Some d -> (i + k < length fs)%nat ->
          Frame.description <$> fs' !! (i + k)%nat = Some (Some d))
    /\ (forall k, (k < i)%nat -> fs' !! k = fs !! k).
Proof.
  revert i fs. induction ds as [|d ds IH]; intros i fs; cbn [store_descriptions].
  - exists fs. split; [reflexivity|]. split; [reflexivity|]. split; [|done].
    intros k d Hk. by rewrite lookup_nil in Hk.
  - unfold mbind, modify.
    destruct (IH (S i) (alter (described d) i fs)) as (fs' & E & L & Hd & Hkeep).
    exists fs'. unfold described in E. rewrite E.
    split; [reflexivity|]. rewrite length_alter in L. split; [exact L|]. split.
    + intros [|k] d' Hk Hlt.
      * injection Hk as <-. rewrite Nat.add_0_r in *. rewrite Hkeep by lia.
        rewrite list_lookup_alter_eq.
        destruct (lookup_lt_is_Some_2 fs i Hlt) as [f ->]. reflexivity.
      * cbn in Hk. replace (i + S k)%nat with (S i + k)%nat by lia.
        apply Hd; [exact Hk|]. rewrite length_alter. lia.
    + intros k Hk. rewrite Hkeep by lia. apply list_lookup_alter_ne. lia.
Qed.

(** Storing a relation whose source is in range completes and rewrites
    the relations of one frame only. *)
Lemma store_relation_spec (rel : Stage1Relation) (fs : list Frame.t) :
  0 <= int_val (src rel) < Z.of_nat (length fs) ->
  exists fs',
    store_relation rel fs = (Ok tt, fs')
    /\ length fs' = length fs
    /\ (forall k, Frame.description <$> fs' !! k = Frame.description <$> fs !! k).
Proof.
  intros Hr. unfold store_relation, mbind. rewrite (frame_at_in_range _ _ Hr).
  eexists. split; [reflexivity|]. split; [apply length_alter|].
  intros k. destruct (decide (k = Z.to_nat (int_val (src rel)))) as [->|Hne].
  - rewrite list_lookup_alter_eq. by destruct (fs !! _).
  - by rewrite list_lookup_alter_ne.
Qed.

Lemma store_relations_spec (frames : Z) (rels : list json) (out : list Stage1Relation)
    (fs : list Frame.t) :
  Forall2 (relation_of frames) rels out ->
  frames = Z.of_nat (length fs) ->
  exists fs',
    for_each out store_relation fs = (Ok tt, fs')
    /\ length fs' = length fs
    /\ (forall k, Frame.description <$> fs' !! k = Frame.description <$> fs !! k).
Proof.
  intros H. revert fs. induction H as [|rel r rels out Hrel _ IH]; intros fs ->.
  - by exists fs.
  - destruct Hrel as (o & text & _ & _ & Hr & _).
    destruct (store_relation_spec r fs Hr) as (fs1 & E1 & L1 & D1).
    destruct (IH fs1) as (fs2 & E2 & L2 & D2); [congruence|].
    exists fs2. cbn [for_each]. unfold mbind. rewrite E1.
    split; [exact E2|]. split; [congruence|]. intros k. by rewrite D2, D1.
Qed.

Section StageRuns.

Context (A : Type).
Context (agent_call : string -> A -> result (option string) * A).
Context (agent_reset : A -> A).
Context (json_loads : string -> result json).
Context (W : Type).
Context (getattr_ : value -> string -> W -> result value * W).
Context (call_ : value -> list value -> list (string * value) -> W -> result value * W).
Context (iter_ : value -> W -> result (list value) * W).
Context (sum_ : value -> result value).
Context (truth_ : value -> bool).
Context (all_frames : list Frame.t -> list value).
Context (registry : ToolRegistry.t).


(** X18. [solution_composition] never returns normally and never runs the
    program it receives. An attempt whose reply parses and validates stops
    at [vision_tools.set_agent(agent)], where [vision_tools] names a text:
    the [AttributeError] is caught like any other [Exception] and the
    attempt is retried. So every run ends by raising, and leaves the
    frames and the world of the tools as they were. *)
Theorem solution_composition_never_completes (prompt : string) (s : session A W)
    (r : result unit) (s' : session A W) :
  solution_composition A agent_call agent_reset json_loads W getattr_ call_ iter_ sum_
    truth_ all_frames registry prompt s = (r, s') ->
  (exists e, r = Raise e) /\ tool_world s' = tool_world s /\ frames s' = frames s.
Proof.
  unfold solution_composition. generalize 4%nat as n, (@None exn) as feedback.
  intros n. revert prompt s. induction n as [|n IH]; intros prompt s feedback;
    cbn [stage3_loop].
  - unfold mbind, reset_agent, mbind, record, modify, raise. intros [= <- <-].
    split; [eauto|]. split; reflexivity.
  - unfold try_except.
    assert (Hbody : forall rb sb,
              stage3_body A agent_call agent_reset json_loads W getattr_ call_ iter_
                sum_ truth_ all_frames registry prompt s = (rb, sb) ->
              (exists e, rb = Raise e) /\ tool_world sb = tool_world s
              /\ frames sb = frames s).
    { intros rb sb. unfold stage3_body.
      unfold mbind at 1, reset_agent at 1, mbind at 1, record at 1, modify at 1 2.
      cbn [agent frames tool_world log].
      unfold mbind at 1, call_agent, mbind at 1, record at 1, modify at 1.
      cbn [agent frames tool_world log].
      destruct (agent_call prompt _) as [[response|e] a1].
      2:{ intros [= <- <-]. split; [eauto|]. split; reflexivity. }
      unfold mbind at 1, lift at 1.
      destruct (parse_json_from_response json_loads response) as [data|e].
      2:{ intros [= <- <-]. split; [eauto|]. split; reflexivity. }
      unfold mbind at 1, lift at 1.
      destruct (validate_stage3 data) as [program|e].
      2:{ intros [= <- <-]. split; [eauto|]. split; reflexivity. }
      unfold mbind at 1, reset_agent at 1, mbind at 1, record at 1, modify at 1 2.
      cbn [agent frames tool_world log].
      unfold mbind at 1, set_agent_on_text, raise.
      intros [= <- <-]. split; [eauto|]. split; reflexivity. }
    destruct (stage3_body _ _ _ _ _ _ _ _ _ _ _ _ prompt s) as [rb sb] eqn:Eb.
    destruct (Hbody _ _ eq_refl) as ((e & ->) & Hw & Hf).
    destruct (caught3 e).
    + unfold mbind at 1, record at 1, modify at 1. intros Hloop.
      apply IH in Hloop as (He & Hw' & Hf'). cbn [tool_world frames] in *.
      split; [exact He|]. split; congruence.
    + intros [= <- <-]. split; [eauto|]. by split.
Qed.

End StageRuns.

(** ** The GPT agent: what a call does to the history *)

Section GPTAgentFacts.

Context (Image : Type) (encode : Image -> result string).
Context (Client Service Metadata : Type).
Context (create : Client -> string -> list GPTAgent.message -> Service
                  -> result (option string * Metadata) * Service).

Local Abbreviation call := (GPTAgent.__call__ Image encode Client Service Metadata create).

Lemma image_parts_length (pairs : list (Image * string)) (parts : list GPTAgent.part) :
  GPTAgent.image_parts Image encode pairs = Ok parts ->
  length parts = (2 * length pairs)%nat.
Proof.
  revert parts. induction pairs as [|[image image_caption] pairs IH]; intros parts;
    cbn [GPTAgent.image_parts].
  - intros [= <-]. reflexivity.
  - destruct (encode image) as [b64|e]; [|discriminate]. cbn [bind].
    destruct (GPTAgent.image_parts Image encode pairs) as [more|e]; [|discriminate].
    cbn [bind]. intros [= <-]. cbn [length]. rewrite (IH more eq_refl). lia.
Qed.

Lemma numbered_length word n : length (numbered word n) = n.
Proof. unfold numbered. by rewrite List.length_map, length_seq. Qed.


End GPTAgentFacts.

(** ** Vision tools: the agent and the answers *)

Section VisionFacts.

Import vision_tools.

Context (Image A : Type).
Context (agent_call : string -> list (option Image) -> list string -> A
                      -> result (option string) * A).
Context (agent_reset : A -> A).
Context (re_search : string -> string -> option string).
Context (literal_eval : string -> result value).
Context (int_ : value -> result Z).
Context (Random : Type) (sample : nat -> Random -> list Z * Random).

Local Abbreviation vstate := (vision A Random).

(** The module after the agent has been called, and after it has been
    reset. *)
Definition holding (agent : A) (v : vstate) : vstate :=
  {| _agent := Some agent; generator := generator v |}.

Lemma require_then {B} (k : M vstate B) (v : vstate) (agent : A) :
  _agent v = Some agent ->
  mbind (_require_agent A Random) (fun _ => k) v = k (holding agent v).
Proof.
  intros H. unfold mbind, _require_agent, with_agent. rewrite H. reflexivity.
Qed.

Lemma with_agent_holding {B} (f : A -> result B * A) (agent : A) (v : vstate) :
  with_agent A Random f (holding agent v) = ((f agent).1, holding (f agent).2 v).
Proof. unfold with_agent, holding. cbn. by destruct (f agent). Qed.

(** One exchange with the agent, as [ask] and [compare] make it: require
    the agent, call it, reset it, go on with the reply. *)
Lemma agent_round {B} (prompt : string) (images : list (option Image))
    (image_captions : list string) (k : option string -> M vstate B)
    (v : vstate) (agent : A) (r : result (option string)) (agent' : A) :
  _agent v = Some agent ->
  agent_call prompt images image_captions agent = (r, agent') ->
  mbind (_require_agent A Random)
    (fun _ => mbind (with_agent A Random (agent_call prompt images image_captions))
       (fun response =>
          mbind (with_agent A Random (fun a => (Ok tt, agent_reset a)))
            (fun _ => k response))) v
  = match r with
    | Ok response => k response (holding (agent_reset agent') v)
    | Raise e => (Raise e, holding agent' v)
    end.
Proof.
  intros Hagent Hcall. rewrite (require_then _ _ _ Hagent).
  unfold mbind at 1. rewrite with_agent_holding, Hcall. cbn [fst snd].
  destruct r as [response|e]; [|reflexivity].
  unfold mbind at 1. rewrite with_agent_holding. reflexivity.
Qed.

(** X20. What [ask] does. Without an agent it raises the [RuntimeError] of
    [_require_agent] and calls nothing. With one, it sends one prompt with
    the images, captioned [Image 0], [Image 1], ...; if the agent raises,
    so does [ask], and the agent is not reset; if it replies, the agent is
    reset at once, whatever the reply. A reply in which the pattern of the
    answer type is not found gives one [False] per image for the type
    [bool] and one [0] per image for any other type, [str] included. A
    reply in which it is found gives the list written there, except that a
    question that holds [point to the object directly below the letter]
    gives [[11]] and one that holds [point to the letter] gives [[7]]. A
    reply in which it is found but where the text found is no literal, or
    no list, makes [ask] raise the exception of the reading: there is no
    default then. *)
Theorem ask_outcomes (images : list Image) (question answer_type : string) (v : vstate) :
  let run := ask Image A agent_call agent_reset re_search literal_eval Random
               images question answer_type in
  (_agent v = None -> run v = (Raise RuntimeError_no_agent, v))
  /\ (forall agent r agent',
        _agent v = Some agent ->
        agent_call (ask_prompt question answer_type) (map Some images)
          (numbered "Image" (length images)) agent = (r, agent') ->
        (forall e, r = Raise e -> run v = (Raise e, holding agent' v))
        /\ (forall response, r = Ok response ->
              (run v).2 = holding (agent_reset agent') v)
        /\ (forall text, r = Ok (Some text) ->
              re_search (ask_pattern answer_type) text = None ->
              run v = (Ok (replicate (length images)
                             (if String.eqb answer_type "bool" then VBool false else VInt 0)),
                       holding (agent_reset agent') v))
        /\ (forall text group answers, r = Ok (Some text) ->
              re_search (ask_pattern answer_type) text = Some group ->
              literal_eval group = Ok (VList answers) ->
              run v = (Ok (if contains "point to the object directly below the letter"
                                (py_lower question)
                           then [VInt 11]
                           else if contains "point to the letter" (py_lower question)
                           then [VInt 7]
                           else answers),
                       holding (agent_reset agent') v))
        /\ (forall text group e, r = Ok (Some text) ->
              re_search (ask_pattern answer_type) text = Some group ->
              _safe_literal_list literal_eval group = Raise e ->
              run v = (Raise e, holding (agent_reset agent') v))).
Proof.
  intros run. subst run. unfold ask. cbv zeta. split.
  - intros Hnone. unfold mbind, _require_agent, with_agent. by rewrite Hnone.
  - intros agent r agent' Hagent Hcall.
    rewrite !(agent_round _ _ _ _ _ _ _ _ Hagent Hcall).
    split; [intros e ->; reflexivity|]. split; [|split; [|split]].
    + intros response ->. unfold mbind, lift.
      destruct (search re_search (ask_pattern answer_type) response) as [[group|]|e];
        [|by destruct (String.eqb answer_type "bool")|reflexivity].
      by destruct (_safe_literal_list literal_eval group).
    + intros text -> Hnone. unfold mbind, lift, search. rewrite Hnone.
      by destruct (String.eqb answer_type "bool").
    + intros text group answers -> Hsome Hlit.
      unfold mbind, lift, search, _safe_literal_list. rewrite Hsome, Hlit. cbn [bind].
      destruct (contains "point to the object directly below the letter" _);
        [reflexivity|].
      by destruct (contains "point to the letter" _).
    + intros text group e -> Hsome Hlit.
      unfold mbind, lift, search. by rewrite Hsome, Hlit.
Qed.

(** X21. What [compare] does: the same discipline with the agent as [ask]; the
    reference image goes first, captioned [Reference], before the items,
    captioned [Item 0], [Item 1], ...; a reply without an answer gives one
    [False] per item, the reference not counted; a reply with one gives the
    list written there as it is, its length unchecked; a text found that
    is no literal, or no list, makes [compare] raise. *)
Theorem compare_outcomes (images : list Image) (task_objective : string)
    (reference : option Image) (v : vstate) :
  let run := compare Image A agent_call agent_reset re_search literal_eval Random
               images task_objective reference in
  (_agent v = None -> run v = (Raise RuntimeError_no_agent, v))
  /\ (forall agent r agent',
        _agent v = Some agent ->
        agent_call (compare_prompt task_objective) (reference :: map Some images)
          ("Reference" :: numbered "Item" (length images)) agent = (r, agent') ->
        (forall e, r = Raise e -> run v = (Raise e, holding agent' v))
        /\ (forall response, r = Ok response ->
              (run v).2 = holding (agent_reset agent') v)
        /\ (forall text, r = Ok (Some text) ->
              re_search booleans_pattern text = None ->
              run v = (Ok (replicate (length images) (VBool false)),
                       holding (agent_reset agent') v))
        /\ (forall text group answers, r = Ok (Some text) ->
              re_search booleans_pattern text = Some group ->
              literal_eval group = Ok (VList answers) ->
              run v = (Ok answers, holding (agent_reset agent') v))
        /\ (forall text group e, r = Ok (Some text) ->
              re_search booleans_pattern text = Some group ->
              _safe_literal_list literal_eval group = Raise e ->
              run v = (Raise e, holding (agent_reset agent') v))).
Proof.
  intros run. subst run. unfold compare. cbv zeta.
  replace (length (reference :: map Some images) - 1)%nat with (length images)
    by (cbn [length]; rewrite List.length_map; lia).
  split.
  - intros Hnone. unfold mbind, _require_agent, with_agent. by rewrite Hnone.
  - intros agent r agent' Hagent Hcall.
    rewrite !(agent_round _ _ _ _ _ _ _ _ Hagent Hcall).
    split; [intros e ->; reflexivity|]. split; [|split; [|split]].
    + intros response ->. unfold mbind, lift.
      destruct (search re_search booleans_pattern response) as [[group|]|e];
        [|reflexivity|reflexivity].
      by destruct (_safe_literal_list literal_eval group).
    + intros text -> Hnone. unfold mbind, lift, search. by rewrite Hnone.
    + intros text group answers -> Hsome Hlit.
      unfold mbind, lift, search, _safe_literal_list. by rewrite Hsome, Hlit.
    + intros text group e -> Hsome Hlit.
      unfold mbind, lift, search. by rewrite Hsome, Hlit.
Qed.

End VisionFacts.

(** ** Vision tools: the tournament of [rank] *)

(** Induction on a tree of nodes. *)
Lemma Node_induction (P : Node.t -> Prop) :
  (forall id children, Forall P children -> P (Node.mk id children)) ->
  forall node, P node.
Proof.
  intros H. fix IH 1. intros [id children]. apply H.
  induction children as [|child children IHc]; constructor; [apply IH|exact IHc].
Qed.

(** The ids held in a tree. *)
Fixpoint node_ids (node : Node.t) : list nat :=
  Node.id node :: concat (map node_ids (Node.children node)).

Lemma item_elem {X} (l : list X) (i : Z) (x : X) : item l i = Ok x -> x ∈ l.
Proof.
  unfold item. destruct (py_index (length l) i) as [k|]; [|discriminate].
  destruct (l !! k) as [y|] eqn:E; [|discriminate]. intros [= <-].
  by eapply list_elem_of_lookup_2.
Qed.

Lemma map_result_Forall2 {X Y} (f : X -> result Y) (l : list X) (out : list Y) :
  map_result f l = Ok out -> Forall2 (fun x y => f x = Ok y) l out.
Proof.
  revert out. induction l as [|x l IH]; intros out; cbn [map_result].
  - intros [= <-]. constructor.
  - destruct (f x) as [y|e] eqn:E; [|discriminate]. cbn [bind].
    destruct (map_result f l) as [ys|e]; [|discriminate]. cbn [bind].
    intros [= <-]. constructor; [exact E|by apply IH].
Qed.

Lemma map_result_items {X} (batch : list X) (ranking : list Z) (out : list X) :
  map_result (item batch) ranking = Ok out -> Forall (fun x => x ∈ batch) out.
Proof.
  intros H%map_result_Forall2. induction H as [|i x ranking out Hi _ IH]; constructor.
  - by eapply item_elem.
  - exact IH.
Qed.

(** The walk of [preorder] keeps the ids seen and the ids listed the same,
    lists no id twice, and adds ids of the tree only. *)
Definition walk_ok (acc : gset nat * list nat) : Prop :=
  NoDup acc.2 /\ forall x, x ∈ acc.1 <-> x ∈ acc.2.

Lemma traverse_spec (node : Node.t) :
  forall acc, walk_ok acc ->
    walk_ok (traverse node acc)
    /\ (forall x, x ∈ (traverse node acc).2 -> x ∈ acc.2 \/ x ∈ node_ids node)
    /\ (forall x, x ∈ acc.2 -> x ∈ (traverse node acc).2)
    /\ Node.id node ∈ (traverse node acc).2.
Proof.
  induction node as [id children IH] using Node_induction. intros acc Hacc.
  cbn [traverse Node.id Node.children node_ids].
  set (acc1 := if bool_decide (id ∈ acc.1) then acc
               else ({[ id ]} ∪ acc.1, (acc.2 ++ [id])%list)).
  assert (H1 : walk_ok acc1 /\ (forall x, x ∈ acc1.2 -> x ∈ acc.2 \/ x = id)
               /\ (forall x, x ∈ acc.2 -> x ∈ acc1.2) /\ id ∈ acc1.2).
  { subst acc1. destruct Hacc as [Hnd Hseen].
    destruct (bool_decide (id ∈ acc.1)) eqn:Hin.
    - apply bool_decide_eq_true in Hin.
      split; [exact (conj Hnd Hseen)|]. split; [intros x Hx; by left|].
      split; [auto|]. by apply Hseen.
    - apply bool_decide_eq_false in Hin. unfold walk_ok. cbn [fst snd].
      split; [split|split; [|split]].
      + apply NoDup_app. repeat split; [exact Hnd| |apply NoDup_singleton].
        intros x Hx ->%list_elem_of_singleton. apply Hin, Hseen, Hx.
      + intros x.
        rewrite elem_of_union, elem_of_singleton, elem_of_app, list_elem_of_singleton, Hseen.
        tauto.
      + intros x. rewrite elem_of_app, list_elem_of_singleton. tauto.
      + intros x Hx. apply elem_of_app. by left.
      + apply elem_of_app. right. by apply list_elem_of_singleton. }
  clearbody acc1. destruct H1 as (Hok1 & Hsub1 & Hkeep1 & Hid1).
  assert (Hfold : forall acc2, walk_ok acc2 ->
            let out := fold_left (fun acc child => traverse child acc) children acc2 in
            walk_ok out
            /\ (forall x, x ∈ out.2 -> x ∈ acc2.2 \/ x ∈ concat (map node_ids children))
            /\ (forall x, x ∈ acc2.2 -> x ∈ out.2)).
  { clear Hok1 Hsub1 Hkeep1 Hid1.
    induction IH as [|child children Hchild _ IHc]; intros acc2 Hok2; cbn [fold_left].
    - repeat split; try apply Hok2; auto.
    - destruct (Hchild acc2 Hok2) as (Hok3 & Hsub3 & Hkeep3 & _).
      destruct (IHc _ Hok3) as (Hok4 & Hsub4 & Hkeep4).
      split; [exact Hok4|]. split.
      + intros x Hx. cbn [map concat]. destruct (Hsub4 x Hx) as [Hx3|Hx3].
        * destruct (Hsub3 x Hx3); [by left|right; apply elem_of_app; by left].
        * right. apply elem_of_app. by right.
      + intros x Hx. by apply Hkeep4, Hkeep3. }
  destruct (Hfold acc1 Hok1) as (Hok & Hsub & Hkeep).
  split; [exact Hok|]. split; [|split].
  - intros x Hx. destruct (Hsub x Hx) as [Hx1|Hx1].
    + destruct (Hsub1 x Hx1) as [?| ->]; [by left|right; by left].
    + right. by right.
  - intros x Hx. by apply Hkeep, Hkeep1.
  - by apply Hkeep.
Qed.

Lemma preorder_spec (root : Node.t) :
  NoDup (preorder root)
  /\ Node.id root ∈ preorder root
  /\ forall x, x ∈ preorder root -> x ∈ node_ids root.
Proof.
  unfold preorder.
  destruct (traverse_spec root (∅, [])) as ((Hnd & _) & Hsub & _ & Hid).
  - split; [constructor|]. intros x. cbn. rewrite elem_of_empty, elem_of_nil. tauto.
  - split; [exact Hnd|]. split; [exact Hid|].
    intros x Hx. destruct (Hsub x Hx) as [Hnil|]; [|assumption].
    by apply elem_of_nil in Hnil.
Qed.

Lemma mbind_Ok {S X Y} (c : M S X) (k : X -> M S Y) (s s' : S) (y : Y) :
  mbind c k s = (Ok y, s') -> exists x s1, c s = (Ok x, s1) /\ k x s1 = (Ok y, s').
Proof.
  unfold mbind. destruct (c s) as [[x|e] s1]; [eauto|discriminate].
Qed.

Lemma lift_Ok {S X} (r : result X) (s s' : S) (x : X) :
  lift r s = (Ok x, s') -> r = Ok x /\ s' = s.
Proof. unfold lift. by intros [= -> ->]. Qed.

Lemma map_M_Forall2 {S X Y} (f : X -> M S Y) (P : X -> Y -> Prop) (l : list X) :
  (forall x s y s', f x s = (Ok y, s') -> P x y) ->
  forall s out s', map_M f l s = (Ok out, s') -> Forall2 P l out.
Proof.
  intros Hf. induction l as [|x l IH]; intros s out s'; cbn [map_M].
  - intros [= <- <-]. constructor.
  - intros (y & s1 & Hy & H)%mbind_Ok. apply mbind_Ok in H as (ys & s2 & Hys & H).
    injection H as <- <-. constructor; [by eapply Hf|by eapply IH].
Qed.

Section RankFacts.

Import vision_tools.

Context (Image A : Type).
Context (agent_call : string -> list (option Image) -> list string -> A
                      -> result (option string) * A).
Context (agent_reset : A -> A).
Context (re_search : string -> string -> option string).
Context (literal_eval : string -> result value).
Context (int_ : value -> result Z).
Context (Random : Type) (sample : nat -> Random -> list Z * Random).

Local Abbreviation vstate := (vision A Random).
Local Abbreviation top_rank :=
  (get_top_rank Image A agent_call agent_reset re_search literal_eval int_ Random sample).
Local Abbreviation batch_rank :=
  (rank_batch Image A agent_call agent_reset re_search literal_eval int_ Random sample).
Local Abbreviation rounds_rank :=
  (rank_rounds Image A agent_call agent_reset re_search literal_eval int_ Random sample).

(** The node that [get_top_rank] returns carries the id of a node of the
    batch, and its children are nodes of the batch. *)
Definition drawn_from (batch : list Node.t) (node : Node.t) : Prop :=
  (exists best, best ∈ batch /\ Node.id node = Node.id best)
  /\ Forall (fun child => child ∈ batch) (Node.children node).

Lemma get_top_rank_drawn prompt batch batch_image batch_captions (v v' : vstate) node :
  top_rank prompt batch batch_image batch_captions v = (Ok node, v') ->
  drawn_from batch node.
Proof.
  unfold get_top_rank. intros H.
  apply mbind_Ok in H as (_ & v1 & _ & H).
  apply mbind_Ok in H as (response & v2 & _ & H).
  apply mbind_Ok in H as (found & v3 & _ & H).
  apply mbind_Ok in H as (ranking0 & v4 & _ & H).
  apply mbind_Ok in H as (ranking1 & v5 & _ & H).
  apply mbind_Ok in H as (ranking2 & v6 & _ & H).
  cbv zeta in H.
  apply mbind_Ok in H as (first & v7 & _ & H).
  apply mbind_Ok in H as (best & v8 & [Hbest _]%lift_Ok & H).
  apply mbind_Ok in H as (children & v9 & [Hchildren _]%lift_Ok & H).
  apply mbind_Ok in H as (_ & v10 & _ & H).
  injection H as <- _. split.
  - exists best. split; [by eapply item_elem|reflexivity].
  - by eapply map_result_items.
Qed.

Lemma rank_batch_drawn images task_objective batch (v v' : vstate) node :
  batch_rank images task_objective batch v = (Ok node, v') -> drawn_from batch node.
Proof.
  unfold rank_batch. cbv zeta. intros (imgs & v1 & _ & H)%mbind_Ok.
  by eapply get_top_rank_drawn.
Qed.

(** A round on one batch gives one node. *)
Lemma round_single images task_objective batch (v v' : vstate) next :
  map_M (batch_rank images task_objective) [batch] v = (Ok next, v') ->
  exists node, next = [node] /\ drawn_from batch node.
Proof.
  cbn [map_M]. intros (node & v1 & Hnode & H)%mbind_Ok.
  unfold mbind, ret in H. injection H as <- _.
  exists node. split; [reflexivity|]. by eapply rank_batch_drawn.
Qed.

Lemma rank_rounds_S (k : nat) images task_objective batches :
  rounds_rank (S k) images task_objective batches
  = mbind (map_M (batch_rank images task_objective) batches)
      (fun next_batch =>
         match next_batch with
         | [best_node] => ret best_node
         | _ => rounds_rank k images task_objective [next_batch]
         end).
Proof. reflexivity. Qed.

(** The loop of [rank] ends within two rounds: more rounds change
    nothing. *)
Lemma rank_rounds_two (rounds : nat) images task_objective batches (v : vstate) :
  rounds_rank (S (S rounds)) images task_objective batches v
  = rounds_rank 2 images task_objective batches v.
Proof.
  rewrite (rank_rounds_S (S rounds)), (rank_rounds_S 1). unfold mbind.
  destruct (map_M _ batches v) as [[next|e] v1]; [|reflexivity].
  assert (Hsecond : forall k,
            rounds_rank (S k) images task_objective [next] v1
            = rounds_rank 1 images task_objective [next] v1).
  { intros k. rewrite !rank_rounds_S. unfold mbind.
    destruct (map_M _ [next] v1) as [[next2|e] v2] eqn:E; [|reflexivity].
    apply round_single in E as (node & -> & _). reflexivity. }
  destruct next as [|n1 [|n2 next]]; [|reflexivity|]; apply Hsecond.
Qed.

(** The ids of a tree are below [n]. *)
Definition below (n : nat) (node : Node.t) : Prop :=
  Forall (fun i => (i < n)%nat) (node_ids node).

Lemma drawn_below (n : nat) (batch : list Node.t) (node : Node.t) :
  Forall (below n) batch -> drawn_from batch node -> below n node.
Proof.
  intros Hbatch [(best & Hin & Hid) Hchildren]. rewrite Forall_forall in Hbatch.
  unfold below. destruct node as [id children]. cbn [node_ids Node.id Node.children] in *.
  constructor.
  - subst id. specialize (Hbatch best Hin). unfold below in Hbatch.
    destruct best as [bid ?]. cbn [node_ids Node.id] in *. by inversion Hbatch.
  - apply Forall_concat, Forall_fmap. rewrite Forall_forall in Hchildren.
    apply Forall_forall. intros child Hchild. apply Hbatch, Hchildren, Hchild.
Qed.

Lemma round_below (n : nat) images task_objective batches (v v' : vstate) next :
  Forall (Forall (below n)) batches ->
  map_M (batch_rank images task_objective) batches v = (Ok next, v') ->
  Forall (below n) next /\ length next = length batches.
Proof.
  intros Hb H.
  assert (H2 : Forall2 drawn_from batches next).
  { eapply map_M_Forall2; [|exact H]. intros batch s node s' Hn.
    by eapply rank_batch_drawn. }
  split; [|symmetry; by eapply Forall2_length].
  clear H. induction H2 as [|batch node batches next Hd _ IH]; [constructor|].
  inversion Hb; subst. constructor; [by eapply drawn_below|by apply IH].
Qed.

Lemma rounds_below (n : nat) images task_objective batches (v v' : vstate) root :
  Forall (Forall (below n)) batches ->
  rounds_rank 2 images task_objective batches v = (Ok root, v') ->
  below n root /\ batches <> [].
Proof.
  intros Hb. rewrite rank_rounds_S.
  intros (next & v1 & Hnext & H)%mbind_Ok.
  destruct (round_below _ _ _ _ _ _ _ Hb Hnext) as [Hbelow Hlen].
  assert (Hsecond : forall root,
            rounds_rank 1 images task_objective [next] v1 = (Ok root, v') ->
            below n root /\ next <> []).
  { intros root'. rewrite rank_rounds_S.
    intros (next2 & v2 & Hnext2 & H2)%mbind_Ok.
    destruct (round_below n _ _ [next] _ _ _ (Forall_cons_2 _ _ _ Hbelow (Forall_nil_2 _))
                Hnext2) as [Hbelow2 _].
    apply round_single in Hnext2 as (node & -> & [(best & Hin & _) _]).
    injection H2 as <- _. split; [by inversion Hbelow2|].
    intros ->. by apply elem_of_nil in Hin. }
  destruct next as [|n1 [|n2 next]].
  - apply Hsecond in H as [_ Hne]. by destruct Hne.
  - injection H as <- _. split; [by inversion Hbelow|].
    intros ->. discriminate.
  - apply Hsecond in H as [Hroot _]. split; [exact Hroot|].
    intros ->. discriminate.
Qed.

(** X22. Whenever [rank] returns, the list of images was not empty, and
    the ids returned are not empty, hold no id twice and are all indices
    of [images]. The loop [while True] ends within two rounds: the first
    leaves one node per batch, and these nodes are the one batch of the
    second; a bound of more than two rounds changes nothing. *)
Theorem rank_ids (images : list Image) (task_objective : string) (v : vstate) :
  let run := rank Image A agent_call agent_reset re_search literal_eval int_ Random sample in
  (forall ids v', run images task_objective v = (Ok ids, v') ->
     images <> [] /\ ids <> [] /\ NoDup ids
     /\ Forall (fun i => (i < length images)%nat) ids)
  /\ (forall rounds batches,
        rounds_rank (S (S rounds)) images task_objective batches v
        = rounds_rank 2 images task_objective batches v).
Proof.
  cbv zeta. split; [|intros; apply rank_rounds_two].
  intros ids v'. unfold rank. cbv zeta.
  intros (root & v1 & Hroot & H)%mbind_Ok. injection H as <- _.
  set (nodes := map (fun i => Node.mk i []) (seq 0 (length images))) in Hroot.
  assert (Hnodes : Forall (below (length images)) nodes).
  { subst nodes. apply Forall_fmap, Forall_forall. intros i Hi%elem_of_seq.
    unfold below. cbn. constructor; [lia|constructor]. }
  apply (rounds_below (length images)) in Hroot as [Hbelow Hne].
  - destruct (preorder_spec root) as (Hnd & Hid & Hsub).
    split; [|split; [|split; [exact Hnd|]]].
    + intros ->. by apply Hne.
    + intros E. rewrite E in Hid. by apply elem_of_nil in Hid.
    + apply Forall_forall. intros x Hx%Hsub. unfold below in Hbelow.
      rewrite Forall_forall in Hbelow. by apply Hbelow.
  - apply Forall_fmap, Forall_forall. intros k _. cbn.
    apply Forall_forall. intros node Hnode.
    rewrite Forall_forall in Hnodes. apply Hnodes.
    apply elem_of_take in Hnode as (i & Hi & _).
    rewrite lookup_drop in Hi. by eapply list_elem_of_lookup_2.
Qed.

End RankFacts.

(** The ranking that [get_top_rank] works with, for a batch of [n] nodes
    and the ranking [listed] in the reply: shifted to count from 0, then
    clamped and de-duplicated, and the identity ranking if nothing is
    left. *)
Definition usable_ranking (n : nat) (listed : list Z) : list Z :=
  match shift_ranking listed with
  | Ok shifted =>
      match clamp_dedup (Z.of_nat n) ∅ shifted with
      | [] => map Z.of_nat (seq 0 n)
      | kept => kept
      end
  | Raise _ => []
  end.

Lemma clamp_dedup_spec (n : Z) (ranking : list Z) :
  forall seen,
    Forall (fun i => 0 <= i < n /\ i ∉ seen) (clamp_dedup n seen ranking)
    /\ NoDup (clamp_dedup n seen ranking).
Proof.
  induction ranking as [|i rest IH]; intros seen; cbn [clamp_dedup].
  - split; constructor.
  - destruct (Z.leb_spec 0 i), (Z.ltb_spec i n); cbn [andb]; try apply IH.
    destruct (bool_decide (i ∈ seen)) eqn:Hin; cbn [negb]; [apply IH|].
    apply bool_decide_eq_false in Hin.
    destruct (IH ({[ i ]} ∪ seen)) as [Hall Hnd]. split.
    + constructor; [split; [lia|exact Hin]|].
      eapply Forall_impl; [exact Hall|]. intros j [Hj Hnot]. split; [exact Hj|].
      intros Hs. apply Hnot. apply elem_of_union. by right.
    + constructor; [|exact Hnd]. intros Hi.
      rewrite Forall_forall in Hall. destruct (Hall i Hi) as [_ Hnot].
      apply Hnot. apply elem_of_union. left. by apply elem_of_singleton.
Qed.

(** A ranking that lists each of [0 .. n-1] at most once and nothing else
    is left as it is. *)
Lemma clamp_dedup_id (n : Z) (ranking : list Z) :
  NoDup ranking -> Forall (fun i => 0 <= i < n) ranking ->
  forall seen, (forall i, i ∈ ranking -> i ∉ seen) ->
  clamp_dedup n seen ranking = ranking.
Proof.
  intros Hnd. induction Hnd as [|i rest Hi Hnd IH]; intros Hall seen Hseen;
    cbn [clamp_dedup]; [reflexivity|].
  inversion Hall as [|? ? Hr Hrest]; subst.
  destruct (Z.leb_spec 0 i), (Z.ltb_spec i n); try lia. cbn [andb].
  rewrite bool_decide_eq_false_2 by (apply Hseen; by left). cbn [negb].
  f_equal. apply IH; [exact Hrest|].
  intros j Hj [ ->%elem_of_singleton|Hs]%elem_of_union; [contradiction|].
  apply (Hseen j); [by right|exact Hs].
Qed.

Lemma usable_ranking_spec (n : nat) (listed : list Z) :
  (0 < n)%nat -> listed <> [] ->
  usable_ranking n listed <> []
  /\ NoDup (usable_ranking n listed)
  /\ Forall (fun i => 0 <= i < Z.of_nat n) (usable_ranking n listed).
Proof.
  intros Hn Hne. unfold usable_ranking, shift_ranking.
  destruct listed as [|x listed]; [contradiction|]. cbn [min_of bind].
  set (shifted := if _ =? 1 then _ else _). clearbody shifted.
  destruct (clamp_dedup_spec (Z.of_nat n) shifted ∅) as [Hall Hnd].
  destruct (clamp_dedup (Z.of_nat n) ∅ shifted) as [|i kept] eqn:E.
  - split; [|split].
    + destruct n; [lia|]. cbn. discriminate.
    + apply (NoDup_fmap_2 Z.of_nat), NoDup_seq.
    + apply Forall_fmap, Forall_forall. intros k Hk%elem_of_seq. cbn. lia.
  - split; [discriminate|]. split; [exact Hnd|].
    eapply Forall_impl; [exact Hall|]. by intros j [Hj _].
Qed.

(** The leaves that [rank] starts from. *)
Definition leaf (i : nat) : Node.t := Node.mk i [].

Lemma item_in_range {X} (l : list X) (i : Z) (x : X) :
  0 <= i -> l !! Z.to_nat i = Some x -> item l i = Ok x.
Proof.
  intros Hi Hx. unfold item, py_index.
  pose proof (lookup_lt_Some _ _ _ Hx) as Hlt.
  destruct (Z.leb_spec 0 i); [|lia].
  destruct (Z.ltb_spec i (Z.of_nat (length l))); [|lia]. cbn [andb]. by rewrite Hx.
Qed.

Lemma leaves_item (n : nat) (i : Z) :
  0 <= i < Z.of_nat n -> item (map leaf (seq 0 n)) i = Ok (leaf (Z.to_nat i)).
Proof.
  intros Hi. apply item_in_range; [lia|].
  change (map leaf (seq 0 n)) with (leaf <$> seq 0 n).
  rewrite list_lookup_fmap, lookup_seq_lt by lia. reflexivity.
Qed.

Lemma leaves_items (n : nat) (ranking : list Z) :
  Forall (fun i => 0 <= i < Z.of_nat n) ranking ->
  map_result (item (map leaf (seq 0 n))) ranking = Ok (map leaf (map Z.to_nat ranking)).
Proof.
  induction 1 as [|i ranking Hi _ IH]; [reflexivity|].
  cbn [map_result map]. rewrite (leaves_item n i Hi). cbn [bind]. rewrite IH. reflexivity.
Qed.

Lemma leaves_images {Image} (images : list Image) (k : nat) (rest : list Image) :
  forall pre, images = (pre ++ rest)%list -> k = length pre ->
  map_result (fun node => item images (Z.of_nat (Node.id node)))
    (map leaf (seq k (length rest))) = Ok rest.
Proof.
  revert k. induction rest as [|x rest IH]; intros k pre Himages Hk; [reflexivity|].
  cbn [length seq map map_result leaf Node.id].
  rewrite (item_in_range images (Z.of_nat k) x).
  - cbn [bind]. rewrite (IH (S k) (pre ++ [x])%list).
    + reflexivity.
    + by rewrite <- app_assoc.
    + rewrite length_app. cbn. lia.
  - lia.
  - rewrite Nat2Z.id, Himages, Hk. by rewrite list_lookup_middle.
Qed.

(** The walk over leaves that were not seen lists them in order. *)
Lemma walk_leaves (ids : list nat) :
  forall acc, walk_ok acc -> NoDup ids -> (forall x, x ∈ ids -> x ∉ acc.2) ->
  (fold_left (fun acc child => traverse child acc) (map leaf ids) acc).2
  = (acc.2 ++ ids)%list.
Proof.
  induction ids as [|i ids IH]; intros acc Hok Hnd Hnew; cbn [map fold_left].
  - by rewrite app_nil_r.
  - inversion Hnd as [|? ? Hi Hnd']; subst.
    destruct Hok as [Hnd0 Hseen].
    assert (Hnot : i ∉ acc.1) by (intros Hs; apply (Hnew i); [by left|by apply Hseen]).
    cbn [traverse leaf Node.id Node.children fold_left].
    rewrite (bool_decide_eq_false_2 _ Hnot).
    rewrite IH; cbn [fst snd].
    + by rewrite <- app_assoc.
    + split; cbn [fst snd].
      * apply NoDup_app. repeat split; [exact Hnd0| |apply NoDup_singleton].
        intros x Hx ->%list_elem_of_singleton. apply (Hnew i); [by left|exact Hx].
      * intros x.
        rewrite elem_of_union, elem_of_singleton, elem_of_app, list_elem_of_singleton, Hseen.
        tauto.
    + exact Hnd'.
    + intros x Hx [Hacc| ->%list_elem_of_singleton]%elem_of_app.
      * apply (Hnew x); [by right|exact Hacc].
      * contradiction.
Qed.

Lemma traverse_leaves (i : nat) (ids : list nat) (acc : gset nat * list nat) :
  walk_ok acc -> NoDup (i :: ids) -> (forall x, x ∈ i :: ids -> x ∉ acc.2) ->
  (traverse (Node.mk i (map leaf (i :: ids))) acc).2 = (acc.2 ++ i :: ids)%list.
Proof.
  intros [Hnd0 Hseen] Hnd Hnew. inversion Hnd as [|? ? Hi Hnd']; subst.
  assert (Hnot : i ∉ acc.1) by (intros Hs; apply (Hnew i); [by left|by apply Hseen]).
  assert (Hin : i ∈ ({[ i ]} ∪ acc.1 : gset nat))
    by (apply elem_of_union; left; by apply elem_of_singleton).
  cbn [traverse Node.id Node.children map fold_left leaf].
  rewrite (bool_decide_eq_false_2 _ Hnot). cbn [fst snd].
  rewrite (bool_decide_eq_true_2 _ Hin).
  change (map (fun i0 => Node.mk i0 []) ids) with (map leaf ids).
  rewrite walk_leaves; cbn [fst snd].
  - by rewrite <- app_assoc.
  - split; cbn [fst snd].
    + apply NoDup_app. repeat split; [exact Hnd0| |apply NoDup_singleton].
      intros x Hx ->%list_elem_of_singleton. apply (Hnew i); [by left|exact Hx].
    + intros x.
      rewrite elem_of_union, elem_of_singleton, elem_of_app, list_elem_of_singleton, Hseen.
      tauto.
  - exact Hnd'.
  - intros x Hx [Hacc| ->%list_elem_of_singleton]%elem_of_app.
    + apply (Hnew x); [by right|exact Hacc].
    + contradiction.
Qed.

Lemma preorder_leaves (i : nat) (ids : list nat) :
  NoDup (i :: ids) -> preorder (Node.mk i (map leaf (i :: ids))) = i :: ids.
Proof.
  intros Hnd. unfold preorder. rewrite traverse_leaves; [reflexivity| |exact Hnd|].
  - split; [constructor|]. intros x. cbn. rewrite elem_of_empty, elem_of_nil. tauto.
  - intros x _ Hx. by apply elem_of_nil in Hx.
Qed.

Lemma items_in_range {X} (batch : list X) (ranking : list Z) :
  Forall (fun i => 0 <= i < Z.of_nat (length batch)) ranking ->
  exists items,
    map_result (item batch) ranking = Ok items
    /\ Forall2 (fun i x => batch !! Z.to_nat i = Some x) ranking items.
Proof.
  induction 1 as [|i ranking Hi _ (items & E & H2)].
  - exists []. split; [reflexivity|constructor].
  - destruct (lookup_lt_is_Some_2 batch (Z.to_nat i)) as [x Hx]; [lia|].
    exists (x :: items). cbn [map_result].
    rewrite (item_in_range batch i x) by (lia || exact Hx). cbn [bind]. rewrite E.
    split; [reflexivity|by constructor].
Qed.

Lemma shift_ranking_Ok (ranking : list Z) :
  ranking <> [] -> exists shifted, shift_ranking ranking = Ok shifted.
Proof. destruct ranking; [contradiction|]. intros _. eexists. reflexivity. Qed.

Section TopRankFacts.

Import vision_tools.

Context (Image A : Type).
Context (agent_call : string -> list (option Image) -> list string -> A
                      -> result (option string) * A).
Context (agent_reset : A -> A).
Context (re_search : string -> string -> option string).
Context (literal_eval : string -> result value).
Context (int_ : value -> result Z).
Context (Random : Type) (sample : nat -> Random -> list Z * Random).

Local Abbreviation vstate := (vision A Random).
Local Abbreviation top_rank :=
  (get_top_rank Image A agent_call agent_reset re_search literal_eval int_ Random sample).

(** The ranking [get_top_rank] starts from: the one listed in the reply,
    or a sample of the generator when the reply lists none. *)
Definition chosen_ranking (n : nat) (listed : list Z) (g : Random) : list Z * Random :=
  match listed with
  | [] => sample n g
  | _ => (listed, g)
  end.

Lemma get_top_rank_run (prompt : string) (batch : list Node.t)
    (batch_image : list (option Image)) (batch_captions : list string)
    (v : vstate) (agent agent' : A) (text : string) (listed : list Z) :
  batch <> [] ->
  _agent v = Some agent ->
  agent_call prompt batch_image batch_captions agent = (Ok (Some text), agent') ->
  read_ranking literal_eval int_ (re_search rank_pattern text) = Ok listed ->
  (chosen_ranking (length batch) listed (generator v)).1 <> [] ->
  let ranking :=
    usable_ranking (length batch) (chosen_ranking (length batch) listed (generator v)).1 in
  ranking <> [] /\ NoDup ranking
  /\ Forall (fun i => 0 <= i < Z.of_nat (length batch)) ranking
  /\ exists best children,
       top_rank prompt batch batch_image batch_captions v
       = (Ok (Node.mk (Node.id best) children),
          {| _agent := Some (agent_reset agent');
             generator := (chosen_ranking (length batch) listed (generator v)).2 |})
       /\ batch !! Z.to_nat (hd 0 ranking) = Some best
       /\ Forall2 (fun i child => batch !! Z.to_nat i = Some child) ranking children.
Proof.
  intros Hbatch Hagent Hcall Hread Hchosen ranking.
  assert (Hn : (0 < length batch)%nat) by (destruct batch; [contradiction|cbn; lia]).
  destruct (usable_ranking_spec (length batch) _ Hn Hchosen) as (Hne & Hnd & Hall).
  fold ranking in Hne, Hnd, Hall.
  split; [exact Hne|]. split; [exact Hnd|]. split; [exact Hall|].
  destruct (items_in_range batch ranking Hall) as (children & Hitems & Hchildren).
  destruct ranking as [|first rest] eqn:Hranking; [contradiction|].
  inversion Hchildren as [|? best ? children' Hbest Hrest]; subst children.
  exists best, (best :: children'). split; [|split; [exact Hbest|exact Hchildren]].
  unfold get_top_rank. rewrite (require_then _ _ _ _ _ Hagent).
  unfold mbind at 1. rewrite with_agent_holding, Hcall. cbn [fst snd].
  unfold mbind at 1, lift at 1. cbn [search].
  unfold mbind at 1, lift at 1. rewrite Hread.
  destruct (shift_ranking_Ok _ Hchosen) as (shifted & Hshift).
  assert (Huse : match clamp_dedup (Z.of_nat (length batch)) ∅ shifted with
                 | [] => map Z.of_nat (seq 0 (length batch))
                 | _ :: _ => clamp_dedup (Z.of_nat (length batch)) ∅ shifted
                 end = first :: rest).
  { rewrite <- Hranking. subst ranking. unfold usable_ranking. rewrite Hshift.
    by destruct (clamp_dedup _ _ shifted). }
  inversion Hall as [|? ? Hfirst _]; subst.
  assert (Hrest_run : forall (chosen : list Z) (v1 : vstate),
            shift_ranking chosen = Ok shifted ->
            _agent v1 = Some agent' ->
            mbind (lift (shift_ranking chosen))
              (fun ranking0 =>
                 let ranking1 := clamp_dedup (Z.of_nat (length batch)) ∅ ranking0 in
                 let ranking2 := match ranking1 with
                                 | [] => map Z.of_nat (seq 0 (length batch))
                                 | _ :: _ => ranking1
                                 end in
                 mbind (lift (item ranking2 0))
                   (fun first0 =>
                      mbind (lift (item batch first0))
                        (fun best0 =>
                           mbind (lift (map_result (item batch) ranking2))
                             (fun children0 =>
                                mbind (with_agent A Random
                                         (fun agent0 => (Ok tt, agent_reset agent0)))
                                  (fun _ => ret (Node.mk (Node.id best0) children0)))))) v1
            = (Ok (Node.mk (Node.id best) (best :: children')),
               {| _agent := Some (agent_reset agent'); generator := generator v1 |})).
  { intros chosen v1 Hs Hv1. unfold mbind at 1, lift at 1. rewrite Hs. cbv zeta.
    rewrite Huse.
    unfold mbind at 1, lift at 1. rewrite (item_in_range (first :: rest) 0 first) by done.
    unfold mbind at 1, lift at 1. rewrite (item_in_range batch first best) by (lia || done).
    unfold mbind at 1, lift at 1. rewrite Hitems.
    unfold mbind, with_agent, ret. rewrite Hv1. reflexivity. }
  unfold chosen_ranking in *. destruct listed as [|l0 listed].
  - unfold mbind at 1, random_sample. cbn [generator holding _agent].
    destruct (sample (length batch) (generator v)) as [chosen g] eqn:Hsample.
    cbn [fst snd] in *. by rewrite (Hrest_run chosen).
  - unfold mbind at 1, ret. cbn [fst snd] in *. by rewrite (Hrest_run (l0 :: listed)).
Qed.

(** X23. [get_top_rank] on a batch that is not empty, with an agent that
    replies a text: whatever ranking the reply lists (ids out of range,
    repeated, counted from 0 or from 1) or, when it lists none, whatever
    the generator samples, as long as it is not empty, the ranking worked
    with is not empty, lists no index twice and only indices of the batch,
    so no subscript fails. The node returned carries the id of the node
    ranked first and has the ranked nodes as children, and the agent has
    been reset. *)
Theorem get_top_rank_usable (prompt : string) (batch : list Node.t)
    (batch_image : list (option Image)) (batch_captions : list string)
    (v : vstate) (agent agent' : A) (text : string) (listed : list Z) :
  batch <> [] ->
  _agent v = Some agent ->
  agent_call prompt batch_image batch_captions agent = (Ok (Some text), agent') ->
  read_ranking literal_eval int_ (re_search rank_pattern text) = Ok listed ->
  (chosen_ranking (length batch) listed (generator v)).1 <> [] ->
  let ranking :=
    usable_ranking (length batch) (chosen_ranking (length batch) listed (generator v)).1 in
  ranking <> [] /\ NoDup ranking
  /\ Forall (fun i => 0 <= i < Z.of_nat (length batch)) ranking
  /\ exists best children,
       top_rank prompt batch batch_image batch_captions v
       = (Ok (Node.mk (Node.id best) children),
          {| _agent := Some (agent_reset agent');
             generator := (chosen_ranking (length batch) listed (generator v)).2 |})
       /\ batch !! Z.to_nat (hd 0 ranking) = Some best
       /\ Forall2 (fun i child => batch !! Z.to_nat i = Some child) ranking children.
Proof. apply get_top_rank_run. Qed.

End TopRankFacts.

Lemma foldl_min_spec (l : list Z) (x : Z) :
  foldl Z.min x l ∈ x :: l /\ forall y, y ∈ x :: l -> foldl Z.min x l <= y.
Proof.
  revert x. induction l as [|z l IH]; intros x; cbn [foldl].
  - split; [by left|]. intros y ->%list_elem_of_singleton. lia.
  - destruct (IH (Z.min x z)) as [Hin Hle]. split.
    + apply elem_of_cons in Hin as [Hm|Hin]; [|right; by right].
      rewrite Hm. destruct (Z.min_spec x z) as [[_ ->]|[_ ->]]; [by left|right; by left].
    + intros y [->|[->|Hy]%elem_of_cons]%elem_of_cons.
      * specialize (Hle (Z.min x z) ltac:(by left)). lia.
      * specialize (Hle (Z.min x z) ltac:(by left)). lia.
      * apply Hle. by right.
Qed.

Lemma min_of_spec (l : list Z) (m : Z) :
  m ∈ l -> (forall y, y ∈ l -> m <= y) -> min_of l = Ok m.
Proof.
  destruct l as [|x l]; [by intros ?%elem_of_nil|]. intros Hm Hle. cbn [min_of].
  destruct (foldl_min_spec l x) as [Hin Hmin].
  f_equal. apply Z.le_antisymm; [by apply Hmin|by apply Hle].
Qed.

(** A complete ranking, counted from 1 or from 0, is used as it is
    written (shifted to count from 0). *)
Lemma usable_ranking_complete (n : nat) (listed : list Z) :
  (0 < n)%nat ->
  (Permutation listed (map Z.of_nat (seq 1 n)) ->
   usable_ranking n listed = map (fun i => i - 1) listed)
  /\ (Permutation listed (map Z.of_nat (seq 0 n)) ->
      usable_ranking n listed = listed).
Proof.
  intros Hn.
  assert (Hkeep : forall ranking : list Z,
            Permutation ranking (map Z.of_nat (seq 0 n)) ->
            match clamp_dedup (Z.of_nat n) ∅ ranking with
            | [] => map Z.of_nat (seq 0 n)
            | kept => kept
            end = ranking).
  { intros ranking Hperm. rewrite clamp_dedup_id.
    - destruct ranking; [|reflexivity].
      apply Permutation_nil_l in Hperm. destruct n; [lia|discriminate].
    - rewrite Hperm. apply (NoDup_fmap_2 Z.of_nat), NoDup_seq.
    - rewrite Hperm. apply Forall_fmap, Forall_forall. intros k Hk%elem_of_seq. cbn. lia.
    - intros i _. apply not_elem_of_empty. }
  split; intros Hperm; unfold usable_ranking, shift_ranking.
  - rewrite (min_of_spec listed 1).
    + cbn [bind]. rewrite Z.eqb_refl. apply Hkeep.
      change (map (fun i => i - 1) listed) with ((fun i => i - 1) <$> listed).
      rewrite Hperm.
      change (map Z.of_nat (seq 1 n)) with (Z.of_nat <$> seq 1 n).
      change (map Z.of_nat (seq 0 n)) with (Z.of_nat <$> seq 0 n).
      replace ((fun i => i - 1) <$> (Z.of_nat <$> seq 1 n)) with (Z.of_nat <$> seq 0 n);
        [reflexivity|].
      rewrite <- list_fmap_compose, <- (fmap_S_seq 0), <- list_fmap_compose.
      apply list_fmap_ext. intros _ k _. cbn. lia.
    + rewrite Hperm. apply (list_elem_of_fmap_2 Z.of_nat _ 1%nat), elem_of_seq. lia.
    + intros y. rewrite Hperm. intros (k & -> & Hk%elem_of_seq)%list_elem_of_fmap. lia.
  - rewrite (min_of_spec listed 0).
    + cbn [bind]. change (0 =? 1) with false. cbn [negb]. change (0 =? 0) with true.
      cbn [negb]. by apply Hkeep.
    + rewrite Hperm. apply (list_elem_of_fmap_2 Z.of_nat _ 0%nat), elem_of_seq. lia.
    + intros y. rewrite Hperm. intros (k & -> & Hk%elem_of_seq)%list_elem_of_fmap. lia.
Qed.

Lemma leaves_children (n : nat) (ranking : list Z) (children : list Node.t) :
  Forall2 (fun i child => map leaf (seq 0 n) !! Z.to_nat i = Some child) ranking children ->
  children = map leaf (map Z.to_nat ranking).
Proof.
  induction 1 as [|i child ranking children Hi _ IH]; [reflexivity|].
  cbn [map]. rewrite <- IH. f_equal.
  change (map leaf (seq 0 n)) with (leaf <$> seq 0 n) in Hi.
  rewrite list_lookup_fmap in Hi.
  destruct (seq 0 n !! Z.to_nat i) as [k|] eqn:E; [|discriminate].
  apply lookup_seq in E as [-> _]. by injection Hi as <-.
Qed.

Section RankSingle.

Import vision_tools.

Context (Image A : Type).
Context (agent_call : string -> list (option Image) -> list string -> A
                      -> result (option string) * A).
Context (agent_reset : A -> A).
Context (re_search : string -> string -> option string).
Context (literal_eval : string -> result value).
Context (int_ : value -> result Z).
Context (Random : Type) (sample : nat -> Random -> list Z * Random).

Local Abbreviation vstate := (vision A Random).

(** X24. [rank] on one to ten images, with an agent whose reply lists a
    ranking: one prompt is sent, with every image, captioned [Image 0],
    [Image 1], ...; the agent is reset; the result is the usable ranking,
    the ids listed, shifted to count from 0 when the smallest is not 0,
    without those out of range and without repetitions. A complete
    ranking counted from 1 comes back counted from 0, and one counted from
    0 comes back as it is. *)
Theorem rank_single_batch (images : list Image) (task_objective : string) (v : vstate)
    (agent agent' : A) (text : string) (listed : list Z) :
  (0 < length images <= 10)%nat ->
  _agent v = Some agent ->
  agent_call (rank_prompt task_objective) (map Some images)
    (numbered "Image" (length images)) agent = (Ok (Some text), agent') ->
  read_ranking literal_eval int_ (re_search rank_pattern text) = Ok listed ->
  listed <> [] ->
  rank Image A agent_call agent_reset re_search literal_eval int_ Random sample
    images task_objective v
  = (Ok (map Z.to_nat (usable_ranking (length images) listed)),
     {| _agent := Some (agent_reset agent'); generator := generator v |})
  /\ (Permutation listed (map Z.of_nat (seq 1 (length images))) ->
      usable_ranking (length images) listed = map (fun i => i - 1) listed)
  /\ (Permutation listed (map Z.of_nat (seq 0 (length images))) ->
      usable_ranking (length images) listed = listed).
Proof.
  intros Hn Hagent Hcall Hread Hlisted.
  split; [|apply usable_ranking_complete; lia].
  unfold rank. cbv zeta.
  set (n := length images) in *.
  change (map (fun i => Node.mk i []) (seq 0 n)) with (map leaf (seq 0 n)).
  assert (Hlen : length (map leaf (seq 0 n)) = n)
    by (by rewrite List.length_map, length_seq).
  assert (Hbatches : map (fun k => take 10 (drop (10 * k) (map leaf (seq 0 n))))
                       (seq 0 ((n + (10 - 1)) / 10))
                     = [map leaf (seq 0 n)]).
  { replace ((n + (10 - 1)) / 10)%nat with 1%nat.
    - cbn [seq map]. rewrite Nat.mul_0_r, drop_0, take_ge; [reflexivity|lia].
    - apply (Nat.div_unique _ _ _ (n - 1)); lia. }
  rewrite Hbatches. unfold mbind at 1. rewrite rank_rounds_S.
  unfold mbind at 1. cbn [map_M]. unfold mbind at 1.
  unfold rank_batch at 1. cbv zeta. unfold mbind at 1, lift at 1.
  pose proof (leaves_images images 0 images [] eq_refl eq_refl) as Himages.
  fold n in Himages. rewrite Himages. cbn [bind].
  rewrite Hlen.
  destruct (get_top_rank_run Image A agent_call agent_reset re_search literal_eval int_
              Random sample (rank_prompt task_objective) (map leaf (seq 0 n))
              (map Some images) (numbered "Image" n) v agent agent' text listed)
    as (Hne & Hnd & Hall & best & children & Hrun & Hbest & Hchildren).
  - destruct n; [lia|discriminate].
  - exact Hagent.
  - exact Hcall.
  - exact Hread.
  - unfold chosen_ranking. by destruct listed.
  - rewrite Hlen in *.
    assert (Hchosen : chosen_ranking Random sample n listed (generator v)
                      = (listed, generator v))
      by (unfold chosen_ranking; by destruct listed).
    rewrite Hchosen in *. cbn [fst snd] in *.
    rewrite Hrun. unfold mbind, ret.
    apply leaves_children in Hchildren. subst children.
    destruct (usable_ranking n listed) as [|first rest] eqn:Hu; [contradiction|].
    cbn [hd] in Hbest.
    change (map leaf (seq 0 n)) with (leaf <$> seq 0 n) in Hbest.
    rewrite list_lookup_fmap in Hbest.
    destruct (seq 0 n !! Z.to_nat first) as [k|] eqn:E; [|discriminate].
    apply lookup_seq in E as [-> _]. injection Hbest as <-.
    change (Node.id (leaf (Z.to_nat first))) with (Z.to_nat first).
    change (map Z.to_nat (first :: rest)) with (Z.to_nat first :: map Z.to_nat rest).
    rewrite preorder_leaves; [reflexivity|].
    change (Z.to_nat first :: map Z.to_nat rest) with (Z.to_nat <$> (first :: rest)).
    apply NoDup_fmap_2_strong; [|exact Hnd].
    intros i j Hi Hj Hij. rewrite Forall_forall in Hall.
    pose proof (Hall i Hi). pose proof (Hall j Hj). lia.
Qed.

End RankSingle.

(** ** Stage 2: a plan that is applied is not rolled back *)

Section StageTwoRuns.

Context (A : Type).
Context (agent_call : string -> A -> result (option string) * A).
Context (agent_reset : A -> A).
Context (json_loads : string -> result json).
Context (FI EI : gset string).
Context (W : Type).

Lemma stage2_loop_S (n : nat) (prompt : string) (last_error : option exn) :
  stage2_loop A agent_call agent_reset json_loads FI EI W (S n) prompt last_error
  = (response <- call_agent A agent_call W prompt ;;
     try_except (stage2_body A agent_reset json_loads FI EI W response) retryable12
       (fun exc =>
          record A W (ACaught exc) ;;;
          stage2_loop A agent_call agent_reset json_loads FI EI W n
            (feedback_invalid exc) (Some exc)))%M.
Proof. reflexivity. Qed.

(** X25. When the first reply of the agent parses and validates to a plan,
    Stage 2 applies the plan to the frames of the session. If the applier
    completes, the stage resets the agent and returns after one prompt. If
    the applier raises a [ValidationError] (an unknown action, or the
    constraints checked after the actions), what its actions did to the
    frames stays: the stage goes on with the two attempts left, the
    feedback prompt and the agent not reset, on the frames as the failed
    plan left them. An exception of another kind leaves the stage at once,
    the frames as the plan left them and the agent not reset. *)
Theorem structure_abstraction_first_reply (prompt : string) (s : session A W)
    (response : option string) (a' : A) (data : json) (plan : Stage2Plan)
    (r : result unit) (fs' : list Frame.t) :
  agent_call prompt (agent s) = (Ok response, a') ->
  parse_json_from_response json_loads response = Ok data ->
  validate_stage2 FI EI data (Z.of_nat (length (frames s))) = Ok plan ->
  apply_stage2_plan (frames s) plan = (r, fs') ->
  let run := structure_abstraction A agent_call agent_reset json_loads FI EI W prompt s in
  let after (a : A) (events : list agent_event) : session A W :=
    {| agent := a; frames := fs'; tool_world := tool_world s;
       log := (log s ++ events)%list |} in
  (r = Ok tt -> run = (Ok tt, after (agent_reset a') [ACall prompt; AReset]))
  /\ (forall e, r = Raise e -> is_ValidationError e = true ->
        run = stage2_loop A agent_call agent_reset json_loads FI EI W 2
                (feedback_invalid e) (Some e) (after a' [ACall prompt; ACaught e]))
  /\ (forall e, r = Raise e -> retryable12 e = false ->
        run = (Raise e, after a' [ACall prompt])).
Proof.
  intros Hcall Hparse Hvalid Happly run after. subst run.
  assert (Hrun : structure_abstraction A agent_call agent_reset json_loads FI EI W prompt s
                 = match r with
                   | Ok _ => (Ok tt, after (agent_reset a') [ACall prompt; AReset])
                   | Raise e =>
                       if retryable12 e
                       then stage2_loop A agent_call agent_reset json_loads FI EI W 2
                              (feedback_invalid e) (Some e)
                              (after a' [ACall prompt; ACaught e])
                       else (Raise e, after a' [ACall prompt])
                   end).
  { subst after. unfold structure_abstraction. rewrite stage2_loop_S.
    unfold mbind at 1, call_agent, mbind at 1, record, modify.
    cbn [agent frames tool_world log].
    rewrite Hcall. unfold try_except, stage2_body.
    unfold mbind at 1, lift at 1. rewrite Hparse.
    unfold mbind at 1, get_state. unfold mbind at 1, lift at 1. cbn [frames].
    rewrite Hvalid.
    unfold mbind at 1, on_frames at 1. cbn [frames]. rewrite Happly.
    destruct r as [[]|e].
    - unfold mbind, reset_agent, mbind, record, modify.
      cbn [agent frames tool_world log]. rewrite <- app_assoc. reflexivity.
    - destruct (retryable12 e); [|reflexivity].
      unfold mbind at 1. cbn [agent frames tool_world log].
      rewrite <- app_assoc. reflexivity. }
  rewrite Hrun. split; [|split].
  - intros ->. reflexivity.
  - intros e -> He. unfold retryable12. rewrite He, orb_true_r. reflexivity.
  - intros e -> He. rewrite He. reflexivity.
Qed.

End StageTwoRuns.

(** ** Runs on concrete inputs *)

(** A Stage-2 document that splits frame 0 in four, and the plan it
    validates to. *)
Definition doc_split : json :=
  JObj [("actions",
         JList [JObj [("type", JStr "split_frame"); ("frame", JInt 0);
                      ("rows", JInt 2); ("columns", JInt 2);
                      ("mark_as", JStr "SELECTABLE")]])].

Definition plan_split : Stage2Plan :=
  {| actions := [ {| type := "split_frame";
                     payload := [("frame", JInt 0); ("rows", JInt 2); ("columns", JInt 2);
                                 ("mark_as", JStr "SELECTABLE")] |} ] |}.

Lemma validated_plan_applies_witness :
  exists fs',
    for_each (actions plan_split) apply_action [blank_frame] = (Ok tt, fs')
    /\ length fs' = length [blank_frame]
    /\ (stage2_postcondition fs' -> apply_stage2_plan [blank_frame] plan_split = (Ok tt, fs'))
    /\ (~ stage2_postcondition fs' ->
        exists msg,
          apply_stage2_plan [blank_frame] plan_split = (Raise (ValidationError msg), fs')).
Proof.
  apply (validated_plan_applies {[ "SELECTABLE" ]} ∅ doc_split).
  vm_compute. reflexivity.
Defined.

Lemma nested_step_not_validated_witness :
  exists program,
    validate_stage3 (program_running [JStr "click"]) = Ok program
    /\ execute_stage3_program nat no_getattr echo_call no_iter no_sum all_true []
         program echo_registry O
       = (Raise (PyError "AttributeError" "'str' object has no attribute 'get'"),
          {| env := []; world := O; trace := [] |})
    /\ is_HalliganError (PyError "AttributeError" "'str' object has no attribute 'get'")
       = false.
Proof.
  apply (nested_step_not_validated nat no_getattr echo_call no_iter no_sum all_true
           echo_registry [] (JStr "click") [] O).
  discriminate.
Defined.

Definition environ_example : gmap string string :=
  {[ "BENCHMARK_URL" := "http://example.com" ]}.

Lemma from_env_single_url_witness :
  benchmark_url (from_env environ_example) = environ_example !! "BENCHMARK_URL"
  /\ benchmark_http_url (from_env environ_example) = environ_example !! "BENCHMARK_URL"
  /\ (validate urlparse_plain (from_env environ_example) = Ok tt
      <-> allow_nonlocal_benchmark (from_env environ_example) = true
          \/ forall url, is_set (environ_example !! "BENCHMARK_URL") url ->
                         local_url urlparse_plain url)
  /\ (forall e, validate urlparse_plain (from_env environ_example) = Raise e ->
        exists rest,
          e = UnsafeTargetError ("Detected non-local `BENCHMARK_URL`." +:+ rest)).
Proof.
  apply (from_env_single_url urlparse_plain environ_example).
  vm_compute. reflexivity.
Defined.

(** The interpreter on the stand-in tools, with room for five levels. *)
Definition eval5 : json -> M (state nat) value :=
  _eval_expr nat no_getattr echo_call no_iter no_sum 5 [VObj "Frame" 1; VObj "Frame" 2].

Definition run5 : list json -> M (state nat) unit :=
  run_steps nat no_getattr echo_call no_iter no_sum all_true echo_registry
    [VObj "Frame" 1; VObj "Frame" 2] 5.

Definition state0 : state nat := {| env := []; world := O; trace := [] |}.

Lemma literal_evaluates_witness :
  _eval_expr nat no_getattr echo_call no_iter no_sum 3 []
    (JList [JInt 1; JList [JStr "a"; JNull]; JBool true]) state0
  = (Ok (VList [VInt 1; VList [VStr "a"; VNone]; VBool true]), state0).
Proof.
  apply (literal_evaluates nat no_getattr echo_call no_iter no_sum [] 3
           (JList [JInt 1; JList [JStr "a"; JNull]; JBool true]) state0).
  - reflexivity.
  - cbn. lia.
Defined.

Lemma assign_then_var_witness :
  run_step nat no_getattr echo_call all_true echo_registry eval5 run5
    (JObj [("op", JStr "assign"); ("var", JStr "x"); ("value", JInt 3)]) state0
  = (Ok tt, bind_var nat "x" (VInt 3) state0).
Proof.
  apply (assign_then_var nat no_getattr echo_call no_iter no_sum all_true echo_registry
           [] eval5 run5); [reflexivity|reflexivity|discriminate|reflexivity].
Defined.

Lemma frame_selector_bounds_witness :
  (exists frame,
     [VObj "Frame" 1; VObj "Frame" 2] !! Z.to_nat 1 = Some frame
     /\ eval_dict nat no_getattr echo_call no_iter no_sum eval5
          [VObj "Frame" 1; VObj "Frame" 2] [("ref", JStr "frame"); ("id", JBool true)] state0
        = (Ok frame, state0))
  /\ (exists shown,
        eval_dict nat no_getattr echo_call no_iter no_sum eval5
          [VObj "Frame" 1; VObj "Frame" 2] [("ref", JStr "frame"); ("id", JInt (-1))] state0
        = (Raise (ToolError ("Invalid frame id: " +:+ shown)), state0)).
Proof.
  split.
  - apply (proj1 (frame_selector_bounds nat no_getattr echo_call no_iter no_sum
                    [VObj "Frame" 1; VObj "Frame" 2] eval5
                    [("ref", JStr "frame"); ("id", JBool true)] state0 eq_refl eq_refl) 1);
      [reflexivity|cbn; lia].
  - apply (proj2 (frame_selector_bounds nat no_getattr echo_call no_iter no_sum
                    [VObj "Frame" 1; VObj "Frame" 2] eval5
                    [("ref", JStr "frame"); ("id", JInt (-1))] state0 eq_refl eq_refl)).
    intros i [= <-]. left. lia.
Defined.

Lemma index_form_bounds_witness :
  (exists item,
     [VInt 10; VInt 20; VInt 30] !! Z.to_nat (3 + -1) = Some item
     /\ eval_dict nat no_getattr echo_call no_iter no_sum eval5 []
          [("ref", JStr "index"); ("list", JList [JInt 10; JInt 20; JInt 30]);
           ("index", JInt (-1))] state0
        = (Ok item, state0))
  /\ eval_dict nat no_getattr echo_call no_iter no_sum eval5 []
       [("ref", JStr "index"); ("list", JList [JInt 10; JInt 20; JInt 30]);
        ("index", JInt 3)] state0
     = (Raise (PyError "IndexError" "list index out of range"), state0).
Proof.
  split.
  - apply (proj1 (proj2 (index_form_bounds nat no_getattr echo_call no_iter no_sum []
                    eval5 [("ref", JStr "index"); ("list", JList [JInt 10; JInt 20; JInt 30]);
                           ("index", JInt (-1))]
                    [VInt 10; VInt 20; VInt 30] (VInt (-1)) state0 state0 state0
                    eq_refl eq_refl eq_refl eq_refl)) (-1));
      [reflexivity|cbn; lia].
  - apply (proj1 (proj2 (proj2 (index_form_bounds nat no_getattr echo_call no_iter no_sum []
                    eval5 [("ref", JStr "index"); ("list", JList [JInt 10; JInt 20; JInt 30]);
                           ("index", JInt 3)]
                    [VInt 10; VInt 20; VInt 30] (VInt 3) state0 state0 state0
                    eq_refl eq_refl eq_refl eq_refl))) 3);
      [reflexivity|cbn; lia].
Defined.

Lemma filter_mask_keeps_witness :
  eval_dict nat no_getattr echo_call no_iter no_sum eval5 []
    [("op", JStr "filter_mask"); ("items", JList [JStr "a"; JStr "b"; JStr "c"]);
     ("mask", JList [JBool true; JBool false; JBool true])] state0
  = (Ok (VList (kept [VStr "a"; VStr "b"; VStr "c"] [true; false; true])), state0)
  /\ py_sum nat no_sum (VList (map VBool [true; false; true])) state0
     = (Ok (VInt (Z.of_nat (length (kept [VStr "a"; VStr "b"; VStr "c"]
                                         [true; false; true])))), state0).
Proof.
  apply (proj1 (proj2 (filter_mask_keeps nat no_getattr echo_call no_iter no_sum []
                  eval5 [("op", JStr "filter_mask");
                         ("items", JList [JStr "a"; JStr "b"; JStr "c"]);
                         ("mask", JList [JBool true; JBool false; JBool true])]
                  [VStr "a"; VStr "b"; VStr "c"] (map VBool [true; false; true])
                  state0 state0 state0 eq_refl eq_refl eq_refl eq_refl eq_refl))
           [true; false; true]); reflexivity.
Defined.

Lemma call_step_outcomes_witness :
  run_step nat no_getattr echo_call all_true echo_registry eval5 run5
    (JObj [("op", JStr "call"); ("tool", JStr "echo"); ("args", JObj [("value", JInt 7)]);
           ("save_as", JStr "")]) state0
  = (Raise (ToolError "call.save_as must be non-empty string"),
     {| env := []; world := 1%nat; trace := [EvTool "echo"] |}).
Proof.
  apply (proj2 (proj2 (proj2 (proj2
           (call_step_outcomes nat no_getattr echo_call all_true echo_registry eval5 run5
              [("op", JStr "call"); ("tool", JStr "echo");
               ("args", JObj [("value", JInt 7)]); ("save_as", JStr "")]
              "echo" {| ToolRegistry.name := "echo"; ToolRegistry.fn := echo |}
              [("value", JInt 7)] [("value", VInt 7)] state0 state0 (Ok (VInt 7)) 1%nat
              eq_refl eq_refl eq_refl eq_refl eq_refl eq_refl)))) (VInt 7));
    [reflexivity|discriminate|by intros name [= <-]].
Defined.


Lemma solution_composition_never_completes_witness :
  (exists e, (run_stage3 [reply_program]).1 = Raise e)
  /\ tool_world (run_stage3 [reply_program]).2 = tool_world (start [reply_program])
  /\ frames (run_stage3 [reply_program]).2 = frames (start [reply_program]).
Proof.
  unfold run_stage3.
  destruct (solution_composition _ _ _ _ _ _ _ _ _ _ _ _ _ _) as [r s'] eqn:Hrun.
  apply solution_composition_never_completes in Hrun. exact Hrun.
Defined.

(** ** Runs of the agent and of the vision tools on concrete inputs *)

(** Images that are their own base64 text, and a service that counts the
    requests and replies [ok] with the number of messages it was sent. *)
Definition encode_text (image : string) : result string := Ok image.

Definition create_ok (client : unit) (model : string) (messages : list GPTAgent.message)
    (service : nat) : result (option string * nat) * nat :=
  (Ok (Some "ok", length messages), S service).

Definition gpt_example : GPTAgent.t unit :=
  {| GPTAgent.model := "gpt-4o-2024-11-20"; GPTAgent.client := tt;
     GPTAgent.history := [] |}.


(** The scripted agent behind the interface of the vision tools: images
    and captions are not looked at. *)
Definition scripted_vision_call (prompt : string) (images : list (option string))
    (image_captions : list string) (a : scripted) : result (option string) * scripted :=
  scripted_call prompt a.

(** Stand-ins for [re.search] and [ast.literal_eval] on the replies used
    below: the group searched for is the first bracketed part of the text,
    and the literals are read from a table. *)
Fixpoint upto_close (text : string) : option string :=
  match text with
  | EmptyString => None
  | String c rest =>
      if Ascii.eqb c "]" then Some "]"
      else option_map (String c) (upto_close rest)
  end.

Fixpoint from_open (text : string) : option string :=
  match text with
  | EmptyString => None
  | String c rest => if Ascii.eqb c "[" then upto_close text else from_open rest
  end.

Definition search_brackets (pattern text : string) : option string := from_open text.

Definition literal_table (text : string) : result value :=
  if String.eqb text "[True, False]" then Ok (VList [VBool true; VBool false])
  else if String.eqb text "[2, 1, 3]" then Ok (VList [VInt 2; VInt 1; VInt 3])
  else if String.eqb text "[7, 7]" then Ok (VList [VInt 7; VInt 7])
  else Raise (PyError "SyntaxError" "invalid syntax").

Definition int_refused (x : value) : result Z :=
  Raise (PyError "TypeError" "int() argument must be a string, a bytes-like object or a real number").

(** A generator that samples the indices in their order. *)
Definition sample_in_order (n : nat) (g : unit) : list Z * unit :=
  (map Z.of_nat (seq 0 n), g).

(** The module with an agent that has one reply left. *)
Definition module_with (reply : string) : vision_tools.vision scripted unit :=
  {| vision_tools._agent := Some {| script := [Ok (Some reply)]; history := [] |};
     vision_tools.generator := tt |}.

Definition module_after (prompt : string) : vision_tools.vision scripted unit :=
  {| vision_tools._agent := Some (scripted_reset {| script := []; history := [prompt] |});
     vision_tools.generator := tt |}.

Lemma ask_outcomes_witness :
  vision_tools.ask string scripted scripted_vision_call scripted_reset search_brackets
    literal_table unit ["a"; "b"] "Is there a car?" "bool"
    (module_with "answer(booleans=[True, False])")
  = (Ok [VBool true; VBool false],
     module_after (vision_tools.ask_prompt "Is there a car?" "bool")).
Proof.
  refine (proj1 (proj2 (proj2 (proj2
            (proj2 (ask_outcomes string scripted scripted_vision_call scripted_reset
                      search_brackets literal_table unit ["a"; "b"] "Is there a car?"
                      "bool" (module_with "answer(booleans=[True, False])"))
               {| script := [Ok (Some "answer(booleans=[True, False])")]; history := [] |}
               (Ok (Some "answer(booleans=[True, False])"))
               {| script := [];
                  history := [vision_tools.ask_prompt "Is there a car?" "bool"] |}
               eq_refl _))))
            "answer(booleans=[True, False])" "[True, False]"
            [VBool true; VBool false] eq_refl _ _);
    vm_compute; reflexivity.
Defined.

Lemma compare_outcomes_witness :
  vision_tools.compare string scripted scripted_vision_call scripted_reset search_brackets
    literal_table unit ["a"; "b"] "same animal" (Some "ref")
    (module_with "I cannot tell")
  = (Ok [VBool false; VBool false],
     module_after (vision_tools.compare_prompt "same animal")).
Proof.
  refine (proj1 (proj2 (proj2
            (proj2 (compare_outcomes string scripted scripted_vision_call scripted_reset
                      search_brackets literal_table unit ["a"; "b"] "same animal"
                      (Some "ref") (module_with "I cannot tell"))
               {| script := [Ok (Some "I cannot tell")]; history := [] |}
               (Ok (Some "I cannot tell"))
               {| script := [];
                  history := [vision_tools.compare_prompt "same animal"] |}
               eq_refl _)))
            "I cannot tell" eq_refl _);
    vm_compute; reflexivity.
Defined.

Lemma rank_ids_witness :
  let run := vision_tools.rank string scripted scripted_vision_call scripted_reset
               search_brackets literal_table int_refused unit sample_in_order
               ["a"; "b"; "c"] "largest animal" (module_with "rank(ids=[2, 1, 3])") in
  run = (Ok [1; 0; 2]%nat, module_after (vision_tools.rank_prompt "largest animal"))
  /\ NoDup [1; 0; 2]%nat
  /\ Forall (fun i => (i < length ["a"; "b"; "c"])%nat) [1; 0; 2]%nat.
Proof.
  cbv zeta.
  assert (Hrun : vision_tools.rank string scripted scripted_vision_call scripted_reset
                   search_brackets literal_table int_refused unit sample_in_order
                   ["a"; "b"; "c"] "largest animal" (module_with "rank(ids=[2, 1, 3])")
                 = (Ok [1; 0; 2]%nat,
                    module_after (vision_tools.rank_prompt "largest animal")))
    by (vm_compute; reflexivity).
  split; [exact Hrun|].
  apply (proj1 (rank_ids string scripted scripted_vision_call scripted_reset
                  search_brackets literal_table int_refused unit sample_in_order
                  ["a"; "b"; "c"] "largest animal" (module_with "rank(ids=[2, 1, 3])")))
    in Hrun as (_ & _ & Hnd & Hall).
  by split.
Defined.

Lemma get_top_rank_usable_witness :
  let batch := [Node.mk 0 []; Node.mk 1 []; Node.mk 2 []] in
  let ranking := usable_ranking (length batch) [7; 7] in
  ranking <> [] /\ NoDup ranking
  /\ Forall (fun i => 0 <= i < Z.of_nat (length batch)) ranking
  /\ exists best children,
       vision_tools.get_top_rank string scripted scripted_vision_call scripted_reset
         search_brackets literal_table int_refused unit sample_in_order
         "rank them" batch [Some "a"; Some "b"; Some "c"] ["Image 0"; "Image 1"; "Image 2"]
         (module_with "rank(ids=[7, 7])")
       = (Ok (Node.mk (Node.id best) children), module_after "rank them")
       /\ batch !! Z.to_nat (hd 0 ranking) = Some best
       /\ Forall2 (fun i child => batch !! Z.to_nat i = Some child) ranking children.
Proof.
  apply (get_top_rank_usable string scripted scripted_vision_call scripted_reset
           search_brackets literal_table int_refused unit sample_in_order
           "rank them" [Node.mk 0 []; Node.mk 1 []; Node.mk 2 []]
           [Some "a"; Some "b"; Some "c"] ["Image 0"; "Image 1"; "Image 2"]
           (module_with "rank(ids=[7, 7])")
           {| script := [Ok (Some "rank(ids=[7, 7])")]; history := [] |}
           {| script := []; history := ["rank them"] |}
           "rank(ids=[7, 7])" [7; 7]);
    [discriminate|reflexivity|reflexivity|vm_compute; reflexivity|discriminate].
Defined.

Lemma rank_single_batch_witness :
  vision_tools.rank string scripted scripted_vision_call scripted_reset search_brackets
    literal_table int_refused unit sample_in_order ["a"; "b"; "c"] "largest animal"
    (module_with "rank(ids=[2, 1, 3])")
  = (Ok (map Z.to_nat (usable_ranking (length ["a"; "b"; "c"]) [2; 1; 3])),
     module_after (vision_tools.rank_prompt "largest animal")).
Proof.
  apply (proj1 (rank_single_batch string scripted scripted_vision_call scripted_reset
                  search_brackets literal_table int_refused unit sample_in_order
                  ["a"; "b"; "c"] "largest animal" (module_with "rank(ids=[2, 1, 3])")
                  {| script := [Ok (Some "rank(ids=[2, 1, 3])")]; history := [] |}
                  {| script := [];
                     history := [vision_tools.rank_prompt "largest animal"] |}
                  "rank(ids=[2, 1, 3])" [2; 1; 3]
                  ltac:(cbn; lia) eq_refl ltac:(vm_compute; reflexivity)
                  ltac:(vm_compute; reflexivity) ltac:(discriminate))).
Defined.

(** A Stage-2 reply that validates and whose plan ends with two kinds of
    tags in the tree. *)
Definition reply_two_tags : result (option string) :=
  Ok (Some (dq "{'actions': [{'type': 'split_frame', 'frame': 0, 'rows': 2, 'columns': 2, 'mark_as': 'SELECTABLE'}, {'type': 'grid_frame', 'frame': 0, 'tiles': 4, 'mark_as': 'SWAPPABLE'}]}")).

Definition two_tags_error : exn :=
  ValidationError "Stage 2 must result in exactly one non-NEXT interactable type (found: ['SELECTABLE', 'SWAPPABLE'])".

Lemma structure_abstraction_first_reply_witness :
  structure_abstraction scripted scripted_call scripted_reset json_decode
    {[ "SELECTABLE" ]} {[ "SWAPPABLE" ]} nat "stage 2" (start [reply_two_tags])
  = stage2_loop scripted scripted_call scripted_reset json_decode
      {[ "SELECTABLE" ]} {[ "SWAPPABLE" ]} nat 2
      (feedback_invalid two_tags_error) (Some two_tags_error)
      {| agent := {| script := []; history := ["stage 2"] |};
         frames := (apply_stage2_plan [blank_frame] plan_two_tags).2;
         tool_world := O;
         log := ([] ++ [ACall "stage 2"; ACaught two_tags_error])%list |}.
Proof.
  refine (proj1 (proj2
            (structure_abstraction_first_reply scripted scripted_call scripted_reset
               json_decode {[ "SELECTABLE" ]} {[ "SWAPPABLE" ]} nat "stage 2"
               (start [reply_two_tags])
               (Some (dq "{'actions': [{'type': 'split_frame', 'frame': 0, 'rows': 2, 'columns': 2, 'mark_as': 'SELECTABLE'}, {'type': 'grid_frame', 'frame': 0, 'tiles': 4, 'mark_as': 'SWAPPABLE'}]}"))
               {| script := []; history := ["stage 2"] |}
               (JObj [("actions",
                       JList [JObj [("type", JStr "split_frame"); ("frame", JInt 0);
                                    ("rows", JInt 2); ("columns", JInt 2);
                                    ("mark_as", JStr "SELECTABLE")];
                              JObj [("type", JStr "grid_frame"); ("frame", JInt 0);
                                    ("tiles", JInt 4); ("mark_as", JStr "SWAPPABLE")]])])
               plan_two_tags (Raise two_tags_error)
               (apply_stage2_plan [blank_frame] plan_two_tags).2 _ _ _ _))
            two_tags_error eq_refl eq_refl);
    vm_compute; reflexivity.
Defined.
